(** * TradSimpChinese: the selective script transformation engine

    A shallow embedding of [plugin.py]: the criteria tuple, the conversion
    resolver ([get_configuration], [get_language_code]), the punctuation
    tables built by [guiTradSimpChinese.getCriteria] and the streaming
    markup transformer [HTML_TextProcessor].

    Python [str] values are sequences of Unicode code points and are
    modelled as lists of code points; Python [int]s are unbounded and are
    modelled in [Z]. *)

From Stdlib Require Import List ZArith NArith Bool Ascii String Lia.
From Stdlib Require Import Permutation.
Import ListNotations.

Local Open Scope Z_scope.

(* ================================================================== *)
(** ** Strings *)

(** A Unicode code point. *)
Definition char := N.

(** A Python [str]. *)
Definition pystr := list char.

(** An ASCII literal of the source, as a [str]. *)
Definition lit (s : string) : pystr :=
  List.map N_of_ascii (list_ascii_of_string s).

(** The double quote character, U+0022. *)
Definition dquote : char := 34%N.

Fixpoint str_eqb (a b : pystr) : bool :=
  match a, b with
  | [], [] => true
  | x :: a', y :: b' => N.eqb x y && str_eqb a' b'
  | _, _ => false
  end.

(** [''.join(parts)] *)
Definition join (parts : list pystr) : pystr := List.concat parts.

(** [text[:-1]] *)
Definition drop_last (text : pystr) : pystr := List.removelast text.

(** The code points [str.isspace] and [str.strip] treat as whitespace
    (CPython's [_PyUnicode_IsWhitespace]). *)
Definition is_whitespace (c : char) : bool :=
  ((0x09 <=? c) && (c <=? 0x0D) || (0x1C <=? c) && (c <=? 0x20)
   || (c =? 0x85) || (c =? 0xA0) || (c =? 0x1680)
   || (0x2000 <=? c) && (c <=? 0x200A)
   || (c =? 0x2028) || (c =? 0x2029) || (c =? 0x202F)
   || (c =? 0x205F) || (c =? 0x3000))%N.

(** [text.isspace()]: every character is whitespace and there is at least
    one character. *)
Definition isspace (text : pystr) : bool :=
  match text with
  | [] => false
  | _ => List.forallb is_whitespace text
  end.

Fixpoint lstrip (s : pystr) : pystr :=
  match s with
  | c :: s' => if is_whitespace c then lstrip s' else s
  | [] => []
  end.

(** [data.strip()] *)
Definition strip (s : pystr) : pystr :=
  List.rev (lstrip (List.rev (lstrip s))).

(* ================================================================== *)
(** ** The criteria tuple *)

(** A Python [dict] from one-character strings to one-character strings,
    in insertion order. *)
Definition dict := list (char * char).

(** A compiled alternation of escaped one-character literals,
    [(k1|k2|...)]. *)
Definition alt_regex := list char.

(** The ten-place criteria tuple; the fields carry the names of the index
    constants the source reads it with. *)
Record Criteria := mkCriteria {
  INPUT_SOURCE : Z;           (* 0=whole book, 1=current file, 2=selected text *)
  CONVERSION_TYPE : Z;        (* 0=No change, 1=trad->simp, 2=simp->trad, 3=trad->trad *)
  INPUT_LOCALE : Z;           (* 0=Mainland, 1=Hong Kong, 2=Taiwan 3=Japan *)
  OUTPUT_LOCALE : Z;          (* 0=Mainland, 1=Hong Kong, 2=Taiwan 3=Japan *)
  USE_TARGET_PHRASES : bool;
  QUOTATION_TYPE : Z;         (* 0=No change, 1=Western, 2=East Asian *)
  OUTPUT_ORIENTATION : Z;     (* 0=No change, 1=Horizontal, 2=Vertical *)
  UPDATE_PUNCTUATION : bool;
  PUNC_DICT : dict;
  PUNC_REGEX : option alt_regex
}.

Definition seltext_start_tag : pystr := lit "PI_SELTEXT_START".
Definition seltext_end_tag : pystr := lit "PI_SELTEXT_END".

(* ================================================================== *)
(** ** The conversion resolver *)

Module Resolver.

Definition get_language_code (criteria : Criteria) : pystr :=
  let conversion_mode := CONVERSION_TYPE criteria in
  let input_type := INPUT_LOCALE criteria in
  let output_type := OUTPUT_LOCALE criteria in
  if conversion_mode =? 1 then
    if output_type =? 0 then lit "zh-CN" else lit "None"
  else if conversion_mode =? 2 then
    if output_type =? 0 then lit "zh-CN"
    else if output_type =? 1 then lit "zh-HK"
    else lit "zh-TW"
  else if conversion_mode =? 3 then
    if input_type =? 0 then
      if output_type =? 1 then lit "zh-HK"
      else if output_type =? 2 then lit "zh-TW"
      else lit "None"
    else if input_type =? 1 then
      if output_type =? 0 then lit "zh-CN" else lit "None"
    else if input_type =? 2 then
      if output_type =? 0 then lit "zh-CN" else lit "None"
    else lit "None"
  else lit "None".

Definition get_configuration (criteria : Criteria) : pystr :=
  let conversion_mode := CONVERSION_TYPE criteria in
  let input_type := INPUT_LOCALE criteria in
  let output_type := OUTPUT_LOCALE criteria in
  let use_target_phrasing := USE_TARGET_PHRASES criteria in
  if conversion_mode =? 0 then lit "no_conversion"
  else if conversion_mode =? 1 then
    if input_type =? 0 then
      if output_type =? 0 then lit "t2s"
      else if output_type =? 3 then lit "t2jp"
      else lit "unsupported_conversion"
    else if input_type =? 1 then
      if negb (output_type =? 0) then lit "unsupported_conversion"
      else lit "hk2s"
    else if input_type =? 2 then
      if negb (output_type =? 0) then lit "unsupported_conversion"
      else
        let configuration := lit "tw2s" in
        if use_target_phrasing then configuration ++ lit "p" else configuration
    else lit "unsupported_conversion"
  else if conversion_mode =? 2 then
    if input_type =? 0 then
      if output_type =? 0 then lit "s2t"
      else if output_type =? 1 then lit "s2hk"
      else if output_type =? 2 then
        let configuration := lit "s2tw" in
        if use_target_phrasing then configuration ++ lit "p" else configuration
      else lit "unsupported_conversion"
    else if input_type =? 3 then
      if output_type =? 0 then lit "jp2t" else lit "unsupported_conversion"
    else lit "unsupported_conversion"
  else
    if input_type =? 0 then
      if output_type =? 0 then lit "no_conversion"
      else if output_type =? 1 then lit "t2hk"
      else if output_type =? 2 then lit "t2tw"
      else lit "unsupported_conversion"
    else if input_type =? 1 then
      if output_type =? 0 then lit "hk2t"
      else if output_type =? 1 then lit "no_conversion"
      else lit "unsupported_conversion"
    else if input_type =? 2 then
      if output_type =? 0 then lit "tw2t"
      else if output_type =? 2 then lit "no_conversion"
      else lit "unsupported_conversion"
    else lit "unsupported_conversion".

(** The language attribute [_ok_clicked] hands to the parser with
    [setLanguageAttribute]: [lang="<code>"], or [None] when the resolver
    answers ['None']. *)
Definition language_attribute (criteria : Criteria) : option pystr :=
  let language := get_language_code criteria in
  if negb (str_eqb language (lit "None"))
  then Some (lit "lang=" ++ [dquote] ++ language ++ [dquote])
  else None.

End Resolver.

(* ================================================================== *)
(** ** Exceptions *)

(** The one exception the modelled code can raise by itself: a failed
    [dict] subscript. *)
Inductive exn : Type :=
| KeyError (key : pystr).

Inductive res (A : Type) : Type :=
| Ok (a : A)
| Raise (e : exn).

Arguments Ok {A} a.
Arguments Raise {A} e.

Definition bind {A B : Type} (c : res A) (k : A -> res B) : res B :=
  match c with
  | Ok a => k a
  | Raise e => Raise e
  end.

Notation "x <- c ;; k" := (bind c (fun x => k))
  (at level 61, c at next level, right associativity).

(* ================================================================== *)
(** ** Tables and their matchers *)

Module Tables.

Fixpoint dict_get (d : dict) (k : char) : option char :=
  match d with
  | [] => None
  | (k', v) :: d' => if N.eqb k' k then Some v else dict_get d' k
  end.

(** [d[key] = value]: an existing key keeps its place, a new one goes
    last. *)
Fixpoint dict_set (d : dict) (k v : char) : dict :=
  match d with
  | [] => [(k, v)]
  | (k', v') :: d' =>
      if N.eqb k' k then (k', v) :: d' else (k', v') :: dict_set d' k v
  end.

(** [d.keys()] *)
Definition keys (d : dict) : list char := List.map fst d.

(** [d[key]] for a key that is a [str]; every key of a table is one
    character long. *)
Definition getitem (d : dict) (key : pystr) : res pystr :=
  match key with
  | [c] =>
      match dict_get d c with
      | Some v => Ok [v]
      | None => Raise (KeyError key)
      end
  | _ => Raise (KeyError key)
  end.

(** [re.compile('|'.join(map(re.escape, d)))] *)
Definition compile_keys (d : dict) : alt_regex := keys d.

Definition matches (re : alt_regex) (c : char) : bool :=
  List.existsb (N.eqb c) re.

(** [regex.sub(repl, text)] for an alternation with at least one
    alternative: every character that is one of the alternatives is a
    match, handed to the callback. *)
Fixpoint sub_chars (re : alt_regex) (repl : pystr -> res pystr)
         (text : pystr) : res pystr :=
  match text with
  | [] => Ok []
  | c :: text' =>
      if matches re c then
        r <- repl [c] ;;
        rest <- sub_chars re repl text' ;;
        Ok (r ++ rest)
      else
        rest <- sub_chars re repl text' ;;
        Ok (c :: rest)
  end.

(** The alternation without alternatives matches the empty string at
    every position, the first one at position 0. *)
Fixpoint sub_empty (repl : pystr -> res pystr) (text : pystr) : res pystr :=
  r <- repl [] ;;
  match text with
  | [] => Ok r
  | c :: text' =>
      rest <- sub_empty repl text' ;;
      Ok (r ++ c :: rest)
  end.

Definition re_sub (re : alt_regex) (repl : pystr -> res pystr)
           (text : pystr) : res pystr :=
  match re with
  | [] => sub_empty repl text
  | _ :: _ => sub_chars re repl text
  end.

Definition trad_to_simp_quotes : dict :=
  [(0x300C, 0x201C); (0x300D, 0x201D); (0x300E, 0x2018); (0x300F, 0x2019)]%N.
Definition trad_to_simp_re : alt_regex := compile_keys trad_to_simp_quotes.

Definition simp_to_trad_quotes : dict :=
  [(0x201C, 0x300C); (0x201D, 0x300D); (0x2018, 0x300E); (0x2019, 0x300F)]%N.
Definition simp_to_trad_re : alt_regex := compile_keys simp_to_trad_quotes.

(** Horizontal full width characters to their vertical presentation
    forms. *)
Definition _h2v_master_dict : dict :=
  [(0x3002, 0xFE12); (0x3001, 0xFE11); (0xFF1B, 0xFE14); (0xFF1A, 0xFE13);
   (0xFF01, 0xFE15); (0xFF1F, 0xFE16); (0x300C, 0xFE41); (0x300D, 0xFE42);
   (0x3008, 0xFE3F); (0x3009, 0xFE40); (0x300E, 0xFE43); (0x300F, 0xFE44);
   (0x300A, 0xFE3D); (0x300B, 0xFE3E); (0x3010, 0xFE3B); (0xFF08, 0xFE35);
   (0x3011, 0xFE3C); (0xFF09, 0xFE36); (0x3016, 0xFE17); (0x3017, 0xFE18);
   (0x3014, 0xFE39); (0xFF5B, 0xFE37); (0x3015, 0xFE3A); (0xFF5D, 0xFE38);
   (0xFF3B, 0xFE47); (0xFF3D, 0xFE48); (0x2026, 0xFE19); (0x2025, 0xFE30);
   (0x2014, 0xFE31); (0xFF3F, 0xFE33); (0xFE4F, 0xFE34); (0xFF0C, 0xFE10)]%N.

(** The marks left out by default. *)
Definition PUNC_OMITS : pystr :=
  [0x3002; 0x3001; 0xFF1B; 0xFF1A; 0xFF01; 0xFF1F; 0x2026; 0x2025; 0xFF3F;
   0xFE4F; 0xFF0C]%N.

End Tables.

(* ================================================================== *)
(** ** Building the criteria from the preferences *)

Module Gui.
Import Tables.

(** The saved preferences [getCriteria] reads. *)
Record Prefs := mkPrefs {
  input_source : Z;
  conversion_type : Z;
  input_locale : Z;
  output_locale : Z;
  use_target_phrases : bool;
  quotation_type : Z;
  output_orientation : Z;
  update_punctuation : bool;
  punc_omits : pystr
}.

(** [key in omit_set], with [omit_set = set(punc_omits)]. *)
Definition in_set (omit_set : list char) (key : char) : bool :=
  List.existsb (N.eqb key) omit_set.

(** The body of the loop that copies the master table without the
    omitted keys: [if not key in omit_set: h2v[key] = master[key]]. *)
Definition h2v_step (omit_set : list char) (h2v : dict) (key : char) : dict :=
  if negb (in_set omit_set key) then
    match dict_get _h2v_master_dict key with
    | Some v => dict_set h2v key v
    | None => h2v
    end
  else h2v.

(** The loop itself, over [_h2v_master_dict.keys()]. *)
Definition build_h2v (omit_set : list char) : dict :=
  List.fold_left (h2v_step omit_set) (keys _h2v_master_dict) [].

(** What [PuncuationDialog._ok_clicked] and [savePrefs] store in
    [prefs['punc_omits']]: the unchecked marks of the master table, each
    one once (they are gathered in a [set] of the check box keys). *)
Fixpoint distinct (s : pystr) : bool :=
  match s with
  | [] => true
  | c :: s' => negb (List.existsb (N.eqb c) s') && distinct s'
  end.

Definition saved_by_dialog (omits : pystr) : bool :=
  distinct omits
  && List.forallb (fun c => List.existsb (N.eqb c) (keys _h2v_master_dict))
                  omits.

(** [{v: k for k, v in h2v.items()}] *)
Definition invert (h2v : dict) : dict :=
  List.fold_left (fun v2h kv => dict_set v2h (snd kv) (fst kv)) h2v [].

(** [re.compile("(%s)" % "|".join(map(re.escape, d.keys())))] *)
Definition compile_group (d : dict) : alt_regex := keys d.

Definition getCriteria (prefs : Prefs) : Criteria :=
  let punc_dict : dict := [] in
  let punc_regex : option alt_regex := None in
  let '(punc_dict, punc_regex) :=
    if update_punctuation prefs
       && negb (Z.of_nat (List.length (punc_omits prefs))
                =? Z.of_nat (List.length (keys _h2v_master_dict)))
    then
      let omit_set := punc_omits prefs in
      let h2v := build_h2v omit_set in
      let h2v_dict_regex := compile_group h2v in
      let v2h := invert h2v in
      let v2h_dict_regex := compile_group v2h in
      if output_orientation prefs =? 1 then (v2h, Some v2h_dict_regex)
      else if output_orientation prefs =? 2 then (h2v, Some h2v_dict_regex)
      else (punc_dict, punc_regex)
    else (punc_dict, punc_regex) in
  mkCriteria (input_source prefs) (conversion_type prefs) (input_locale prefs)
             (output_locale prefs) (use_target_phrases prefs)
             (quotation_type prefs) (output_orientation prefs)
             (update_punctuation prefs) punc_dict punc_regex.

End Gui.

(* ================================================================== *)
(** ** Collaborators *)

(** The script conversion engine, used through [textConverter.convert]
    only; it is a pure function of the text it is given. *)
Class TextConverter : Type := { convert : pystr -> pystr }.

(** The character database of the Python runtime: [isalnum c] tells
    whether the regular expression class [\w] takes [c] as an
    alphanumeric. *)
Class UnicodeData : Type := { isalnum : char -> bool }.

(* ================================================================== *)
(** ** The matcher of Chinese language attributes *)

Module ZhRe.
Section WithUnicode.
Context {UD : UnicodeData}.

(** Lower case of the ASCII letters, which are the only code points that
    match the letters of the pattern when case is ignored. *)
Definition lower (c : char) : char :=
  if ((0x41 <=? c) && (c <=? 0x5A))%N then (c + 32)%N else c.

(** [\w] *)
Definition word (c : char) : bool := isalnum c || N.eqb c 0x5F.

(** Match the literal [pat] (given in lower case) at the start of [s],
    ignoring case; the result is the rest of [s]. *)
Fixpoint match_literal (pat s : pystr) : option pystr :=
  match pat, s with
  | [], _ => Some s
  | p :: pat', c :: s' =>
      if N.eqb (lower c) p then match_literal pat' s' else None
  | _ :: _, [] => None
  end.

(** Match [\w+] followed by a double quote at the start of [s]; the
    result is the number of characters matched, the quote included.  The
    longest run of word characters is tried first. *)
Fixpoint match_word_quote (s : pystr) : option nat :=
  match s with
  | [] => None
  | c :: s' =>
      if word c then
        match match_word_quote s' with
        | Some n => Some (S n)
        | None =>
            match s' with
            | q :: _ => if N.eqb q dquote then Some 2%nat else None
            | [] => None
            end
        end
      else None
  end.

(** The pattern of [zh_re], compiled with [re.IGNORECASE]: the first
    alternative is the attribute with a subtag, the second the bare one.
    The result is the length of the match at the start of [s]. *)
Definition match_zh (s : pystr) : option nat :=
  match match_literal (lit "lang=" ++ [dquote] ++ lit "zh") s with
  | None => None
  | Some rest =>
      let subtag :=
        match rest with
        | d :: rest' =>
            if N.eqb d 0x2D then
              match match_word_quote rest' with
              | Some n => Some (8 + 1 + n)%nat
              | None => None
              end
            else None
        | [] => None
        end in
      match subtag with
      | Some n => Some n
      | None =>
          match rest with
          | q :: _ => if N.eqb q dquote then Some 9%nat else None
          | [] => None
          end
      end
  end.

(** [zh_re.sub(repl, s)], with [skip] characters of a match still to be
    dropped.  Matches are taken from the left and do not overlap; the
    replacement is inserted as it is (the attribute strings the plug-in
    sets hold no backslash, so the template has no escapes to expand). *)
Fixpoint sub_from (repl : pystr) (skip : nat) (s : pystr) : pystr :=
  match s with
  | [] => []
  | c :: s' =>
      match skip with
      | S k => sub_from repl k s'
      | O =>
          match match_zh s with
          | Some (S k) => repl ++ sub_from repl k s'
          | _ => c :: sub_from repl 0 s'
          end
      end
  end.

Definition sub (repl : pystr) (s : pystr) : pystr := sub_from repl 0 s.

End WithUnicode.
End ZhRe.

(* ================================================================== *)
(** ** The document *)

(** The parser of the Python library turns the text fed to it into calls
    of the handlers.  An event is one of these calls: it carries what the
    handler receives and, for tags, the literal text of the tag in the
    source (for an open tag the handler reads it with
    [get_starttag_text]; for an end tag it is kept for the record, no
    handler sees it). *)
Inductive event : Type :=
| StartTag (tag : pystr) (attrs : list (pystr * option pystr))
           (starttag_text : pystr)
| StartEndTag (tag : pystr) (attrs : list (pystr * option pystr))
              (starttag_text : pystr)
| EndTag (tag : pystr) (endtag_text : pystr)
| Data (text : pystr)
| Comment (data : pystr)
| Pi (data : pystr)
| EntityRef (name : pystr)
| CharRef (name : pystr)
| Decl (data : pystr)
| UnknownDecl (data : pystr).

(** The usual spelling of the construct an event is read from: a comment,
    a processing instruction, a reference, a declaration and a marked
    section with their usual delimiters.  The parser reads the same event
    from other spellings too (a reference without its semicolon, a
    comment closed by [-- >], a bogus comment [<!x>]), so an event alone
    does not fix the text it was read from; [Source.construct] pairs an
    event with its text. *)
Definition literal (ev : event) : pystr :=
  match ev with
  | StartTag _ _ starttag_text => starttag_text
  | StartEndTag _ _ starttag_text => starttag_text
  | EndTag _ endtag_text => endtag_text
  | Data text => text
  | Comment data => lit "<!--" ++ data ++ lit "-->"
  | Pi data => lit "<?" ++ data ++ lit ">"
  | EntityRef name => lit "&" ++ name ++ lit ";"
  | CharRef name => lit "&#" ++ name ++ lit ";"
  | Decl data => lit "<!" ++ data ++ lit ">"
  | UnknownDecl data => lit "<![" ++ data ++ lit "]]>"
  end.

(** The text of a document whose constructs are all in the usual
    spelling. *)
Definition source_text (doc : list event) : pystr :=
  join (List.map literal doc).

(* ================================================================== *)
(** ** The streaming transformer *)

Module HTML_TextProcessor.
Import Tables.

(** The fields of the parser object the handlers read and write.
    [criteria] is the tuple stored by [processText]; no handler runs
    before it is stored. *)
Record t : Type := mk {
  result : list pystr;
  criteria : Criteria;
  converting : bool;
  language : option pystr;
  force_stylesheet : bool
}.

(** [self.result.append(text)] *)
Definition append (self : t) (text : pystr) : t :=
  mk (result self ++ [text]) (criteria self) (converting self)
     (language self) (force_stylesheet self).

Definition set_converting (self : t) (b : bool) : t :=
  mk (result self) (criteria self) b (language self) (force_stylesheet self).

Definition setLanguageAttribute (self : t) (language : option pystr) : t :=
  mk (result self) (criteria self) (converting self) language
     (force_stylesheet self).

(** What an f-string makes of [self.language]. *)
Definition format_language (language : option pystr) : pystr :=
  match language with
  | Some l => l
  | None => lit "None"
  end.

Definition replace_quotations (self : t) (data : pystr) : res pystr :=
  if QUOTATION_TYPE (criteria self) =? 1 then
    re_sub trad_to_simp_re (getitem trad_to_simp_quotes) data
  else if QUOTATION_TYPE (criteria self) =? 2 then
    re_sub simp_to_trad_re (getitem simp_to_trad_quotes) data
  else
    Ok data.

Definition multiple_replace (replace_regex : alt_regex) (replace_dict : dict)
           (text : pystr) : res pystr :=
  re_sub replace_regex (getitem replace_dict) text.

Section Handlers.
Context {TC : TextConverter} {UD : UnicodeData}.

Definition handle_starttag (self : t) (tag : pystr)
           (attrs : list (pystr * option pystr)) (starttag_text : pystr) : t :=
  let text :=
    if converting self && negb (CONVERSION_TYPE (criteria self) =? 0) then
      match language self with
      | Some l => ZhRe.sub l starttag_text
      | None => starttag_text
      end
    else starttag_text in
  let text :=
    if str_eqb tag (lit "html") then
      let attrs_list := List.map fst attrs in
      if negb (List.existsb (str_eqb (lit "xml:lang")) attrs_list) then
        drop_last text ++ lit " xml:" ++ format_language (language self)
                  ++ lit ">"
      else text
    else text in
  append self text.

Definition handle_endtag (self : t) (tag : pystr) : t :=
  let self :=
    if str_eqb tag (lit "head") && force_stylesheet self then
      append self
        (lit "<link rel=" ++ [dquote] ++ lit "stylesheet" ++ [dquote]
         ++ lit " type=" ++ [dquote] ++ lit "text/css" ++ [dquote]
         ++ lit " href=" ++ [dquote] ++ lit "./Styles/stylesheet.css"
         ++ [dquote] ++ lit "/>")
    else self in
  append self (lit "</" ++ tag ++ lit ">").

Definition handle_startendtag (self : t) (tag : pystr)
           (attrs : list (pystr * option pystr)) (starttag_text : pystr) : t :=
  if (INPUT_SOURCE (criteria self) =? 0)
     && negb (CONVERSION_TYPE (criteria self) =? 0) then
    match language self with
    | Some l => append self (ZhRe.sub l starttag_text)
    | None => append self starttag_text
    end
  else append self starttag_text.

Definition handle_data (self : t) (text : pystr) : res t :=
  if isspace text then Ok (append self text)
  else
    text <-
      (if converting self then
         text <-
           (if (OUTPUT_ORIENTATION (criteria self) =? 0)
               || (OUTPUT_ORIENTATION (criteria self) =? 2) then
              if negb (QUOTATION_TYPE (criteria self) =? 0)
              then replace_quotations self text
              else Ok text
            else Ok text) ;;
         text <-
           match PUNC_REGEX (criteria self) with
           | Some punc_regex =>
               multiple_replace punc_regex (PUNC_DICT (criteria self)) text
           | None => Ok text
           end ;;
         if OUTPUT_ORIENTATION (criteria self) =? 1 then
           if negb (QUOTATION_TYPE (criteria self) =? 0)
           then replace_quotations self text
           else Ok text
         else Ok text
       else Ok text) ;;
    if negb (CONVERSION_TYPE (criteria self) =? 0) && converting self then
      Ok (append self (convert text))
    else
      Ok (append self text).

Definition handle_comment (self : t) (data : pystr) : t :=
  let self :=
    if (INPUT_SOURCE (criteria self) =? 2)
       && str_eqb (strip data) seltext_start_tag then
      set_converting self true
    else if (INPUT_SOURCE (criteria self) =? 2)
            && str_eqb (strip data) seltext_end_tag then
      set_converting self false
    else self in
  append self (lit "<!--" ++ data ++ lit "-->").

Definition handle_pi (self : t) (data : pystr) : t :=
  append self (lit "<?" ++ data ++ lit ">").

Definition handle_entityref (self : t) (name : pystr) : t :=
  append self (lit "&" ++ name ++ lit ";").

Definition handle_charref (self : t) (name : pystr) : t :=
  append self (lit "&#" ++ name ++ lit ";").

Definition handle_decl (self : t) (data : pystr) : t :=
  append self (lit "<!" ++ data ++ lit ">").

Definition unknown_decl (self : t) (data : pystr) : t :=
  append self (lit "<!" ++ data ++ lit ">").

(** The call the parser makes for one event. *)
Definition dispatch (self : t) (ev : event) : res t :=
  match ev with
  | StartTag tag attrs text => Ok (handle_starttag self tag attrs text)
  | StartEndTag tag attrs text => Ok (handle_startendtag self tag attrs text)
  | EndTag tag _ => Ok (handle_endtag self tag)
  | Data text => handle_data self text
  | Comment data => Ok (handle_comment self data)
  | Pi data => Ok (handle_pi self data)
  | EntityRef name => Ok (handle_entityref self name)
  | CharRef name => Ok (handle_charref self name)
  | Decl data => Ok (handle_decl self data)
  | UnknownDecl data => Ok (unknown_decl self data)
  end.

(** [self.feed(data)] followed by [self.close()]: the handlers are called
    in document order; an exception ends the walk. *)
Fixpoint feed (self : t) (data : list event) : res t :=
  match data with
  | [] => Ok self
  | ev :: data' => self <- dispatch self ev ;; feed self data'
  end.

(** The state [processText] has set up when it starts feeding. *)
Definition start (self : t) (criteria : Criteria) : t :=
  mk [] criteria (negb (INPUT_SOURCE criteria =? 2)) (language self)
     (force_stylesheet self).

Definition processText (self : t) (data : list event) (criteria : Criteria)
  : res pystr :=
  self <- feed (start self criteria) data ;;
  Ok (join (result self)).

(** *** The rewrites of a text run, named as the design names them *)

(** Quote remapping, when the quotation policy asks for one. *)
Definition quote_step (self : t) (text : pystr) : res pystr :=
  if negb (QUOTATION_TYPE (criteria self) =? 0)
  then replace_quotations self text
  else Ok text.

(** The punctuation matcher and table, when present. *)
Definition punctuation_step (self : t) (text : pystr) : res pystr :=
  match PUNC_REGEX (criteria self) with
  | Some punc_regex =>
      multiple_replace punc_regex (PUNC_DICT (criteria self)) text
  | None => Ok text
  end.

(** Script conversion, when the conversion mode asks for one. *)
Definition script_step (self : t) (text : pystr) : pystr :=
  if negb (CONVERSION_TYPE (criteria self) =? 0) then convert text else text.

(** The rewrite of a text run that is in scope: quotes and punctuation in
    the order the orientation policy fixes, script conversion last. *)
Definition rewrite_run (self : t) (text : pystr) : res pystr :=
  let orientation := OUTPUT_ORIENTATION (criteria self) in
  text <-
    (if orientation =? 1 then
       text <- punctuation_step self text ;; quote_step self text
     else if (orientation =? 0) || (orientation =? 2) then
       text <- quote_step self text ;; punctuation_step self text
     else punctuation_step self text) ;;
  Ok (script_step self text).

(** The sentinel comments of a selected text region. *)
Definition is_start_sentinel (ev : event) : bool :=
  match ev with
  | Comment data => str_eqb (strip data) seltext_start_tag
  | _ => false
  end.

Definition is_end_sentinel (ev : event) : bool :=
  match ev with
  | Comment data => str_eqb (strip data) seltext_end_tag
  | _ => false
  end.

(** The attribute list names [xml:lang]. *)
Definition has_xml_lang (attrs : list (pystr * option pystr)) : bool :=
  List.existsb (str_eqb (lit "xml:lang")) (List.map fst attrs).

(** The events whose handler writes the usual spelling back when no
    rewrite applies: an end tag written [</tag>] as the parser names it,
    and anything but a marked section and a root tag without
    [xml:lang]. *)
Definition plain (ev : event) : bool :=
  match ev with
  | StartTag tag attrs _ => negb (str_eqb tag (lit "html")) || has_xml_lang attrs
  | EndTag tag endtag_text => str_eqb endtag_text (lit "</" ++ tag ++ lit ">")
  | UnknownDecl _ => false
  | _ => true
  end.

(** The punctuation matcher, when present, has an alternative, and each
    of its alternatives is a key of the punctuation table. *)
Definition matcher_fits (criteria : Criteria) : bool :=
  match PUNC_REGEX criteria with
  | None => true
  | Some punc_regex =>
      match punc_regex with [] => false | _ :: _ => true end
      && List.forallb
           (fun c => match dict_get (PUNC_DICT criteria) c with
                     | Some _ => true
                     | None => false
                     end)
           punc_regex
  end.

End Handlers.

(** What no handler writes: the criteria, the language attribute and the
    stylesheet flag. *)
Definition same_setup (self self' : t) : Prop :=
  criteria self' = criteria self
  /\ language self' = language self
  /\ force_stylesheet self' = force_stylesheet self.

(** The parser object as [__init__] leaves it, with a criteria tuple in
    the slot [processText] fills. *)
Definition new (criteria : Criteria) : t := mk [] criteria true None false.

End HTML_TextProcessor.

(* ================================================================== *)
(** ** The text of a document *)

Module Source.
Import HTML_TextProcessor.

(** A construct of a document: the text it is written as, and the call
    the parser makes when it reads that text.  A document is the list of
    its constructs in order; its text is the string [processText] is
    given, and its events are the calls the handlers get while the parser
    reads that string. *)
Record construct : Type := mkConstruct {
  raw : pystr;
  parsed : event
}.

Definition text_of (doc : list construct) : pystr :=
  join (List.map raw doc).

Definition events (doc : list construct) : list event := List.map parsed doc.


(** The constructs of each kind in their usual spelling. *)
Definition comment (data : pystr) : construct :=
  mkConstruct (lit "<!--" ++ data ++ lit "-->") (Comment data).

Definition entityref (name : pystr) : construct :=
  mkConstruct (lit "&" ++ name ++ lit ";") (EntityRef name).

Definition charref (name : pystr) : construct :=
  mkConstruct (lit "&#" ++ name ++ lit ";") (CharRef name).

Definition pi (data : pystr) : construct :=
  mkConstruct (lit "<?" ++ data ++ lit ">") (Pi data).

(** [<!DOCTYPE ...>]; [data] starts with the keyword. *)
Definition doctype (data : pystr) : construct :=
  mkConstruct (lit "<!" ++ data ++ lit ">") (Decl data).

(** [<![CDATA[...]]>] and the other marked sections; [data] starts with
    the keyword and runs up to the closing brackets. *)
Definition marked_section (data : pystr) : construct :=
  mkConstruct (lit "<![" ++ data ++ lit "]]>") (UnknownDecl data).

Definition starttag (tag : pystr) (attrs : list (pystr * option pystr))
           (starttag_text : pystr) : construct :=
  mkConstruct starttag_text (StartTag tag attrs starttag_text).

Definition endtag (tag : pystr) : construct :=
  mkConstruct (lit "</" ++ tag ++ lit ">")
              (EndTag tag (lit "</" ++ tag ++ lit ">")).

Definition text_run (text : pystr) : construct :=
  mkConstruct text (Data text).

(** Other spellings the parser reads the same events from: a reference
    that a character other than a semicolon ends, a comment with space
    before its closing bracket, a declaration that is no [DOCTYPE] (read
    as a comment), an end tag in upper case or with space after the
    name. *)
Definition open_entityref (name : pystr) : construct :=
  mkConstruct (lit "&" ++ name) (EntityRef name).

Definition open_charref (name : pystr) : construct :=
  mkConstruct (lit "&#" ++ name) (CharRef name).

Definition spaced_comment (data : pystr) : construct :=
  mkConstruct (lit "<!--" ++ data ++ lit "-- >") (Comment data).

Definition bogus_comment (data : pystr) : construct :=
  mkConstruct (lit "<!" ++ data ++ lit ">") (Comment data).

Definition spaced_endtag (tag : pystr) : construct :=
  mkConstruct (lit "</" ++ tag ++ lit " >")
              (EndTag tag (lit "</" ++ tag ++ lit " >")).

(** The handler of the event is given all it needs to write the text
    back: an end tag is spelled [</tag>] with the name the parser hands
    over, and the event is no marked section. *)
Definition faithful (ev : event) : bool :=
  match ev with
  | EndTag tag endtag_text => str_eqb endtag_text (lit "</" ++ tag ++ lit ">")
  | UnknownDecl _ => false
  | _ => true
  end.

(** An [html] open tag without an [xml:lang] attribute. *)
Definition bare_root (ev : event) : bool :=
  match ev with
  | StartTag tag attrs _ => str_eqb tag (lit "html") && negb (has_xml_lang attrs)
  | _ => false
  end.



End Source.

(* ================================================================== *)
(** ** Stand-ins for the collaborators *)

Module Stub.

(** A converter that makes its calls visible: it wraps the text it is
    given in braces. *)
Definition bracing_converter : TextConverter :=
  {| convert := fun text => lit "{" ++ text ++ lit "}" |}.

(** The alphanumerics of ASCII. *)
Definition ascii_data : UnicodeData :=
  {| isalnum := fun c =>
       ((0x30 <=? c) && (c <=? 0x39) || (0x41 <=? c) && (c <=? 0x5A)
        || (0x61 <=? c) && (c <=? 0x7A))%N |}.

End Stub.

(* ================================================================== *)
(** ** Sample inputs *)

Module Sample.
Import Tables Gui HTML_TextProcessor.

(** A parser in scope, with the criteria the default preferences give for
    vertical text with East Asian quotes. *)
Definition vertical_parser : t :=
  new (getCriteria (mkPrefs 0 1 0 0 true 2 2 true PUNC_OMITS)).

(** The same for horizontal text with Western quotes. *)
Definition horizontal_parser : t :=
  new (getCriteria (mkPrefs 0 1 0 0 true 1 1 true PUNC_OMITS)).

(** An attribute [name="value"]. *)
Definition attribute (name value : string) : pystr :=
  lit name ++ lit "=" ++ [dquote] ++ lit value ++ [dquote].

(** Criteria for the current file, Taiwan traditional to Mainland
    simplified, and the parser [_ok_clicked] prepares for them. *)
Definition file_criteria : Criteria :=
  mkCriteria 1 1 2 0 true 0 0 false [] None.

Definition file_parser : t :=
  setLanguageAttribute (new file_criteria)
                       (Resolver.language_attribute file_criteria).

(** [<br lang="zh-TW"/>] *)
Definition br_text : pystr :=
  lit "<br " ++ attribute "lang" "zh-TW" ++ lit "/>".

Definition br_document : list event :=
  [StartEndTag (lit "br") [(lit "lang", Some (lit "zh-TW"))] br_text].

(** [<p lang="zh-TW">] *)
Definition p_text : pystr :=
  lit "<p " ++ attribute "lang" "zh-TW" ++ lit ">".

Definition p_document : list event :=
  [StartTag (lit "p") [(lit "lang", Some (lit "zh-TW"))] p_text].

(** The whole book, no script conversion, quotes to Western. *)
Definition quotes_only_criteria : Criteria :=
  mkCriteria 0 0 0 0 true 1 0 false [] None.

(** The whole book, Mainland traditional to Japanese kanji, and the
    parser [_ok_clicked] prepares for it. *)
Definition japan_criteria : Criteria :=
  mkCriteria 0 1 0 3 true 0 0 false [] None.

Definition japan_parser : t :=
  setLanguageAttribute (new japan_criteria)
                       (Resolver.language_attribute japan_criteria).

(** The document [<html>] and what the parser makes of the output of a
    first pass over it, [<html xml:None>]: attribute names come in lower
    case, an attribute without a value has the value [None]. *)
Definition html_first_pass : list event :=
  [StartTag (lit "html") [] (lit "<html>")].

Definition html_second_pass : list event :=
  [StartTag (lit "html") [(lit "xml:none", None)] (lit "<html xml:None>")].

(** The same two passes when a language attribute is set. *)
Definition html_second_pass_zh : list event :=
  [StartTag (lit "html") [(lit "xml:lang", Some (lit "zh-CN"))]
            (lit "<html xml:" ++ attribute "lang" "zh-CN" ++ lit ">")].

(** Criteria for a selected text region, traditional to simplified. *)
Definition region_criteria : Criteria :=
  mkCriteria 2 1 0 0 true 0 0 false [] None.

(** [a<!--PI_SELTEXT_START-->b<!-- PI_SELTEXT_END -->c] *)
Definition region_document : list event :=
  [Data (lit "a"); Comment (lit "PI_SELTEXT_START"); Data (lit "b");
   Comment (lit " PI_SELTEXT_END "); Data (lit "c")].

(** [a<!--PI_SELTEXT_START-->b<p>c], a region that is never closed. *)
Definition open_region_document : list event :=
  [Data (lit "a"); Comment (lit "PI_SELTEXT_START"); Data (lit "b");
   StartTag (lit "p") [] (lit "<p>"); Data (lit "c")].

End Sample.

(* ================================================================== *)
(** ** Fragments of the output *)

Module Fragments.

(** The link element [handle_endtag] writes before the end of the head
    when the stylesheet flag is set. *)
Definition stylesheet_link : pystr :=
  lit "<link rel=" ++ [dquote] ++ lit "stylesheet" ++ [dquote]
  ++ lit " type=" ++ [dquote] ++ lit "text/css" ++ [dquote]
  ++ lit " href=" ++ [dquote] ++ lit "./Styles/stylesheet.css"
  ++ [dquote] ++ lit "/>".

(** The text of an event, with the link before an end tag of the
    head. *)
Definition linked_literal (ev : event) : pystr :=
  match ev with
  | EndTag tag _ =>
      if str_eqb tag (lit "head") then stylesheet_link ++ literal ev
      else literal ev
  | _ => literal ev
  end.

(** The event is a text run. *)
Definition is_data (ev : event) : bool :=
  match ev with
  | Data _ => true
  | _ => false
  end.

End Fragments.

(* ================================================================== *)
(** ** What a table does to one character *)

Module Translation.
Import Tables.

(** The character a match of [re] is replaced with when the table has
    it; any other character stays. *)
Definition translate (re : alt_regex) (d : dict) (c : char) : char :=
  if matches re c then
    match dict_get d c with
    | Some v => v
    | None => c
    end
  else c.

(** The values of a table. *)
Definition values (d : dict) : list char := List.map snd d.

End Translation.

(* ================================================================== *)
(** ** The punctuation tables in closed form *)

Module Closed.
Import Tables Gui.

(** The pairs of the master table whose mark is not omitted. *)
Definition kept (omit_set : list char) : dict :=
  List.filter (fun kv => negb (in_set omit_set (fst kv))) _h2v_master_dict.

(** A table read from right to left. *)
Definition mirror (d : dict) : dict :=
  List.map (fun kv => (snd kv, fst kv)) d.

(** What vertical punctuation does to one character: a mark of the
    master table that is not omitted becomes its vertical form. *)
Definition to_vertical (omit_set : list char) (c : char) : char :=
  if in_set omit_set c then c
  else match dict_get _h2v_master_dict c with
       | Some v => v
       | None => c
       end.

End Closed.

(* ================================================================== *)
(** ** Style sheets and the flow direction *)

Module Css.

(** A style declaration block of the CSS library as the code reads and
    writes it: the value of each property that is set, a name once, in
    order.  Reading a property that is not set gives the empty string;
    setting one that is set replaces its value in place. *)
Definition declaration := list (pystr * pystr).

(** [style[name]] *)
Fixpoint getPropertyValue (style : declaration) (name : pystr) : pystr :=
  match style with
  | [] => []
  | (n, v) :: style' =>
      if str_eqb n name then v else getPropertyValue style' name
  end.

(** [style[name] = value] *)
Fixpoint setProperty (style : declaration) (name value : pystr)
  : declaration :=
  match style with
  | [] => [(name, value)]
  | (n, v) :: style' =>
      if str_eqb n name then (n, value) :: style'
      else (n, v) :: setProperty style' name value
  end.

(** A rule of a sheet: whether its type is [STYLE_RULE], the texts of
    its selectors, and its declaration block. *)
Record rule : Type := mkRule {
  style_rule : bool;
  selectorList : list pystr;
  style : declaration
}.

Definition sheet := list rule.

Definition with_style (r : rule) (s : declaration) : rule :=
  mkRule (style_rule r) (selectorList r) s.

(** One of the five blocks of [add_flow_direction_properties]: the
    property is written when its value differs from the target. *)
Definition update (name value : pystr) (state : rule * bool) : rule * bool :=
  let (rule, rule_changed) := state in
  if negb (str_eqb (getPropertyValue (style rule) name) value) then
    (with_style rule (setProperty (style rule) name value), true)
  else (rule, rule_changed).

Definition add_flow_direction_properties
           (the_rule : rule) (orientation_value break_value : pystr)
  : rule * bool :=
  let state := (the_rule, false) in
  let state := update (lit "writing-mode") orientation_value state in
  let state := update (lit "-epub-writing-mode") orientation_value state in
  let state := update (lit "-webkit-writing-mode") orientation_value state in
  let state := update (lit "line-break") break_value state in
  let state := update (lit "-webkit-line-break") break_value state in
  state.

(** A style sheet of the book: its manifest id, its href and the sheet
    its text parses to.  The manifest holds every id once, so reading
    and writing by id reaches the entry a loop over the manifest is
    at. *)
Record css_file : Type := mkCss {
  ident : pystr;
  href : pystr;
  content : sheet
}.

(** The part of the book container [set_flow_direction] works on. *)
Record book : Type := mkBook {
  spine_ppd : option pystr;
  css : list css_file
}.

(** The variables of [set_flow_direction] the loops write. *)
Record progress : Type := mkFlow {
  changed_files : list pystr;
  fileChanged : bool;
  addedCSSRules : bool
}.

(** The body run for a rule that a selector names: the flag is set, the
    properties are added, and when that changed the rule the file is
    listed and written.  [targets] is [None] when [orientation] and
    [break_rule] were never bound, and reading them raises; [before] and
    [rest] are the rules of the sheet around the rule, [disk] is the text
    of the file. *)
Definition touch (targets : option (pystr * pystr)) (href : pystr)
           (before : list rule) (r : rule) (rest disk : list rule) (f : progress)
  : option (rule * list rule * progress) :=
  match targets with
  | None => None
  | Some (orientation, break_rule) =>
      let f := mkFlow (changed_files f) (fileChanged f) true in
      let (r', changed) :=
        add_flow_direction_properties r orientation break_rule in
      if changed then
        Some (r', before ++ r' :: rest,
              mkFlow (changed_files f ++ [href]) true (addedCSSRules f))
      else Some (r', disk, f)
  end.

(** First search: the selector loop stops at the first [.calibre]. *)
Definition calibre_rule (targets : option (pystr * pystr)) (href : pystr)
           (before : list rule) (r : rule) (rest disk : list rule) (f : progress)
  : option (rule * list rule * progress) :=
  if List.existsb (fun selector => str_eqb selector (lit ".calibre"))
                  (selectorList r)
  then touch targets href before r rest disk f
  else Some (r, disk, f).

(** Second search: the selector loop goes on after a [body]. *)
Fixpoint body_rule (targets : option (pystr * pystr)) (href : pystr)
         (before : list rule) (selectors : list pystr) (r : rule)
         (rest disk : list rule) (f : progress)
  : option (rule * list rule * progress) :=
  match selectors with
  | [] => Some (r, disk, f)
  | selector :: selectors' =>
      if str_eqb selector (lit "body") then
        match touch targets href before r rest disk f with
        | None => None
        | Some (r', disk', f') =>
            body_rule targets href before selectors' r' rest disk' f'
        end
      else body_rule targets href before selectors' r rest disk f
  end.

(** The loop over the rules of one sheet; rules of another type are
    passed over. *)
Fixpoint visit_rules
         (visit : list rule -> rule -> list rule -> list rule -> progress ->
                  option (rule * list rule * progress))
         (before rest disk : list rule) (f : progress)
  : option (list rule * progress) :=
  match rest with
  | [] => Some (disk, f)
  | r :: rest' =>
      if style_rule r then
        match visit before r rest' disk f with
        | None => None
        | Some (r', disk', f') =>
            visit_rules visit (before ++ [r']) rest' disk' f'
        end
      else visit_rules visit (before ++ [r]) rest' disk f
  end.

(** The loop over the style sheets of the book. *)
Fixpoint visit_files
         (visit : pystr -> list rule -> rule -> list rule -> list rule ->
                  progress -> option (rule * list rule * progress))
         (files : list css_file) (f : progress)
  : option (list css_file * progress) :=
  match files with
  | [] => Some ([], f)
  | file :: files' =>
      match visit_rules (visit (href file)) [] (content file) (content file) f
      with
      | None => None
      | Some (disk, f') =>
          match visit_files visit files' f' with
          | None => None
          | Some (files'', f'') =>
              Some (mkCss (ident file) (href file) disk :: files'', f'')
          end
      end
  end.

(** The rule the third loop creates. *)
Definition new_body_rule (orientation break_rule : pystr) : rule :=
  let styleEntry := setProperty [] (lit "writing-mode") orientation in
  let style := setProperty styleEntry (lit "-epub-writing-mode") orientation in
  let style := setProperty style (lit "-webkit-writing-mode") orientation in
  let style := setProperty style (lit "line-break") break_rule in
  let style := setProperty style (lit "-webkit-line-break") break_rule in
  mkRule true [lit "body"] style.

(** Third loop: a new [body] rule at the end of every sheet. *)
Fixpoint create_rules (targets : option (pystr * pystr))
         (files : list css_file) (f : progress)
  : option (list css_file * progress) :=
  match files with
  | [] => Some ([], f)
  | file :: files' =>
      match targets with
      | None => None
      | Some (orientation, break_rule) =>
          let sheet := content file ++ [new_body_rule orientation break_rule] in
          let f := mkFlow (changed_files f ++ [href file]) true
                          (addedCSSRules f) in
          match create_rules targets files' f with
          | None => None
          | Some (files'', f') =>
              Some (mkCss (ident file) (href file) sheet :: files'', f')
          end
      end
  end.

(** [set_flow_direction(bk, criteria, changed_files, converter)]: the
    book and the list of changed files afterwards, and the value
    returned; [None] stands for the [UnboundLocalError] of an orientation
    that is neither 1 nor 2 once a rule is to be written. *)
Definition set_flow_direction (bk : book) (criteria : Criteria)
           (changed : list pystr) : option (book * list pystr * bool) :=
  let flow :=
    if OUTPUT_ORIENTATION criteria =? 2 then lit "rtl"
    else if OUTPUT_ORIENTATION criteria =? 1 then lit "ltr"
    else lit "default" in
  let old_flow := spine_ppd bk in
  let file_changed :=
    match old_flow with
    | Some old => negb (str_eqb old flow)
    | None => true
    end in
  let targets :=
    if OUTPUT_ORIENTATION criteria =? 2
    then Some (lit "vertical-rl", lit "normal")
    else if OUTPUT_ORIENTATION criteria =? 1
    then Some (lit "horizontal-tb", lit "auto")
    else None in
  let f := mkFlow changed file_changed false in
  match visit_files (calibre_rule targets) (css bk) f with
  | None => None
  | Some (files, f) =>
      match
        (if negb (addedCSSRules f)
         then visit_files
                (fun href before r =>
                   body_rule targets href before (selectorList r) r)
                files f
         else Some (files, f))
      with
      | None => None
      | Some (files, f) =>
          match
            (if negb (addedCSSRules f) then create_rules targets files f
             else Some (files, f))
          with
          | None => None
          | Some (files, f) =>
              Some (mkBook (Some flow) files, changed_files f, fileChanged f)
          end
      end
  end.

End Css.

(* ================================================================== *)
(** ** The flow direction, rule by rule *)

Module CssSpec.
Import Css.

(** The five properties of a rule have the target values. *)
Definition settled (orientation_value break_value : pystr) (r : rule) : bool :=
  str_eqb (getPropertyValue (style r) (lit "writing-mode")) orientation_value
  && str_eqb (getPropertyValue (style r) (lit "-epub-writing-mode"))
             orientation_value
  && str_eqb (getPropertyValue (style r) (lit "-webkit-writing-mode"))
             orientation_value
  && str_eqb (getPropertyValue (style r) (lit "line-break")) break_value
  && str_eqb (getPropertyValue (style r) (lit "-webkit-line-break"))
             break_value.

(** One of the five property names. *)
Definition flow_property (name : pystr) : bool :=
  str_eqb name (lit "writing-mode")
  || str_eqb name (lit "-epub-writing-mode")
  || str_eqb name (lit "-webkit-writing-mode")
  || str_eqb name (lit "line-break")
  || str_eqb name (lit "-webkit-line-break").

(** The rule with one property at its target value. *)
Definition updated (name value : pystr) (r : rule) : rule :=
  if str_eqb (getPropertyValue (style r) name) value then r
  else with_style r (setProperty (style r) name value).

(** A selector of the rule is [selector]. *)
Definition hit (selector : pystr) (r : rule) : bool :=
  List.existsb (fun s => str_eqb s selector) (selectorList r).

(** The second search as [visit_files] takes it. *)
Definition body_visit (targets : option (pystr * pystr)) :=
  fun (href : pystr) (before : list rule) (r : rule) =>
    body_rule targets href before (selectorList r) r.

(** A style rule with a selector [.calibre], or [body]. *)
Definition names (selector : pystr) (r : rule) : bool :=
  style_rule r
  && List.existsb (fun s => str_eqb s selector) (selectorList r).

Definition any_rule (p : rule -> bool) (files : list css_file) : bool :=
  List.existsb (fun file => List.existsb p (content file)) files.

(** The sheets with the flow properties added to the rules [p] picks. *)
Definition settle (p : rule -> bool) (orientation_value break_value : pystr)
           (files : list css_file) : list css_file :=
  List.map
    (fun file =>
       mkCss (ident file) (href file)
             (List.map
                (fun r =>
                   if p r
                   then fst (add_flow_direction_properties
                               r orientation_value break_value)
                   else r)
                (content file)))
    files.

(** The sheets with a new [body] rule at the end of each. *)
Definition extend (orientation_value break_value : pystr)
           (files : list css_file) : list css_file :=
  List.map
    (fun file =>
       mkCss (ident file) (href file)
             (content file ++ [new_body_rule orientation_value break_value]))
    files.

(** The targets [set_flow_direction] binds for an orientation. *)
Definition targets_of (criteria : Criteria) : option (pystr * pystr) :=
  if OUTPUT_ORIENTATION criteria =? 2
  then Some (lit "vertical-rl", lit "normal")
  else if OUTPUT_ORIENTATION criteria =? 1
  then Some (lit "horizontal-tb", lit "auto")
  else None.

(** The page progression direction it sets. *)
Definition flow_of (criteria : Criteria) : pystr :=
  if OUTPUT_ORIENTATION criteria =? 2 then lit "rtl"
  else if OUTPUT_ORIENTATION criteria =? 1 then lit "ltr"
  else lit "default".

End CssSpec.

(* ================================================================== *)
(** ** Sample books *)

Module SampleBook.
Import Css.

(** A sheet with a rule for [p] and a rule for [body, html] that sets a
    writing mode already. *)
Definition plain_sheet : sheet :=
  [mkRule true [lit "p"] [(lit "color", lit "red")];
   mkRule true [lit "body"; lit "html"]
          [(lit "writing-mode", lit "horizontal-tb")]].

(** A sheet with an import and a rule for [.calibre]. *)
Definition calibre_sheet : sheet :=
  [mkRule false [] [];
   mkRule true [lit ".calibre"] [(lit "margin", lit "0")]].

Definition body_book : book :=
  mkBook None [mkCss (lit "s1") (lit "Styles/a.css") plain_sheet].

Definition calibre_book : book :=
  mkBook (Some (lit "ltr"))
         [mkCss (lit "s1") (lit "Styles/a.css") plain_sheet;
          mkCss (lit "s2") (lit "Styles/b.css") calibre_sheet].

Definition bare_book : book :=
  mkBook (Some (lit "rtl"))
         [mkCss (lit "s1") (lit "Styles/a.css")
                [mkRule true [lit "p"] [(lit "color", lit "red")]]].

(** Criteria for vertical text. *)
Definition vertical_book : Criteria :=
  mkCriteria 0 0 0 0 true 0 2 false [] None.

End SampleBook.

(* ================================================================== *)
(** ** The metadata and the table of contents *)

Module Dialog.

(** An element of the metadata tree as the loop of [set_metadata_toc]
    sees it: its qualified tag, its text and its attributes.  The book
    holds the elements in document order, the order [root.iter()] yields
    them in. *)
Record element : Type := mkElement {
  tag : pystr;
  text : option pystr;
  attrib : list (pystr * pystr)
}.

(** The run can end in the [TypeError] of a search in [None], or in an
    exception of the parser. *)
Inductive failure : Type :=
| TypeError
| Walk (e : exn).

Inductive outcome (A : Type) : Type :=
| Done (a : A)
| Failed (e : failure).
Arguments Done {A} a.
Arguments Failed {A} e.

(** [s.split(sep)] for a separator of one character: the first piece and
    the pieces after it. *)
Fixpoint split (sep : char) (s : pystr) : pystr * list pystr :=
  match s with
  | [] => ([], [])
  | c :: s' =>
      let (piece, pieces) := split sep s' in
      if N.eqb c sep then ([], piece :: pieces) else (c :: piece, pieces)
  end.

(** [_, *tag = item.tag.split("}")] and [tag = tag[0] if tag else None] *)
Definition local_name (item_tag : pystr) : option pystr :=
  let (_, tag) := split 125%N item_tag in
  match tag with
  | name :: _ => Some name
  | [] => None
  end.

(** [tag == name] *)
Definition tag_is (tag : option pystr) (name : pystr) : bool :=
  match tag with
  | Some t => str_eqb t name
  | None => false
  end.

(** The list is written with no comma between ['subject'] and
    ['contributor'], which makes them one string. *)
Definition dc_list : list pystr :=
  [lit "title"; lit "description"; lit "publisher";
   lit "subject" ++ lit "contributor"; lit "coverage"; lit "rights"].

(** [tag in dc_list] *)
Definition tag_in (tag : option pystr) (names : list pystr) : bool :=
  match tag with
  | Some t => List.existsb (fun name => str_eqb t name) names
  | None => false
  end.

(** [a != b] for two texts that may be [None] *)
Definition text_differs (a b : option pystr) : bool :=
  match a, b with
  | Some x, Some y => negb (str_eqb x y)
  | None, None => false
  | _, _ => true
  end.

(** A [language] element without text. *)
Definition empty_language (item : element) : bool :=
  tag_is (local_name (tag item)) (lit "language")
  && match text item with
     | None => true
     | Some _ => false
     end.

(** The state of the dialog that [process_files] works on, with the
    files written so far, by id. *)
Record gui : Type := mkGui {
  filesChanged : bool;
  changed_files : list pystr;
  written : list (pystr * pystr)
}.

(** A file of the selection: its media type, id and href, and the
    document that is its text. *)
Record text_file : Type := mkText {
  mime : pystr;
  ident : pystr;
  href : pystr;
  data : list Source.construct
}.

(** What [set_metadata_toc] leaves: the metadata of the book, the text
    written to the table of contents if it was written, the list of
    changed files, the attribute [tocChanged] of the dialog and the value
    returned. *)
Record report : Type := mkReport {
  metadataxml : list element;
  toc_written : option pystr;
  changed : list pystr;
  self_tocChanged : bool;
  returned : bool
}.

Section WithCollaborators.
Context {TC : TextConverter} {UD : UnicodeData}.

(** The two alternatives of the pattern [zh-\w+|zh], compiled with
    [re.IGNORECASE], at the start of a text. *)
Definition match_subtag (s : pystr) : bool :=
  match ZhRe.match_literal (lit "zh-") s with
  | Some (w :: _) => ZhRe.word w
  | _ => false
  end.

Definition match_bare (s : pystr) : bool :=
  match ZhRe.match_literal (lit "zh") s with
  | Some _ => true
  | None => false
  end.

(** [re.search('zh-\w+|zh', s, flags=re.IGNORECASE) != None] *)
Fixpoint search_zh (s : pystr) : bool :=
  match_subtag s || match_bare s
  || match s with
     | [] => false
     | _ :: s' => search_zh s'
     end.

(** The text of an element converted, as the branches for [creator] and
    for the tags of [dc_list] do it. *)
Definition convert_text (item : element) (metadataChanged : bool)
  : element * bool :=
  let old_text := text item in
  match text item with
  | Some t =>
      let item := mkElement (tag item) (Some (convert t)) (attrib item) in
      (item,
       if text_differs (text item) old_text then true else metadataChanged)
  | None => (item, metadataChanged)
  end.

(** [for attrib in item.attrib: item.attrib[attrib] = convert(...)] *)
Definition convert_attrib (item : element) : element :=
  mkElement (tag item) (text item)
            (List.map (fun kv => (fst kv, convert (snd kv))) (attrib item)).

(** The body of the loop over the elements. *)
Definition visit (language : pystr) (item : element) (metadataChanged : bool)
  : outcome (element * bool) :=
  let name := local_name (tag item) in
  let is_chinese :=
    if tag_is name (lit "language") then
      match text item with
      | Some t => Done (search_zh t)
      | None => Failed TypeError
      end
    else Done false in
  match is_chinese with
  | Failed e => Failed e
  | Done true =>
      let old_text := text item in
      let item := mkElement (tag item) (Some language) (attrib item) in
      Done (item,
            if text_differs (text item) old_text then true
            else metadataChanged)
  | Done false =>
      if tag_is name (lit "creator") then
        let (item, metadataChanged) := convert_text item metadataChanged in
        Done (convert_attrib item, metadataChanged)
      else if tag_in name dc_list then
        Done (convert_text item metadataChanged)
      else Done (item, metadataChanged)
  end.

Fixpoint metadata_loop (language : pystr) (items : list element)
         (metadataChanged : bool) : outcome (list element * bool) :=
  match items with
  | [] => Done ([], metadataChanged)
  | item :: items' =>
      match visit language item metadataChanged with
      | Failed e => Failed e
      | Done (item', metadataChanged) =>
          match metadata_loop language items' metadataChanged with
          | Failed e => Failed e
          | Done (items'', metadataChanged) =>
              Done (item' :: items'', metadataChanged)
          end
      end
  end.

(** [set_metadata_toc(self, criteria)] for a dialog whose language is
    [language] and whose parser is [parser], on a book with the metadata
    [items] and the table of contents [toc] at [toc_href]. *)
Definition set_metadata_toc
           (parser : HTML_TextProcessor.t) (language : pystr)
           (criteria : Criteria) (items : list element)
           (toc_href : pystr) (toc : list event) (changed_files : list pystr)
  : outcome report :=
  let tocChanged := false in
  match metadata_loop language items false with
  | Failed e => Failed e
  | Done (items', metadataChanged) =>
      let data := source_text toc in
      match HTML_TextProcessor.processText parser toc criteria with
      | Raise e => Failed (Walk e)
      | Ok htmlstr =>
          let toc_differs := negb (str_eqb htmlstr data) in
          Done
            (mkReport
               (if metadataChanged then items' else items)
               (if toc_differs then Some htmlstr else None)
               (if toc_differs then changed_files ++ [toc_href]
                else changed_files)
               toc_differs
               (tocChanged || metadataChanged))
      end
  end.

(** The loop of [process_files] over the selected files. *)
Fixpoint selected_loop (parser : HTML_TextProcessor.t) (criteria : Criteria)
         (selected : list text_file) (self : gui) : res gui :=
  match selected with
  | [] => Ok self
  | file :: selected' =>
      if negb (str_eqb (mime file) (lit "application/xhtml+xml")) then
        selected_loop parser criteria selected' self
      else
        htmlstr <- HTML_TextProcessor.processText
                     parser (Source.events (data file)) criteria ;;
        let self :=
          if negb (str_eqb htmlstr (Source.text_of (data file))) then
            mkGui true (changed_files self ++ [href file])
                  (written self ++ [(ident file, htmlstr)])
          else self in
        selected_loop parser criteria selected' self
  end.

(** [process_files(self, criteria)]; [whole_book] stands for the branch
    that covers the entire book, with its progress dialog. *)
Definition process_files (parser : HTML_TextProcessor.t) (criteria : Criteria)
           (selected : list text_file) (whole_book : gui -> res gui)
           (self : gui) : res gui :=
  if (INPUT_SOURCE criteria =? 1) || (INPUT_SOURCE criteria =? 2) then
    selected_loop parser criteria selected self
  else if INPUT_SOURCE criteria =? 0 then whole_book self
  else Ok self.

End WithCollaborators.
End Dialog.

(* ================================================================== *)
(** ** Sample metadata and files *)

Module SampleDialog.
Import Dialog.

Definition dc (name : string) : pystr :=
  lit "{http://purl.org/dc/elements/1.1/}" ++ lit name.

(** The metadata of a book: a title, a language, a creator with a
    [file-as] attribute, a subject, a contributor and a [meta] element
    without a name space. *)
Definition opf_items : list element :=
  [mkElement (lit "{http://www.idpf.org/2007/opf}metadata") None [];
   mkElement (dc "title") (Some (lit "T")) [];
   mkElement (dc "language") (Some (lit "zh-TW")) [];
   mkElement (dc "creator") (Some (lit "C"))
             [(lit "{http://www.idpf.org/2007/opf}file-as", lit "F")];
   mkElement (dc "subject") (Some (lit "S")) [];
   mkElement (dc "contributor") (Some (lit "B")) [];
   mkElement (lit "meta") None [(lit "name", lit "cover")]].

(** Metadata in which only the attribute of the creator and a subject
    could be converted. *)
Definition quiet_items : list element :=
  [mkElement (dc "creator") None
             [(lit "{http://www.idpf.org/2007/opf}file-as", lit "F")];
   mkElement (dc "subject") (Some (lit "S")) []].

(** Metadata with an empty language element. *)
Definition empty_language_items : list element :=
  [mkElement (dc "title") (Some (lit "T")) [];
   mkElement (dc "language") None []].

(** A table of contents with one label. *)
Definition ncx : list event :=
  [StartTag (lit "text") [] (lit "<text>"); Data (lit "One");
   EndTag (lit "text") (lit "</text>")].

(** Criteria for the whole book, traditional to simplified, Mainland. *)
Definition book_criteria : Criteria :=
  mkCriteria 0 1 0 0 true 0 0 false [] None.

Definition book_parser : HTML_TextProcessor.t :=
  HTML_TextProcessor.setLanguageAttribute
    (HTML_TextProcessor.new book_criteria)
    (Resolver.language_attribute book_criteria).

(** Two selected files, neither with a sentinel, and an image.  The
    root tag of the first file has an [xml:lang] attribute. *)
Definition selection : list text_file :=
  [mkText (lit "application/xhtml+xml") (lit "a") (lit "Text/a.xhtml")
          [Source.starttag
             (lit "html") [(lit "xml:lang", Some (lit "zh-TW"))]
             (lit "<html xml:" ++ Sample.attribute "lang" "zh-TW" ++ lit ">");
           Source.starttag (lit "p") [] (lit "<p>");
           Source.text_run (lit "One");
           Source.comment (lit " a note "); Source.endtag (lit "p");
           Source.endtag (lit "html")];
   mkText (lit "image/png") (lit "i") (lit "Images/i.png") [];
   mkText (lit "application/xhtml+xml") (lit "b") (lit "Text/b.xhtml")
          [Source.text_run (lit "Two")]].

(** A file whose root tag has no [xml:lang] attribute, and no sentinel. *)
Definition bare_root_file : text_file :=
  mkText (lit "application/xhtml+xml") (lit "c") (lit "Text/c.xhtml")
         [Source.starttag (lit "html") [] (lit "<html>");
          Source.text_run (lit "One"); Source.endtag (lit "html")].

(** A selection with a region marked in the second file. *)
Definition marked_selection : list text_file :=
  [mkText (lit "application/xhtml+xml") (lit "a") (lit "Text/a.xhtml")
          [Source.starttag (lit "p") [] (lit "<p>");
           Source.text_run (lit "One"); Source.endtag (lit "p")];
   mkText (lit "application/xhtml+xml") (lit "b") (lit "Text/b.xhtml")
          [Source.text_run (lit "a");
           Source.comment (lit "PI_SELTEXT_START");
           Source.text_run (lit "b");
           Source.comment (lit " PI_SELTEXT_END ");
           Source.text_run (lit "c")]].

Definition idle : gui := mkGui false [] [].

End SampleDialog.

(* ================================================================== *)
(** ** Sample documents *)

Module SampleSource.
Import Source.

(** Criteria that ask for no rewrite at all. *)
Definition idle_criteria : Criteria :=
  mkCriteria 0 0 0 0 true 0 0 false [] None.

(** A page whose root tag names its language. *)
Definition page : list construct :=
  [doctype (lit "DOCTYPE html");
   starttag (lit "html") [(lit "xml:lang", Some (lit "zh-TW"))]
            (lit "<html xml:" ++ Sample.attribute "lang" "zh-TW" ++ lit ">");
   starttag (lit "p") [] (lit "<p>");
   text_run (lit "One "); entityref (lit "amp"); charref (lit "65");
   comment (lit " a note "); pi (lit "xml x?");
   endtag (lit "p"); endtag (lit "html")].

(** A page whose root tag does not. *)
Definition bare_page : list construct :=
  [starttag (lit "html") [] (lit "<html>");
   starttag (lit "body") [] (lit "<body>"); text_run (lit "One");
   endtag (lit "body"); endtag (lit "html")].

(** [<p><![CDATA[x]]></p>] *)
Definition cdata_page : list construct :=
  [starttag (lit "p") [] (lit "<p>"); marked_section (lit "CDATA[x");
   endtag (lit "p")].

(** [&amp x<!--z-- ><!ELEMENT y></P >]: a reference without semicolon, a
    comment with space before its bracket, a declaration read as a
    comment and an end tag in another spelling. *)
Definition loose_page : list construct :=
  [open_entityref (lit "amp"); text_run (lit " x");
   spaced_comment (lit "z"); bogus_comment (lit "ELEMENT y");
   mkConstruct (lit "</P >") (EndTag (lit "p") (lit "</P >"))].

(** Preferences with an omission string no dialog saves: every mark of
    the master table and one more character. *)
Definition overfull_prefs : Gui.Prefs :=
  Gui.mkPrefs 0 0 0 0 true 0 2 true
              (Tables.keys Tables._h2v_master_dict ++ [0x41%N]).

End SampleSource.

(* ================================================================== *)
(** * Properties *)

(** ** Strings, exceptions and tables *)

Lemma str_eqb_eq (a b : pystr) : str_eqb a b = true <-> a = b.
Proof.
  revert b; induction a as [|x a IH]; intros [|y b]; simpl;
    try (split; [discriminate | congruence]); [tauto|].
  rewrite andb_true_iff, N.eqb_eq, IH.
  split; [intros [-> ->]; reflexivity | intros H; inversion H; auto].
Qed.

Lemma str_eqb_refl (a : pystr) : str_eqb a a = true.
Proof. apply str_eqb_eq; reflexivity. Qed.

Lemma existsb_eqb_In (c : char) (l : list char) :
  List.existsb (N.eqb c) l = true <-> In c l.
Proof.
  rewrite existsb_exists; split.
  - intros (x & Hin & Heq); apply N.eqb_eq in Heq; subst; exact Hin.
  - intros Hin; exists c; split; [exact Hin | apply N.eqb_refl].
Qed.

Module GuiFacts.
Import Tables Gui.

Lemma distinct_NoDup (s : pystr) : distinct s = true -> NoDup s.
Proof.
  induction s as [|c s IH]; simpl; [constructor|].
  rewrite andb_true_iff, negb_true_iff; intros [Hc Hs].
  constructor; [|auto].
  intros Hin; apply existsb_eqb_In in Hin; congruence.
Qed.

Lemma master_keys_NoDup : NoDup (keys _h2v_master_dict).
Proof. apply distinct_NoDup; vm_compute; reflexivity. Qed.

Lemma dict_set_nonempty (d : dict) (k v : char) : dict_set d k v <> [].
Proof. destruct d as [|[k' v'] d]; simpl; [|destruct (N.eqb k' k)]; discriminate. Qed.

Lemma h2v_loop_keeps (omit_set l : list char) (acc : dict) :
  acc <> [] -> fold_left (h2v_step omit_set) l acc <> [].
Proof.
  revert acc; induction l as [|k l IH]; simpl; intros acc Hacc; [exact Hacc|].
  apply IH; unfold h2v_step.
  destruct (negb (in_set omit_set k)); [|exact Hacc].
  destruct (dict_get _h2v_master_dict k); [apply dict_set_nonempty | exact Hacc].
Qed.

Lemma dict_get_keys (d : dict) (k : char) :
  In k (keys d) -> exists v, dict_get d k = Some v.
Proof.
  induction d as [|[k' v'] d IH]; simpl; [tauto|].
  intros [->|Hin].
  - rewrite N.eqb_refl; eauto.
  - destruct (N.eqb k' k); eauto.
Qed.

Lemma h2v_loop_empty (omit_set l : list char) :
  incl l (keys _h2v_master_dict) ->
  fold_left (h2v_step omit_set) l [] = [] ->
  forall k, In k l -> in_set omit_set k = true.
Proof.
  induction l as [|k0 l IH]; simpl; intros Hl Hfold k Hin; [tauto|].
  assert (Hk0 : in_set omit_set k0 = true).
  { destruct (in_set omit_set k0) eqn:E; [reflexivity|exfalso].
    destruct (dict_get_keys _h2v_master_dict k0) as [v Hv];
      [apply Hl; left; reflexivity|].
    revert Hfold; apply h2v_loop_keeps.
    unfold h2v_step; rewrite E, Hv; simpl; discriminate. }
  unfold h2v_step at 2 in Hfold; rewrite Hk0 in Hfold; simpl in Hfold.
  destruct Hin as [<-|Hin]; [exact Hk0|].
  apply IH; auto.
  intros x Hx; apply Hl; right; exact Hx.
Qed.

Lemma h2v_loop_all_omitted (omit_set l : list char) (acc : dict) :
  (forall k, In k l -> in_set omit_set k = true) ->
  fold_left (h2v_step omit_set) l acc = acc.
Proof.
  revert acc; induction l as [|k l IH]; simpl; intros acc H; [reflexivity|].
  unfold h2v_step at 2; rewrite (H k (or_introl eq_refl)); simpl.
  apply IH; intros x Hx; apply H; right; exact Hx.
Qed.

Lemma build_h2v_empty_iff (omit_set : list char) :
  build_h2v omit_set = [] <->
  (forall k, In k (keys _h2v_master_dict) -> In k omit_set).
Proof.
  unfold build_h2v; split.
  - intros H k Hk; apply existsb_eqb_In.
    apply (h2v_loop_empty omit_set _ (incl_refl _) H k Hk).
  - intros H; apply h2v_loop_all_omitted.
    intros k Hk; apply existsb_eqb_In; auto.
Qed.

Lemma invert_loop_keeps (h2v acc : dict) :
  acc <> [] ->
  fold_left (fun v2h kv => dict_set v2h (snd kv) (fst kv)) h2v acc <> [].
Proof.
  revert acc; induction h2v as [|[k v] h2v IH]; simpl; intros acc Hacc;
    [exact Hacc|].
  apply IH, dict_set_nonempty.
Qed.

Lemma invert_empty_iff (h2v : dict) : invert h2v = [] <-> h2v = [].
Proof.
  unfold invert; destruct h2v as [|[k v] h2v]; [simpl; tauto|].
  split; [|discriminate].
  intros H; exfalso; revert H.
  cbn [fold_left]; apply invert_loop_keeps, dict_set_nonempty.
Qed.

(** A string of distinct master marks holds them all exactly when it is
    as long as the master table. *)
Lemma omits_length (omits : pystr) :
  saved_by_dialog omits = true ->
  (List.length omits = List.length (keys _h2v_master_dict) <->
   forall k, In k (keys _h2v_master_dict) -> In k omits).
Proof.
  unfold saved_by_dialog; rewrite andb_true_iff, forallb_forall.
  intros [Hd Hin]; apply distinct_NoDup in Hd.
  assert (Hincl : incl omits (keys _h2v_master_dict)).
  { intros c Hc; apply existsb_eqb_In, Hin, Hc. }
  split.
  - intros Hlen.
    apply (NoDup_length_incl Hd); [rewrite Hlen; apply Nat.le_refl | exact Hincl].
  - intros Hall.
    apply Nat.le_antisymm.
    + apply (NoDup_incl_length Hd Hincl).
    + apply (NoDup_incl_length master_keys_NoDup Hall).
Qed.

Lemma NoDup_distinct (s : pystr) : NoDup s -> distinct s = true.
Proof.
  induction 1 as [|c s Hc _ IH]; simpl; [reflexivity|].
  rewrite IH, andb_true_r; apply negb_true_iff.
  destruct (existsb (N.eqb c) s) eqn:E; [|reflexivity].
  apply existsb_eqb_In in E; contradiction.
Qed.

(** The punctuation dialog gathers the marks whose check box is off in a
    set and joins them in the order the set iterates: whatever that order
    is, the string it saves passes [saved_by_dialog]. *)
Lemma dialog_saves_distinct_marks (unchecked : char -> bool) (omits : pystr) :
  Permutation omits (filter unchecked (keys _h2v_master_dict)) ->
  saved_by_dialog omits = true.
Proof.
  intros Hperm; unfold saved_by_dialog; apply andb_true_iff; split.
  - apply NoDup_distinct.
    apply (Permutation_NoDup (Permutation_sym Hperm)).
    apply NoDup_filter, master_keys_NoDup.
  - apply forallb_forall; intros c Hc; apply existsb_eqb_In.
    apply (Permutation_in _ Hperm) in Hc.
    apply filter_In in Hc; tauto.
Qed.

(** Unless the saved string is as long as the master table, some mark is
    left in the table. *)
Lemma build_h2v_nonempty (omits : pystr) :
  saved_by_dialog omits = true ->
  List.length omits <> List.length (keys _h2v_master_dict) ->
  build_h2v omits <> [].
Proof.
  intros Hwf Hlen He; apply Hlen.
  apply (proj2 (omits_length omits Hwf)).
  apply (proj1 (build_h2v_empty_iff omits) He).
Qed.

(** A matcher compiled from the keys of a table that is not empty fits
    the table. *)
Lemma keys_fit (d : dict) :
  d <> [] ->
  match compile_group d with [] => false | _ :: _ => true end
  && forallb (fun c => match dict_get d c with Some _ => true | None => false end)
             (compile_group d) = true.
Proof.
  intros Hd; apply andb_true_iff; split.
  - destruct d as [|[k v] d]; [congruence | reflexivity].
  - apply forallb_forall; intros c Hc.
    destruct (dict_get_keys d c Hc) as [v ->]; reflexivity.
Qed.

End GuiFacts.

(* ================================================================== *)
(** ** The conversion resolver *)

Module ResolverFacts.
Import Resolver.

(** C4.  [get_configuration] answers ['no_conversion'] for
    (TradToTrad, Mainland, Mainland), ['tw2sp'] for
    (TradToSimp, Taiwan, Mainland) with target phrasing, and
    ['unsupported_conversion'] for (TradToTrad, HongKong, Taiwan) and for
    (SimpToTrad, Japan, HongKong), whatever the other places of the
    criteria tuple hold. *)
Theorem C4_get_configuration_cases :
  forall (source : Z) (phrases : bool) (quotes orientation : Z)
         (update : bool) (table : dict) (matcher : option alt_regex),
    get_configuration
      (mkCriteria source 3 0 0 phrases quotes orientation update table matcher)
      = lit "no_conversion"
    /\ get_configuration
         (mkCriteria source 1 2 0 true quotes orientation update table matcher)
       = lit "tw2sp"
    /\ get_configuration
         (mkCriteria source 3 1 2 phrases quotes orientation update table matcher)
       = lit "unsupported_conversion"
    /\ get_configuration
         (mkCriteria source 2 3 1 phrases quotes orientation update table matcher)
       = lit "unsupported_conversion".
Proof. intros; repeat split; reflexivity. Qed.

(** C8.  [get_language_code] answers ['zh-HK'] for mode SimpToTrad with
    output locale HongKong, whatever the input locale, and ['None'] for
    mode NoChange with any input and output locales. *)
Theorem C8_get_language_code_cases :
  forall (source input output : Z) (phrases : bool) (quotes orientation : Z)
         (update : bool) (table : dict) (matcher : option alt_regex),
    get_language_code
      (mkCriteria source 2 input 1 phrases quotes orientation update table matcher)
      = lit "zh-HK"
    /\ get_language_code
         (mkCriteria source 0 input output phrases quotes orientation update
                     table matcher)
       = lit "None".
Proof. intros; split; reflexivity. Qed.

End ResolverFacts.

(* ================================================================== *)
(** ** The punctuation table and its matcher *)

Module CriteriaFacts.
Import Tables Gui GuiFacts.

(** C10.  In the tuple built by [getCriteria] the punctuation table
    (absent: the empty dict) and the punctuation matcher (absent: [None])
    are both present or both absent; they are present only when
    [update_punctuation] is true and the orientation is not NoChange; and
    when every mark of the master table is omitted both are absent.  That
    a present matcher comes with a table that is not empty, and that
    omitting every mark leaves neither, rests on the omission string
    being one the punctuation dialog saves, since [getCriteria] compares
    its length with the size of the master table. *)
Theorem C10_table_and_matcher_together (prefs : Prefs) :
  let criteria := getCriteria prefs in
  (PUNC_DICT criteria <> [] -> PUNC_REGEX criteria <> None)
  /\ (PUNC_REGEX criteria <> None ->
      UPDATE_PUNCTUATION criteria = true /\ OUTPUT_ORIENTATION criteria <> 0)
  /\ (saved_by_dialog (punc_omits prefs) = true ->
      (PUNC_REGEX criteria <> None -> PUNC_DICT criteria <> [])
      /\ ((forall k, In k (keys _h2v_master_dict) -> In k (punc_omits prefs)) ->
          PUNC_DICT criteria = [] /\ PUNC_REGEX criteria = None)).
Proof.
  unfold getCriteria; simpl.
  destruct (update_punctuation prefs) eqn:Hup; simpl.
  2:{ repeat split; try tauto; try congruence. }
  destruct (Z.of_nat (Datatypes.length (punc_omits prefs)) =? 32) eqn:Hl; simpl.
  { repeat split; try tauto; try congruence. }
  apply Z.eqb_neq in Hl.
  assert (Hsome : saved_by_dialog (punc_omits prefs) = true ->
                  build_h2v (punc_omits prefs) <> []).
  { intros Hwf; apply (build_h2v_nonempty _ Hwf).
    change (Datatypes.length (keys _h2v_master_dict)) with 32%nat; lia. }
  assert (Hnot : saved_by_dialog (punc_omits prefs) = true ->
                 ~ (forall k, In k (keys _h2v_master_dict) ->
                              In k (punc_omits prefs))).
  { intros Hwf Hall; apply (Hsome Hwf).
    apply (proj2 (build_h2v_empty_iff _) Hall). }
  destruct (output_orientation prefs =? 1) eqn:H1; simpl.
  { apply Z.eqb_eq in H1; repeat split; try congruence; try lia.
    - intros _ He; apply (proj1 (invert_empty_iff _)) in He.
      apply (Hsome H); exact He.
    - exfalso; apply (Hnot H); assumption.
    - exfalso; apply (Hnot H); assumption. }
  destruct (output_orientation prefs =? 2) eqn:H2; simpl.
  { apply Z.eqb_eq in H2; repeat split; try congruence; try lia.
    - intros _; apply (Hsome H).
    - exfalso; apply (Hnot H); assumption.
    - exfalso; apply (Hnot H); assumption. }
  repeat split; try tauto; try congruence.
Qed.

(** The default preferences with punctuation updates and vertical text:
    both table and matcher are present. *)
Lemma C10_table_and_matcher_together_witness :
  saved_by_dialog PUNC_OMITS = true
  /\ PUNC_REGEX (getCriteria (mkPrefs 0 0 0 0 true 0 2 true PUNC_OMITS)) <> None
  /\ PUNC_DICT (getCriteria (mkPrefs 0 0 0 0 true 0 2 true PUNC_OMITS)) <> [].
Proof.
  split; [reflexivity|].
  pose proof (C10_table_and_matcher_together
                (mkPrefs 0 0 0 0 true 0 2 true PUNC_OMITS)) as H.
  cbv zeta in H; destruct H as (_ & _ & H).
  destruct (H eq_refl) as [Hboth _].
  assert (Hre : PUNC_REGEX (getCriteria (mkPrefs 0 0 0 0 true 0 2 true PUNC_OMITS))
                <> None) by (vm_compute; discriminate).
  split; [exact Hre | apply Hboth, Hre].
Defined.

(** The matcher [getCriteria] builds fits the table it builds. *)
Lemma getCriteria_fits (prefs : Prefs) :
  saved_by_dialog (punc_omits prefs) = true ->
  HTML_TextProcessor.matcher_fits (getCriteria prefs) = true.
Proof.
  intros Hwf; unfold getCriteria, HTML_TextProcessor.matcher_fits; cbv zeta.
  destruct (update_punctuation prefs); [|reflexivity].
  destruct (Z.of_nat (Datatypes.length (punc_omits prefs))
            =? Z.of_nat (Datatypes.length (keys _h2v_master_dict))) eqn:Hl;
    [reflexivity|].
  apply Z.eqb_neq in Hl.
  assert (Hsome : build_h2v (punc_omits prefs) <> [])
    by (apply (build_h2v_nonempty _ Hwf); lia).
  cbn [andb negb].
  destruct (output_orientation prefs =? 1).
  - apply keys_fit; intros He; apply Hsome.
    apply (proj1 (invert_empty_iff _) He).
  - destruct (output_orientation prefs =? 2); [|reflexivity].
    apply keys_fit, Hsome.
Qed.

End CriteriaFacts.

(* ================================================================== *)
(** ** The handlers, one event at a time *)

Module HandlerFacts.
Import Tables HTML_TextProcessor.

Lemma bind_Ok {A B : Type} (a : A) (k : A -> res B) : (x <- Ok a ;; k x) = k a.
Proof. reflexivity. Qed.

Lemma isspace_spec (text : pystr) :
  isspace text = true <->
  text <> [] /\ Forall (fun c => is_whitespace c = true) text.
Proof.
  unfold isspace; destruct text as [|c text].
  - split; [discriminate | intros [H _]; congruence].
  - rewrite Forall_forall, forallb_forall.
    split; [intros H; split; [discriminate | exact H] | tauto].
Qed.

(** Substitution through a table that holds every alternative of its
    matcher gives a result. *)
Lemma sub_chars_total (re : alt_regex) (d : dict) (text : pystr) :
  (forall c, matches re c = true -> exists v, dict_get d c = Some v) ->
  exists r, sub_chars re (getitem d) text = Ok r.
Proof.
  intros Hd; induction text as [|c text [r IH]]; simpl; [eauto|].
  rewrite IH; destruct (matches re c) eqn:Hc; simpl; [|eauto].
  destruct (Hd c Hc) as [v Hv]; rewrite Hv; simpl; eauto.
Qed.

Lemma compile_keys_total (d : dict) (text : pystr) :
  exists r, sub_chars (compile_keys d) (getitem d) text = Ok r.
Proof.
  apply sub_chars_total; intros c Hc.
  apply GuiFacts.dict_get_keys, existsb_eqb_In, Hc.
Qed.

(** Quote remapping never raises: its matchers are compiled from the keys
    of its own tables. *)
Lemma replace_quotations_total (self : t) (data : pystr) :
  exists r, replace_quotations self data = Ok r.
Proof.
  unfold replace_quotations.
  destruct (QUOTATION_TYPE (criteria self) =? 1);
    [apply (compile_keys_total trad_to_simp_quotes)|].
  destruct (QUOTATION_TYPE (criteria self) =? 2);
    [apply (compile_keys_total simp_to_trad_quotes) | eauto].
Qed.

Lemma multiple_replace_total (criteria : Criteria) (re : alt_regex)
      (text : pystr) :
  matcher_fits criteria = true -> PUNC_REGEX criteria = Some re ->
  exists r, multiple_replace re (PUNC_DICT criteria) text = Ok r.
Proof.
  unfold matcher_fits, multiple_replace, re_sub; intros Hfit Hre.
  rewrite Hre in Hfit; destruct re as [|k re]; [discriminate|].
  apply andb_true_iff in Hfit; destruct Hfit as [_ Hfit].
  rewrite forallb_forall in Hfit.
  apply sub_chars_total; intros c Hc.
  apply existsb_eqb_In in Hc; specialize (Hfit c Hc).
  destruct (dict_get (PUNC_DICT criteria) c); [eauto | discriminate].
Qed.

Section WithCollaborators.
Context {TC : TextConverter} {UD : UnicodeData}.

Lemma quote_step_total (self : t) (text : pystr) :
  exists r, quote_step self text = Ok r.
Proof.
  unfold quote_step; destruct (negb _); [apply replace_quotations_total | eauto].
Qed.

Lemma punctuation_step_total (self : t) (text : pystr) :
  matcher_fits (criteria self) = true ->
  exists r, punctuation_step self text = Ok r.
Proof.
  unfold punctuation_step; intros Hfit.
  destruct (PUNC_REGEX (criteria self)) as [re|] eqn:Hre; [|eauto].
  apply (multiple_replace_total _ _ _ Hfit Hre).
Qed.

Lemma rewrite_run_total (self : t) (text : pystr) :
  matcher_fits (criteria self) = true ->
  exists r, rewrite_run self text = Ok r.
Proof.
  intros Hfit; unfold rewrite_run; cbv zeta.
  destruct (OUTPUT_ORIENTATION (criteria self) =? 1).
  - destruct (punctuation_step_total self text Hfit) as [t1 ->]; simpl.
    destruct (quote_step_total self t1) as [t2 ->]; simpl; eauto.
  - destruct (_ || _).
    + destruct (quote_step_total self text) as [t1 ->]; simpl.
      destruct (punctuation_step_total self t1 Hfit) as [t2 ->]; simpl; eauto.
    + destruct (punctuation_step_total self text Hfit) as [t1 ->]; simpl; eauto.
Qed.

(** A text run outside the scope is written back as it came. *)
Lemma handle_data_out_of_scope (self : t) (text : pystr) :
  converting self = false -> handle_data self text = Ok (append self text).
Proof.
  intros Hc; unfold handle_data; rewrite Hc.
  destruct (isspace text); [reflexivity|].
  simpl; rewrite andb_false_r; reflexivity.
Qed.

(** A text run inside the scope goes through [rewrite_run]. *)
Lemma handle_data_in_scope (self : t) (text : pystr) :
  isspace text = false -> converting self = true ->
  handle_data self text = (text <- rewrite_run self text ;; Ok (append self text)).
Proof.
  intros Hs Hc; unfold handle_data, rewrite_run, quote_step, punctuation_step,
    script_step; rewrite Hs, Hc, andb_true_r; cbv zeta.
  destruct (OUTPUT_ORIENTATION (criteria self) =? 1) eqn:H1.
  - apply Z.eqb_eq in H1; rewrite H1; simpl.
    destruct (match PUNC_REGEX (criteria self) with
              | Some re => multiple_replace re (PUNC_DICT (criteria self)) text
              | None => Ok text end) as [t1|e]; simpl; [|reflexivity].
    destruct (if negb (QUOTATION_TYPE (criteria self) =? 0)
              then replace_quotations self t1 else Ok t1) as [t2|e]; simpl;
      [|reflexivity].
    destruct (negb (CONVERSION_TYPE (criteria self) =? 0)); reflexivity.
  - destruct ((OUTPUT_ORIENTATION (criteria self) =? 0)
              || (OUTPUT_ORIENTATION (criteria self) =? 2)).
    + destruct (if negb (QUOTATION_TYPE (criteria self) =? 0)
                then replace_quotations self text else Ok text) as [t1|e];
        simpl; [|reflexivity].
      destruct (match PUNC_REGEX (criteria self) with
                | Some re => multiple_replace re (PUNC_DICT (criteria self)) t1
                | None => Ok t1 end) as [t2|e]; simpl; [|reflexivity].
      destruct (negb (CONVERSION_TYPE (criteria self) =? 0)); reflexivity.
    + simpl.
      destruct (match PUNC_REGEX (criteria self) with
                | Some re => multiple_replace re (PUNC_DICT (criteria self)) text
                | None => Ok text end) as [t1|e]; simpl; [|reflexivity].
      destruct (negb (CONVERSION_TYPE (criteria self) =? 0)); reflexivity.
Qed.

End WithCollaborators.
End HandlerFacts.

(* ================================================================== *)
(** ** Text runs *)

Module TextRunFacts.
Import Tables Gui HTML_TextProcessor HandlerFacts Sample.

Section WithCollaborators.
Context {TC : TextConverter} {UD : UnicodeData}.

(** C7.  A text run made of whitespace only is written back exactly as it
    was received, for every criteria tuple, every scope state and every
    converter: no quote, punctuation or script rewrite touches it. *)
Theorem C7_whitespace_run_verbatim (self : t) (text : pystr) :
  text <> [] -> Forall (fun c => is_whitespace c = true) text ->
  handle_data self text = Ok (append self text).
Proof.
  intros Hne Hall; unfold handle_data.
  rewrite (proj2 (isspace_spec text) (conj Hne Hall)); reflexivity.
Qed.

(** C3.  For a text run that is not whitespace, handled while converting
    is true: with orientation NoChange or Vertical the quote remapping
    comes before the punctuation matcher, with orientation Horizontal the
    punctuation matcher comes before the quote remapping, and the script
    conversion is applied last in both cases.  Each step is skipped when
    its policy is NoChange or its matcher is absent. *)
Theorem C3_orientation_fixes_order (self : t) (text : pystr) :
  isspace text = false -> converting self = true ->
  (OUTPUT_ORIENTATION (criteria self) = 0
   \/ OUTPUT_ORIENTATION (criteria self) = 2 ->
   handle_data self text =
     (quoted <- quote_step self text ;;
      marked <- punctuation_step self quoted ;;
      Ok (append self (script_step self marked))))
  /\ (OUTPUT_ORIENTATION (criteria self) = 1 ->
      handle_data self text =
        (marked <- punctuation_step self text ;;
         quoted <- quote_step self marked ;;
         Ok (append self (script_step self quoted)))).
Proof.
  intros Hs Hc; rewrite (handle_data_in_scope self text Hs Hc).
  unfold rewrite_run; cbv zeta; split.
  - intros Ho.
    assert (H1 : (OUTPUT_ORIENTATION (criteria self) =? 1) = false)
      by (apply Z.eqb_neq; lia).
    assert (H02 : ((OUTPUT_ORIENTATION (criteria self) =? 0)
                   || (OUTPUT_ORIENTATION (criteria self) =? 2)) = true)
      by (apply orb_true_iff; rewrite !Z.eqb_eq; exact Ho).
    rewrite H1, H02.
    destruct (quote_step self text) as [t1|e]; simpl; [|reflexivity].
    destruct (punctuation_step self t1) as [t2|e]; reflexivity.
  - intros Ho; rewrite Ho; simpl.
    destruct (punctuation_step self text) as [t1|e]; simpl; [|reflexivity].
    destruct (quote_step self t1) as [t2|e]; reflexivity.
Qed.

End WithCollaborators.

(** Vertical text, East Asian quotes: the left double quotation mark
    U+201C becomes the corner bracket U+300C and then its vertical form
    U+FE41; the converter sees the result. *)
Lemma C3_orientation_fixes_order_witness :
  handle_data (TC := Stub.bracing_converter) vertical_parser [0x201C]%N
  = Ok (append vertical_parser (lit "{" ++ [0xFE41]%N ++ lit "}")).
Proof.
  rewrite (proj1 (C3_orientation_fixes_order
                    (TC := Stub.bracing_converter)
                    vertical_parser [0x201C]%N eq_refl eq_refl));
    [reflexivity | right; reflexivity].
Defined.

(** Horizontal text, Western quotes: the vertical corner bracket U+FE41
    becomes the corner bracket U+300C and then the quotation mark
    U+201C. *)
Example horizontal_chain :
  handle_data (TC := Stub.bracing_converter) horizontal_parser [0xFE41]%N
  = Ok (append horizontal_parser (lit "{" ++ [0x201C]%N ++ lit "}")).
Proof. reflexivity. Qed.

(** In the other order the chains would stop half way. *)
Example vertical_other_order :
  (marked <- punctuation_step vertical_parser [0x201C]%N ;;
   quote_step vertical_parser marked) = Ok [0x300C]%N.
Proof. reflexivity. Qed.

Example horizontal_other_order :
  (quoted <- quote_step horizontal_parser [0xFE41]%N ;;
   punctuation_step horizontal_parser quoted) = Ok [0x300C]%N.
Proof. reflexivity. Qed.

Lemma C7_whitespace_run_verbatim_witness :
  handle_data (TC := Stub.bracing_converter) vertical_parser [0x20; 0x3000]%N
  = Ok (append vertical_parser [0x20; 0x3000]%N).
Proof.
  apply (C7_whitespace_run_verbatim (TC := Stub.bracing_converter)).
  - discriminate.
  - repeat constructor.
Defined.

End TextRunFacts.

(* ================================================================== *)
(** ** The walk over a document *)

Module WalkFacts.
Import Tables HTML_TextProcessor HandlerFacts.

Section WithCollaborators.
Context {TC : TextConverter} {UD : UnicodeData}.

Lemma feed_app (self : t) (a b : list event) :
  feed self (a ++ b) = (self <- feed self a ;; feed self b).
Proof.
  revert self; induction a as [|ev a IH]; intros self; simpl; [reflexivity|].
  destruct (dispatch self ev) as [s|e]; simpl; [apply IH | reflexivity].
Qed.

Lemma same_setup_append (self : t) (text : pystr) :
  same_setup self (append self text).
Proof. repeat split. Qed.

Ltac case_if :=
  match goal with
  | |- context [if ?b then _ else _] => destruct b eqn:?
  | |- context [match ?x with Some _ => _ | None => _ end] => destruct x eqn:?
  end.

Lemma dispatch_same_setup (self self' : t) (ev : event) :
  dispatch self ev = Ok self' -> same_setup self self'.
Proof.
  destruct ev; simpl; intros H.
  all: try (injection H as <-; repeat split;
            unfold handle_starttag, handle_startendtag, handle_endtag,
              handle_comment; repeat case_if; simpl; congruence).
  unfold handle_data in H; destruct (isspace text);
    [injection H as <-; repeat split|].
  match type of H with
  | (x <- ?c ;; _) = _ => destruct c as [t1|e]; simpl in H; [|discriminate]
  end.
  destruct (_ && _) in H; injection H as <-; repeat split.
Qed.

(** The scope flag after one event. *)
Lemma dispatch_converting (self self' : t) (ev : event) :
  dispatch self ev = Ok self' ->
  converting self' =
    if (INPUT_SOURCE (criteria self) =? 2) && is_start_sentinel ev then true
    else if (INPUT_SOURCE (criteria self) =? 2) && is_end_sentinel ev then false
    else converting self.
Proof.
  destruct ev; simpl; rewrite ?andb_false_r; intros H.
  all: try (injection H as <-;
            unfold handle_starttag, handle_startendtag, handle_endtag;
            repeat case_if; simpl; congruence).
  - unfold handle_data in H; destruct (isspace text);
      [injection H as <-; reflexivity|].
    match type of H with
    | (x <- ?c ;; _) = _ => destruct c as [t1|e]; simpl in H; [|discriminate]
    end.
    destruct (_ && _) in H; injection H as <-; reflexivity.
  - injection H as <-; unfold handle_comment.
    destruct (_ && str_eqb (strip data) seltext_start_tag); [reflexivity|].
    destruct (_ && str_eqb (strip data) seltext_end_tag); reflexivity.
Qed.

Lemma dispatch_total (self : t) (ev : event) :
  matcher_fits (criteria self) = true -> exists self', dispatch self ev = Ok self'.
Proof.
  intros Hfit; destruct ev; simpl; eauto.
  destruct (isspace text) eqn:Hs; [unfold handle_data; rewrite Hs; eauto|].
  destruct (converting self) eqn:Hc.
  - rewrite (handle_data_in_scope self text Hs Hc).
    destruct (rewrite_run_total self text Hfit) as [r ->]; simpl; eauto.
  - rewrite (handle_data_out_of_scope self text Hc); eauto.
Qed.

(** With a matcher that fits its table the walk reaches the end of the
    document. *)
Lemma feed_total (self : t) (doc : list event) :
  matcher_fits (criteria self) = true ->
  exists self', feed self doc = Ok self' /\ same_setup self self'.
Proof.
  revert self; induction doc as [|ev doc IH]; intros self Hfit; simpl.
  - exists self; repeat split.
  - destruct (dispatch_total self ev Hfit) as [s1 H1]; rewrite H1; simpl.
    destruct (dispatch_same_setup _ _ _ H1) as (Hc & Hl & Hf).
    destruct (IH s1) as (s2 & H2 & Hc2 & Hl2 & Hf2); [congruence|].
    exists s2; repeat split; congruence.
Qed.

(** Outside the scope, and with no start sentinel ahead, the walk stays
    outside and cannot raise. *)
Lemma feed_stays_out (self : t) (doc : list event) :
  converting self = false -> existsb is_start_sentinel doc = false ->
  exists self', feed self doc = Ok self' /\ converting self' = false
                /\ same_setup self self'.
Proof.
  revert self; induction doc as [|ev doc IH]; intros self Hc Hno; simpl.
  - exists self; repeat split; exact Hc.
  - simpl in Hno; apply orb_false_iff in Hno; destruct Hno as [Hev Hno].
    assert (H1 : exists s1, dispatch self ev = Ok s1).
    { destruct ev; simpl; eauto.
      rewrite (handle_data_out_of_scope self text Hc); eauto. }
    destruct H1 as [s1 H1]; rewrite H1; simpl.
    pose proof (dispatch_converting _ _ _ H1) as Hc1.
    rewrite Hev, andb_false_r, Hc in Hc1.
    assert (Hc1' : converting s1 = false)
      by (rewrite Hc1; destruct (_ && _); reflexivity).
    destruct (dispatch_same_setup _ _ _ H1) as (Hk & Hl & Hf).
    destruct (IH s1 Hc1' Hno) as (s2 & H2 & Hc2 & Hk2 & Hl2 & Hf2).
    exists s2; repeat split; congruence.
Qed.

(** Inside the scope, and with no end sentinel ahead, the walk stays
    inside. *)
Lemma feed_stays_in (self self' : t) (doc : list event) :
  converting self = true -> existsb is_end_sentinel doc = false ->
  feed self doc = Ok self' -> converting self' = true.
Proof.
  revert self; induction doc as [|ev doc IH]; intros self Hc Hno; simpl.
  - intros H; injection H as <-; exact Hc.
  - simpl in Hno; apply orb_false_iff in Hno; destruct Hno as [Hev Hno].
    destruct (dispatch self ev) as [s1|e] eqn:H1; simpl; [|discriminate].
    apply IH; [|exact Hno].
    rewrite (dispatch_converting _ _ _ H1), Hev, andb_false_r, Hc.
    destruct (_ && _); reflexivity.
Qed.

End WithCollaborators.
End WalkFacts.

(* ================================================================== *)
(** ** The scope of a selected text region *)

Module ScopeFacts.
Import Tables HTML_TextProcessor HandlerFacts WalkFacts Sample.

(** Only the run between the sentinels reaches the converter. *)
Example region_document_output :
  processText (TC := Stub.bracing_converter) (UD := Stub.ascii_data)
              (new region_criteria) region_document region_criteria
  = Ok (lit "a<!--PI_SELTEXT_START-->{b}<!-- PI_SELTEXT_END -->c").
Proof. reflexivity. Qed.

(** Without an end sentinel every later run reaches the converter. *)
Example open_region_document_output :
  processText (TC := Stub.bracing_converter) (UD := Stub.ascii_data)
              (new region_criteria) open_region_document region_criteria
  = Ok (lit "a<!--PI_SELTEXT_START-->{b}<p>{c}").
Proof. reflexivity. Qed.

End ScopeFacts.

(* ================================================================== *)
(** ** The rewrite of language attributes *)

Module ZhReFacts.
Import ZhRe.

Section WithUnicode.
Context {UD : UnicodeData}.

Lemma sub_from_skipn (repl : pystr) (k : nat) (s : pystr) :
  sub_from repl k s = sub_from repl 0 (skipn k s).
Proof.
  revert k; induction s as [|c s IH]; intros [|k]; try reflexivity.
  cbn [sub_from skipn]; apply IH.
Qed.

(** A match is never empty. *)
Lemma match_zh_positive (s : pystr) (n : nat) :
  match_zh s = Some n -> exists c s' k, s = c :: s' /\ n = S k.
Proof.
  unfold match_zh.
  change (lit "lang=" ++ [dquote] ++ lit "zh")
    with [108; 97; 110; 103; 61; 34; 122; 104]%N.
  destruct s as [|c s]; [discriminate|].
  destruct (match_literal _ (c :: s)) as [rest|]; [|discriminate].
  intros H; exists c, s.
  destruct rest as [|d rest]; [discriminate|].
  destruct (N.eqb d 0x2D).
  - destruct (match_word_quote rest) as [m|].
    + injection H as <-; eexists; split; reflexivity.
    + destruct (N.eqb d dquote); [injection H as <-|discriminate].
      eexists; split; reflexivity.
  - destruct (N.eqb d dquote); [injection H as <-|discriminate].
    eexists; split; reflexivity.
Qed.

(** Where the pattern matches, the match is replaced and the rewrite goes
    on behind it. *)
Lemma sub_hit (repl s : pystr) (n : nat) :
  match_zh s = Some n -> sub repl s = repl ++ sub repl (skipn n s).
Proof.
  intros H; destruct (match_zh_positive s n H) as (c & s' & k & -> & ->).
  unfold sub; cbn [sub_from]; rewrite H.
  rewrite sub_from_skipn; reflexivity.
Qed.

(** Where it does not, the character is copied. *)
Lemma sub_miss (repl : pystr) (c : char) (s : pystr) :
  match_zh (c :: s) = None -> sub repl (c :: s) = c :: sub repl s.
Proof. intros H; unfold sub; cbn [sub_from]; rewrite H; reflexivity. Qed.

(** The text before the first match is copied as it is. *)
Lemma sub_prefix (repl before rest : pystr) :
  (forall i, (i < List.length before)%nat ->
             match_zh (skipn i (before ++ rest)) = None) ->
  sub repl (before ++ rest) = before ++ sub repl rest.
Proof.
  induction before as [|c before IH]; intros H; [reflexivity|].
  simpl app; rewrite sub_miss.
  - f_equal; apply IH; intros i Hi.
    apply (H (S i)); simpl; lia.
  - apply (H 0%nat); simpl; lia.
Qed.

(** A text without a match is left as it is. *)
Lemma sub_no_match (repl s : pystr) :
  (forall i, match_zh (skipn i s) = None) -> sub repl s = s.
Proof.
  intros H; rewrite <- (app_nil_r s) at 1.
  rewrite sub_prefix; [apply app_nil_r|].
  intros i _; rewrite app_nil_r; apply H.
Qed.

End WithUnicode.
End ZhReFacts.

Module LangFacts.
Import Tables HTML_TextProcessor HandlerFacts WalkFacts ZhReFacts Sample.

Section WithCollaborators.
Context {TC : TextConverter} {UD : UnicodeData}.

(** What the two tag handlers do when they rewrite.  With a conversion
    mode other than NoChange and a language attribute set, an open tag
    handled while converting is true, and a self-closing tag handled when
    the input source is the whole book, is written back as its literal
    text with every match of the Chinese language attribute pattern,
    found from the left and ignoring case, replaced by the resolved
    attribute; the text before the first match, and a text without a
    match, is copied as it is.  (The root tag without [xml:lang], which
    gets an attribute appended, is set aside.) *)
Lemma language_attribute_rewrite
        (self : t) (tag : pystr) (attrs : list (pystr * option pystr))
        (starttag_text resolved : pystr) :
  CONVERSION_TYPE (criteria self) <> 0 ->
  language self = Some resolved ->
  (converting self = true ->
   str_eqb tag (lit "html") = false \/ has_xml_lang attrs = true ->
   handle_starttag self tag attrs starttag_text
   = append self (ZhRe.sub resolved starttag_text))
  /\ (INPUT_SOURCE (criteria self) = 0 ->
      handle_startendtag self tag attrs starttag_text
      = append self (ZhRe.sub resolved starttag_text))
  /\ (forall before rest n,
         starttag_text = before ++ rest ->
         (forall i, (i < List.length before)%nat ->
                    ZhRe.match_zh (skipn i starttag_text) = None) ->
         ZhRe.match_zh rest = Some n ->
         ZhRe.sub resolved starttag_text
         = before ++ resolved ++ ZhRe.sub resolved (skipn n rest))
  /\ ((forall i, ZhRe.match_zh (skipn i starttag_text) = None) ->
      ZhRe.sub resolved starttag_text = starttag_text).
Proof.
  intros Hmode Hlang.
  apply Z.eqb_neq in Hmode.
  repeat split.
  - intros Hc Hroot; unfold handle_starttag.
    rewrite Hc, Hmode, Hlang; cbn [andb negb]; cbv zeta.
    destruct Hroot as [-> | Hx]; [reflexivity|].
    unfold has_xml_lang in Hx; rewrite Hx; cbn [negb].
    destruct (str_eqb tag (lit "html")); reflexivity.
  - intros Hsrc; unfold handle_startendtag.
    rewrite Hsrc, Hmode, Hlang; reflexivity.
  - intros before rest n -> Hbefore Hrest.
    rewrite (sub_prefix resolved before rest Hbefore).
    rewrite (sub_hit resolved rest n Hrest); reflexivity.
  - apply sub_no_match.
Qed.

End WithCollaborators.

(** The whole book, Taiwan traditional to Mainland simplified: the
    attribute of a self-closing tag is rewritten. *)
Example self_closing_tag_whole_book :
  handle_startendtag
    (UD := Stub.ascii_data)
    (setLanguageAttribute (new (mkCriteria 0 1 2 0 true 0 0 false [] None))
                          (Some (attribute "lang" "zh-CN")))
    (lit "br") [(lit "lang", Some (lit "zh-TW"))] br_text
  = append
      (setLanguageAttribute (new (mkCriteria 0 1 2 0 true 0 0 false [] None))
                            (Some (attribute "lang" "zh-CN")))
      (lit "<br " ++ attribute "lang" "zh-CN" ++ lit "/>").
Proof.
  rewrite (proj1 (proj2 (language_attribute_rewrite
                           (UD := Stub.ascii_data)
                           (setLanguageAttribute
                              (new (mkCriteria 0 1 2 0 true 0 0 false [] None))
                              (Some (attribute "lang" "zh-CN")))
                           (lit "br") [(lit "lang", Some (lit "zh-TW"))]
                           br_text (attribute "lang" "zh-CN")
                           ltac:(discriminate) eq_refl)) eq_refl).
  reflexivity.
Qed.

(** C5 at a failing input.  With the current file as input source the
    scope flag is true for the whole document, the mode is TradToSimp and
    the language attribute is set, and yet the self-closing tag
    [<br lang="zh-TW"/>] comes out as it went in, although the pattern
    matches in it and the rewrite would give [<br lang="zh-CN"/>]. *)
Theorem C5_self_closing_tag_left_alone :
  converting (start file_parser file_criteria) = true
  /\ CONVERSION_TYPE file_criteria <> 0
  /\ language file_parser = Some (attribute "lang" "zh-CN")
  /\ ZhRe.sub (UD := Stub.ascii_data) (attribute "lang" "zh-CN") br_text
     = lit "<br " ++ attribute "lang" "zh-CN" ++ lit "/>"
  /\ processText (TC := Stub.bracing_converter) (UD := Stub.ascii_data)
                 file_parser br_document file_criteria
     = Ok br_text
  /\ br_text <> lit "<br " ++ attribute "lang" "zh-CN" ++ lit "/>".
Proof.
  repeat split; try reflexivity; vm_compute; discriminate.
Qed.

(** The open tag next to it is rewritten in the same run. *)
Example open_tag_same_run :
  processText (TC := Stub.bracing_converter) (UD := Stub.ascii_data)
              file_parser p_document file_criteria
  = Ok (lit "<p " ++ attribute "lang" "zh-CN" ++ lit ">").
Proof. reflexivity. Qed.

(** Case is ignored and other attributes keep their place. *)
Example mixed_case_attribute :
  ZhRe.sub (UD := Stub.ascii_data) (attribute "lang" "zh-CN")
           (lit "<p id=" ++ [dquote] ++ lit "a" ++ [dquote] ++ lit " XML:LANG="
            ++ [dquote] ++ lit "ZH-hant" ++ [dquote] ++ lit " "
            ++ attribute "lang" "zh" ++ lit " class=" ++ [dquote] ++ lit "b"
            ++ [dquote] ++ lit ">")
  = lit "<p id=" ++ [dquote] ++ lit "a" ++ [dquote] ++ lit " XML:"
    ++ attribute "lang" "zh-CN" ++ lit " " ++ attribute "lang" "zh-CN"
    ++ lit " class=" ++ [dquote] ++ lit "b" ++ [dquote] ++ lit ">".
Proof. reflexivity. Qed.

End LangFacts.

(* ================================================================== *)
(** ** Documents that come out as they went in *)

Module IdentityFacts.
Import Tables HTML_TextProcessor HandlerFacts WalkFacts Sample.

Section WithCollaborators.
Context {TC : TextConverter} {UD : UnicodeData}.

Lemma handle_starttag_plain (self : t) (tag : pystr)
      (attrs : list (pystr * option pystr)) (starttag_text : pystr) :
  CONVERSION_TYPE (criteria self) = 0 ->
  negb (str_eqb tag (lit "html")) || has_xml_lang attrs = true ->
  handle_starttag self tag attrs starttag_text = append self starttag_text.
Proof.
  intros Hmode Hplain; unfold handle_starttag.
  rewrite Hmode; cbn [Z.eqb negb]; rewrite andb_false_r; cbv zeta.
  apply orb_true_iff in Hplain; destruct Hplain as [Hn|Hx].
  - apply negb_true_iff in Hn; rewrite Hn; reflexivity.
  - unfold has_xml_lang in Hx; rewrite Hx; cbn [negb].
    destruct (str_eqb tag (lit "html")); reflexivity.
Qed.

Lemma handle_startendtag_plain (self : t) (tag : pystr)
      (attrs : list (pystr * option pystr)) (starttag_text : pystr) :
  CONVERSION_TYPE (criteria self) = 0 ->
  handle_startendtag self tag attrs starttag_text = append self starttag_text.
Proof.
  intros Hmode; unfold handle_startendtag.
  rewrite Hmode; cbn [Z.eqb negb]; rewrite andb_false_r; reflexivity.
Qed.

Lemma handle_endtag_plain (self : t) (tag : pystr) :
  force_stylesheet self = false ->
  handle_endtag self tag = append self (lit "</" ++ tag ++ lit ">").
Proof.
  intros Hforce; unfold handle_endtag.
  rewrite Hforce, andb_false_r; reflexivity.
Qed.

Lemma handle_data_plain (self : t) (text : pystr) :
  CONVERSION_TYPE (criteria self) = 0 ->
  QUOTATION_TYPE (criteria self) = 0 ->
  PUNC_REGEX (criteria self) = None ->
  handle_data self text = Ok (append self text).
Proof.
  intros Hmode Hquote Hpunc.
  destruct (isspace text) eqn:Hs; [unfold handle_data; rewrite Hs; reflexivity|].
  destruct (converting self) eqn:Hc; [|apply handle_data_out_of_scope, Hc].
  rewrite (handle_data_in_scope self text Hs Hc).
  unfold rewrite_run, quote_step, punctuation_step, script_step.
  rewrite Hmode, Hquote, Hpunc; cbn [Z.eqb negb]; cbv zeta.
  destruct (OUTPUT_ORIENTATION (criteria self) =? 1); [reflexivity|].
  destruct (_ || _); reflexivity.
Qed.

(** With nothing to rewrite, the handler of a plain event appends the
    literal text of the event. *)
Lemma dispatch_plain (self : t) (ev : event) :
  CONVERSION_TYPE (criteria self) = 0 ->
  QUOTATION_TYPE (criteria self) = 0 ->
  PUNC_REGEX (criteria self) = None ->
  force_stylesheet self = false ->
  plain ev = true ->
  exists self',
    dispatch self ev = Ok self'
    /\ result self' = result self ++ [literal ev]
    /\ same_setup self self'.
Proof.
  intros Hmode Hquote Hpunc Hforce Hplain.
  destruct ev; simpl in Hplain; try discriminate; simpl dispatch.
  - rewrite (handle_starttag_plain _ _ _ _ Hmode Hplain).
    eexists; repeat split.
  - rewrite (handle_startendtag_plain _ _ _ _ Hmode).
    eexists; repeat split.
  - apply str_eqb_eq in Hplain; subst endtag_text.
    rewrite (handle_endtag_plain _ _ Hforce).
    eexists; repeat split.
  - rewrite (handle_data_plain _ _ Hmode Hquote Hpunc).
    eexists; repeat split.
  - eexists; split; [reflexivity|].
    unfold handle_comment.
    destruct (_ && str_eqb (strip data) seltext_start_tag);
      [repeat split|].
    destruct (_ && str_eqb (strip data) seltext_end_tag); repeat split.
  - eexists; repeat split.
  - eexists; repeat split.
  - eexists; repeat split.
  - eexists; repeat split.
Qed.

Lemma feed_plain (self : t) (doc : list event) :
  CONVERSION_TYPE (criteria self) = 0 ->
  QUOTATION_TYPE (criteria self) = 0 ->
  PUNC_REGEX (criteria self) = None ->
  force_stylesheet self = false ->
  forallb plain doc = true ->
  exists self',
    feed self doc = Ok self'
    /\ result self' = result self ++ List.map literal doc.
Proof.
  revert self; induction doc as [|ev doc IH];
    intros self Hmode Hquote Hpunc Hforce Hplain; simpl.
  - exists self; split; [reflexivity | symmetry; apply app_nil_r].
  - simpl in Hplain; apply andb_true_iff in Hplain; destruct Hplain as [Hev Hdoc].
    destruct (dispatch_plain self ev Hmode Hquote Hpunc Hforce Hev)
      as (s1 & H1 & Hr1 & Hk & Hl & Hf).
    rewrite H1; simpl.
    destruct (IH s1) as (s2 & H2 & Hr2); try congruence.
    exists s2; split; [exact H2|].
    rewrite Hr2, Hr1, <- app_assoc; reflexivity.
Qed.

(** With conversion mode NoChange, quotation policy NoChange, no
    punctuation matcher and the stylesheet flag off, [processText] joins
    the usual spellings of plain events. *)
Lemma processText_plain (self : t) (doc : list event)
        (criteria : Criteria) :
  CONVERSION_TYPE criteria = 0 ->
  QUOTATION_TYPE criteria = 0 ->
  PUNC_REGEX criteria = None ->
  force_stylesheet self = false ->
  forallb plain doc = true ->
  processText self doc criteria = Ok (source_text doc).
Proof.
  intros Hmode Hquote Hpunc Hforce Hplain; unfold processText.
  destruct (feed_plain (start self criteria) doc) as (s & Hfeed & Hres);
    try assumption.
  rewrite Hfeed; simpl; rewrite Hres; reflexivity.
Qed.

End WithCollaborators.


(** What else rewrites a document when the conversion mode is NoChange,
    one input each: an end tag is written back under the name the parser
    gives it, a marked section loses its brackets, a punctuation matcher
    rewrites text whatever the conversion mode, and the stylesheet flag
    puts a link before the end of the head. *)
Example end_tag_renamed :
  processText (TC := Stub.bracing_converter) (UD := Stub.ascii_data)
              (new (mkCriteria 0 0 0 0 true 0 0 false [] None))
              [EndTag (lit "p") (lit "</P >")]
              (mkCriteria 0 0 0 0 true 0 0 false [] None)
  = Ok (lit "</p>").
Proof. reflexivity. Qed.

Example marked_section_rewritten :
  source_text [UnknownDecl (lit "CDATA[x")] = lit "<![CDATA[x]]>"
  /\ processText (TC := Stub.bracing_converter) (UD := Stub.ascii_data)
                 (new (mkCriteria 0 0 0 0 true 0 0 false [] None))
                 [UnknownDecl (lit "CDATA[x")]
                 (mkCriteria 0 0 0 0 true 0 0 false [] None)
     = Ok (lit "<!CDATA[x>").
Proof. split; reflexivity. Qed.

Example punctuation_without_conversion :
  processText (TC := Stub.bracing_converter) (UD := Stub.ascii_data)
              (new (Gui.getCriteria (Gui.mkPrefs 0 0 0 0 true 0 2 true PUNC_OMITS)))
              [Data [0x300C]%N]
              (Gui.getCriteria (Gui.mkPrefs 0 0 0 0 true 0 2 true PUNC_OMITS))
  = Ok [0xFE41]%N.
Proof. reflexivity. Qed.

Example stylesheet_link_inserted :
  processText (TC := Stub.bracing_converter) (UD := Stub.ascii_data)
              (mk [] (mkCriteria 0 0 0 0 true 0 2 false [] None) true None true)
              [EndTag (lit "head") (lit "</head>")]
              (mkCriteria 0 0 0 0 true 0 2 false [] None)
  = Ok (lit "<link rel=" ++ [dquote] ++ lit "stylesheet" ++ [dquote]
        ++ lit " type=" ++ [dquote] ++ lit "text/css" ++ [dquote]
        ++ lit " href=" ++ [dquote] ++ lit "./Styles/stylesheet.css"
        ++ [dquote] ++ lit "/></head>").
Proof. reflexivity. Qed.

End IdentityFacts.

(* ================================================================== *)
(** ** The language attribute of the root tag *)

Module RootTagFacts.
Import HTML_TextProcessor Sample.

(** C6 at a failing input, where no language attribute is set.  Mainland
    traditional to Japanese kanji is a supported conversion without a
    language code; a first pass over [<html>] appends [xml:None], which a
    second pass does not take for [xml:lang], so it appends it once
    more. *)
Theorem C6_root_attribute_appended_twice :
  Resolver.get_configuration japan_criteria = lit "t2jp"
  /\ language japan_parser = None
  /\ processText (TC := Stub.bracing_converter) (UD := Stub.ascii_data)
                 japan_parser html_first_pass japan_criteria
     = Ok (lit "<html xml:None>")
  /\ processText (TC := Stub.bracing_converter) (UD := Stub.ascii_data)
                 japan_parser html_second_pass japan_criteria
     = Ok (lit "<html xml:None xml:None>").
Proof. repeat split. Qed.

(** With a language attribute set the second pass finds [xml:lang] and
    adds nothing. *)
Example root_attribute_once :
  processText (TC := Stub.bracing_converter) (UD := Stub.ascii_data)
              file_parser html_first_pass file_criteria
  = Ok (lit "<html xml:" ++ attribute "lang" "zh-CN" ++ lit ">")
  /\ processText (TC := Stub.bracing_converter) (UD := Stub.ascii_data)
                 file_parser html_second_pass_zh file_criteria
     = Ok (lit "<html xml:" ++ attribute "lang" "zh-CN" ++ lit ">").
Proof. split; reflexivity. Qed.

End RootTagFacts.

(* ================================================================== *)
(** ** The resolver as a table *)

Module ResolverTable.
Import Resolver.

Ltac resolver_cases :=
  repeat match goal with
         | |- context [?a =? ?b] =>
             let E := fresh "E" in
             destruct (Z.eqb_spec a b) as [E|E];
             [try rewrite E in *|]; try lia
         end.

(** [get_configuration] answers one of sixteen identifiers, whatever the
    criteria hold; ['t2hkp'], which its docstring lists, is not among
    them. *)
Theorem get_configuration_range (criteria : Criteria) :
  In (get_configuration criteria)
     [lit "no_conversion"; lit "unsupported_conversion";
      lit "t2s"; lit "t2jp"; lit "hk2s"; lit "tw2s"; lit "tw2sp";
      lit "s2t"; lit "s2hk"; lit "s2tw"; lit "s2twp"; lit "jp2t";
      lit "t2hk"; lit "t2tw"; lit "hk2t"; lit "tw2t"].
Proof.
  unfold get_configuration; cbv zeta.
  destruct (USE_TARGET_PHRASES criteria);
    repeat match goal with
           | |- context [if ?b then _ else _] => destruct b
           end;
    cbv; tauto.
Qed.

(** The phrasing flag matters for Taiwan only: it appends ['p'] to the
    answer for Taiwan traditional to Mainland simplified and for Mainland
    simplified to Taiwan traditional, and changes no other answer. *)
Theorem use_target_phrases_only_for_taiwan
        (source mode input output quotes orientation : Z) (update : bool)
        (table : dict) (matcher : option alt_regex) :
  get_configuration
    (mkCriteria source mode input output true quotes orientation update
                table matcher)
  = get_configuration
      (mkCriteria source mode input output false quotes orientation update
                  table matcher)
    ++ (if ((mode =? 1) && (input =? 2) && (output =? 0))
           || ((mode =? 2) && (input =? 0) && (output =? 2))
        then lit "p" else []).
Proof.
  unfold get_configuration; cbn [CONVERSION_TYPE INPUT_LOCALE OUTPUT_LOCALE
                                  USE_TARGET_PHRASES]; cbv zeta.
  resolver_cases; reflexivity.
Qed.

(** Where [get_configuration] answers ['no_conversion'], the language
    code is ['None'] and the parser gets no language attribute: no tag is
    touched in a run that converts nothing. *)
Theorem no_conversion_no_language (criteria : Criteria) :
  get_configuration criteria = lit "no_conversion" ->
  get_language_code criteria = lit "None"
  /\ language_attribute criteria = None.
Proof.
  intros H.
  assert (Hcode : get_language_code criteria = lit "None").
  { revert H; unfold get_configuration, get_language_code; cbv zeta.
    destruct (USE_TARGET_PHRASES criteria); resolver_cases;
      intros H; try reflexivity; try (vm_compute in H; discriminate). }
  split; [exact Hcode|].
  unfold language_attribute; cbv zeta; rewrite Hcode; reflexivity.
Qed.

Lemma no_conversion_no_language_witness :
  get_language_code (mkCriteria 0 3 1 1 true 1 2 true [] None) = lit "None"
  /\ language_attribute (mkCriteria 0 3 1 1 true 1 2 true [] None) = None.
Proof.
  apply (no_conversion_no_language (mkCriteria 0 3 1 1 true 1 2 true [] None)).
  reflexivity.
Defined.

(** For the four modes of the dialog and a supported conversion that
    converts something, the language code names the output locale:
    ['zh-CN'] for Mainland, ['zh-HK'] for Hong Kong, ['zh-TW'] for
    Taiwan, and ['None'] for Japan. *)
Theorem language_code_names_output_locale (criteria : Criteria) :
  0 <= CONVERSION_TYPE criteria <= 3 ->
  get_configuration criteria <> lit "unsupported_conversion" ->
  get_configuration criteria <> lit "no_conversion" ->
  get_language_code criteria =
    (if OUTPUT_LOCALE criteria =? 0 then lit "zh-CN"
     else if OUTPUT_LOCALE criteria =? 1 then lit "zh-HK"
     else if OUTPUT_LOCALE criteria =? 2 then lit "zh-TW"
     else lit "None").
Proof.
  intros Hmode; unfold get_configuration, get_language_code; cbv zeta.
  destruct (USE_TARGET_PHRASES criteria); resolver_cases;
    intros H1 H2; try reflexivity; try (exfalso; apply H1; reflexivity);
    try (exfalso; apply H2; reflexivity).
Qed.

Lemma language_code_names_output_locale_witness :
  get_language_code (mkCriteria 0 2 0 2 true 0 0 false [] None) = lit "zh-TW".
Proof.
  apply (language_code_names_output_locale
           (mkCriteria 0 2 0 2 true 0 0 false [] None)).
  - simpl; lia.
  - vm_compute; discriminate.
  - vm_compute; discriminate.
Defined.

(** Japan takes part in two conversions only: as the output of
    traditional to simplified from Mainland (['t2jp']) and as the input
    of simplified to traditional to Mainland (['jp2t']); every other
    conversion that names Japan is unsupported. *)
Theorem japan_in_two_conversions (criteria : Criteria) :
  CONVERSION_TYPE criteria <> 0 ->
  INPUT_LOCALE criteria = 3 \/ OUTPUT_LOCALE criteria = 3 ->
  get_configuration criteria =
    (if (CONVERSION_TYPE criteria =? 1) && (INPUT_LOCALE criteria =? 0)
     then lit "t2jp"
     else if (CONVERSION_TYPE criteria =? 2) && (OUTPUT_LOCALE criteria =? 0)
     then lit "jp2t"
     else lit "unsupported_conversion").
Proof.
  intros Hmode HJ; unfold get_configuration; cbv zeta.
  destruct (USE_TARGET_PHRASES criteria); resolver_cases;
    try reflexivity; destruct HJ; lia.
Qed.

Lemma japan_in_two_conversions_witness :
  get_configuration (mkCriteria 0 2 3 0 true 0 0 false [] None) = lit "jp2t".
Proof.
  apply (japan_in_two_conversions (mkCriteria 0 2 3 0 true 0 0 false [] None)).
  - simpl; lia.
  - left; reflexivity.
Defined.

End ResolverTable.

(* ================================================================== *)
(** ** The walk, further *)

Module WalkMore.
Import Tables Gui GuiFacts HTML_TextProcessor HandlerFacts WalkFacts Fragments.

Section WithCollaborators.
Context {TC : TextConverter} {UD : UnicodeData}.

Lemma feed_scope_fixed (self self' : t) (doc : list event) :
  INPUT_SOURCE (criteria self) <> 2 ->
  feed self doc = Ok self' -> converting self' = converting self.
Proof.
  revert self; induction doc as [|ev doc IH]; intros self Hsrc; simpl.
  - intros H; injection H as <-; reflexivity.
  - destruct (dispatch self ev) as [s1|e] eqn:H1; simpl; [|discriminate].
    intros H.
    destruct (dispatch_same_setup _ _ _ H1) as (Hk & _).
    rewrite (IH s1); [|rewrite Hk; exact Hsrc|exact H].
    rewrite (dispatch_converting _ _ _ H1).
    apply Z.eqb_neq in Hsrc; rewrite Hsrc; reflexivity.
Qed.

(** When the input source is the whole book or the current file, the
    sentinel comments do nothing: at every point of the document the
    scope flag is true, and a text run that is not whitespace goes through
    [rewrite_run]. *)
Theorem sentinels_inert_outside_selected_text
        (self s : t) (criteria : Criteria) (before : list event)
        (text : pystr) :
  INPUT_SOURCE criteria <> 2 ->
  feed (start self criteria) before = Ok s ->
  converting s = true
  /\ (isspace text = false ->
      handle_data s text
      = (text <- rewrite_run s text ;; Ok (append s text))).
Proof.
  intros Hsrc Hfeed.
  assert (Hc : converting s = true).
  { rewrite (feed_scope_fixed (start self criteria) s before Hsrc Hfeed).
    unfold start; simpl.
    apply Z.eqb_neq in Hsrc; rewrite Hsrc; reflexivity. }
  split; [exact Hc|].
  intros Hs; apply handle_data_in_scope; assumption.
Qed.

(** After an end sentinel, and until a start sentinel comes, a text run
    is written back as it is. *)
Theorem end_sentinel_closes_scope
        (self : t) (criteria : Criteria) (before outside : list event)
        (data text : pystr) :
  INPUT_SOURCE criteria = 2 ->
  matcher_fits criteria = true ->
  strip data = seltext_end_tag ->
  existsb is_start_sentinel outside = false ->
  exists s,
    feed (start self criteria) (before ++ Comment data :: outside) = Ok s
    /\ converting s = false
    /\ handle_data s text = Ok (append s text).
Proof.
  intros Hsrc Hfit Hend Hno.
  destruct (feed_total (start self criteria) before Hfit)
    as (s1 & H1 & Hk1 & _); simpl in Hk1.
  rewrite feed_app, H1; simpl.
  assert (Hc : converting (handle_comment s1 data) = false).
  { unfold handle_comment; rewrite Hk1, Hsrc, Hend; reflexivity. }
  destruct (feed_stays_out (handle_comment s1 data) outside Hc Hno)
    as (s & Hfeed & Hcs & _).
  exists s; repeat split; try assumption.
  apply handle_data_out_of_scope, Hcs.
Qed.

(** Criteria built by [getCriteria] from preferences the dialogs save
    never make a handler raise: whatever calls the parser makes, the
    walk goes through them all, [processText] joins what the handlers
    wrote, and no [KeyError] comes out of it.  What the parser itself
    raises before it calls a handler (as for a marked section with an
    unknown keyword) is no handler's doing and not part of a list of
    events. *)
Theorem handlers_never_raise_for_gui_criteria
        (self : t) (prefs : Prefs) (doc : list event) :
  saved_by_dialog (punc_omits prefs) = true ->
  exists self',
    feed (start self (getCriteria prefs)) doc = Ok self'
    /\ processText self doc (getCriteria prefs) = Ok (join (result self'))
    /\ forall key,
         processText self doc (getCriteria prefs) <> Raise (KeyError key).
Proof.
  intros Hwf; unfold processText.
  destruct (feed_total (start self (getCriteria prefs)) doc)
    as (s & Hfeed & _).
  - exact (CriteriaFacts.getCriteria_fits prefs Hwf).
  - exists s; rewrite Hfeed; simpl; repeat split; discriminate.
Qed.

End WithCollaborators.

Lemma sentinels_inert_outside_selected_text_witness :
  converting
    (handle_comment (start (new Sample.file_criteria) Sample.file_criteria)
                    (lit "PI_SELTEXT_END")) = true.
Proof.
  apply (sentinels_inert_outside_selected_text
           (TC := Stub.bracing_converter) (UD := Stub.ascii_data)
           (new Sample.file_criteria) _ Sample.file_criteria
           [Comment (lit "PI_SELTEXT_END")] (lit "b")).
  - discriminate.
  - reflexivity.
Defined.

Lemma end_sentinel_closes_scope_witness :
  exists s,
    feed (TC := Stub.bracing_converter) (UD := Stub.ascii_data)
         (start (new Sample.region_criteria) Sample.region_criteria)
         ([Comment (lit "PI_SELTEXT_START"); Data (lit "b")]
          ++ Comment (lit " PI_SELTEXT_END ") :: [Pi (lit "x")])
    = Ok s
    /\ converting s = false
    /\ handle_data (TC := Stub.bracing_converter) s (lit "c")
       = Ok (append s (lit "c")).
Proof.
  apply (end_sentinel_closes_scope
           (TC := Stub.bracing_converter) (UD := Stub.ascii_data));
    reflexivity.
Defined.

Lemma handlers_never_raise_for_gui_criteria_witness :
  exists self',
    feed (TC := Stub.bracing_converter) (UD := Stub.ascii_data)
         (start (new Sample.file_criteria)
                (getCriteria (mkPrefs 0 1 0 0 true 2 2 true PUNC_OMITS)))
         Sample.region_document
    = Ok self'
    /\ processText (TC := Stub.bracing_converter) (UD := Stub.ascii_data)
                   (new Sample.file_criteria) Sample.region_document
                   (getCriteria (mkPrefs 0 1 0 0 true 2 2 true PUNC_OMITS))
       = Ok (join (result self'))
    /\ forall key,
         processText (TC := Stub.bracing_converter) (UD := Stub.ascii_data)
                     (new Sample.file_criteria) Sample.region_document
                     (getCriteria (mkPrefs 0 1 0 0 true 2 2 true PUNC_OMITS))
         <> Raise (KeyError key).
Proof.
  apply (handlers_never_raise_for_gui_criteria
           (TC := Stub.bracing_converter) (UD := Stub.ascii_data)).
  reflexivity.
Defined.

End WalkMore.

(* ================================================================== *)
(** ** Substitution through a table *)

Module TableMore.
Import Tables Translation HTML_TextProcessor.

Lemma sub_chars_Ok (re : alt_regex) (d : dict) (text t : pystr) :
  sub_chars re (getitem d) text = Ok t ->
  t = List.map (translate re d) text
  /\ (forall c, In c text -> matches re c = true -> dict_get d c <> None).
Proof.
  revert t; induction text as [|c text IH]; simpl; intros t H.
  - injection H as <-; split; [reflexivity | tauto].
  - unfold translate at 1.
    destruct (matches re c) eqn:Hc.
    + destruct (dict_get d c) as [v|] eqn:Hv; simpl in H; [|discriminate].
      destruct (sub_chars re (getitem d) text) as [r|e]; simpl in H;
        [|discriminate].
      injection H as <-; destruct (IH r eq_refl) as [-> Hall].
      split; [reflexivity|].
      intros c' [<-|Hin] Hm; [congruence | apply Hall; assumption].
    + destruct (sub_chars re (getitem d) text) as [r|e]; simpl in H;
        [|discriminate].
      injection H as <-; destruct (IH r eq_refl) as [-> Hall].
      split; [reflexivity|].
      intros c' [<-|Hin] Hm; [congruence | apply Hall; assumption].
Qed.

Lemma sub_chars_fits (re : alt_regex) (d : dict) (text : pystr) :
  (forall c, In c text -> matches re c = true -> dict_get d c <> None) ->
  sub_chars re (getitem d) text = Ok (List.map (translate re d) text).
Proof.
  induction text as [|c text IH]; intros H; [reflexivity|].
  cbn [sub_chars List.map].
  rewrite IH by (intros c' Hin; apply H; right; exact Hin).
  destruct (matches re c) eqn:Hc.
  - destruct (dict_get d c) as [v|] eqn:Hv.
    + replace (translate re d c) with v
        by (unfold translate; rewrite Hc, Hv; reflexivity).
      unfold getitem; rewrite Hv; reflexivity.
    + exfalso; apply (H c (or_introl eq_refl) Hc Hv).
  - replace (translate re d c) with c
      by (unfold translate; rewrite Hc; reflexivity).
    reflexivity.
Qed.

Lemma multiple_replace_returns_spec (re : alt_regex) (d : dict)
        (text : pystr) :
  (forall t, multiple_replace re d text = Ok t ->
             re <> []
             /\ (forall c, In c text -> matches re c = true ->
                           dict_get d c <> None)
             /\ t = List.map (translate re d) text
             /\ List.length t = List.length text)
  /\ (re <> [] ->
      (forall c, In c text -> matches re c = true -> dict_get d c <> None) ->
      multiple_replace re d text = Ok (List.map (translate re d) text)).
Proof.
  unfold multiple_replace, re_sub; split.
  - intros t H; destruct re as [|k re].
    + destruct text; simpl in H; discriminate.
    + destruct (sub_chars_Ok _ _ _ _ H) as [-> Hall].
      repeat split; try assumption; try discriminate.
      apply length_map.
  - intros Hre Hall; destruct re as [|k re]; [congruence|].
    apply sub_chars_fits, Hall.
Qed.

(** [multiple_replace] returns a text exactly when its matcher has an
    alternative and the table holds every character of the text the
    matcher takes; the text it returns has each such character replaced
    by its table entry and every other character in place, so it is as
    long as the text it was given. *)
Theorem multiple_replace_returns (re : alt_regex) (d : dict)
        (text : pystr) :
  (forall t, multiple_replace re d text = Ok t ->
             re <> []
             /\ (forall c, In c text -> matches re c = true ->
                           dict_get d c <> None)
             /\ t = List.map (translate re d) text
             /\ List.length t = List.length text)
  /\ (re <> [] ->
      (forall c, In c text -> matches re c = true -> dict_get d c <> None) ->
      multiple_replace re d text = Ok (List.map (translate re d) text)).
Proof. exact (multiple_replace_returns_spec re d text). Qed.

Lemma multiple_replace_raises_spec (re : alt_regex) (d : dict)
        (before after : pystr) (c : char) :
  (re <> [] ->
   (forall c', In c' before -> matches re c' = true ->
               dict_get d c' <> None) ->
   matches re c = true -> dict_get d c = None ->
   multiple_replace re d (before ++ c :: after) = Raise (KeyError [c]))
  /\ multiple_replace [] d before = Raise (KeyError []).
Proof.
  unfold multiple_replace, re_sub; split.
  - intros Hre Hbefore Hc Hd; destruct re as [|k re]; [congruence|].
    induction before as [|b before IH]; cbn [sub_chars app].
    + rewrite Hc; unfold getitem; rewrite Hd; reflexivity.
    + rewrite IH by (intros c' Hin; apply Hbefore; right; exact Hin).
      destruct (matches (k :: re) b) eqn:Hb; [|reflexivity].
      unfold getitem; destruct (dict_get d b) eqn:Hdb; [reflexivity|].
      exfalso; apply (Hbefore b (or_introl eq_refl) Hb Hdb).
  - destruct before; reflexivity.
Qed.

(** The first character the matcher takes and the table lacks ends the
    substitution in a [KeyError] that names it; a matcher without
    alternatives ends it in a [KeyError] for the empty string, even on an
    empty text. *)
Theorem multiple_replace_raises (re : alt_regex) (d : dict)
        (before after : pystr) (c : char) :
  (re <> [] ->
   (forall c', In c' before -> matches re c' = true ->
               dict_get d c' <> None) ->
   matches re c = true -> dict_get d c = None ->
   multiple_replace re d (before ++ c :: after) = Raise (KeyError [c]))
  /\ multiple_replace [] d before = Raise (KeyError []).
Proof. exact (multiple_replace_raises_spec re d before after c). Qed.

Lemma multiple_replace_returns_witness :
  multiple_replace [0x3002; 0x3001]%N [(0x3002, 0xFE12); (0x3001, 0xFE11)]%N
                   [0x3002; 0x41; 0x3001]%N
  = Ok (List.map (translate [0x3002; 0x3001]%N
                            [(0x3002, 0xFE12); (0x3001, 0xFE11)]%N)
                 [0x3002; 0x41; 0x3001]%N).
Proof.
  apply (proj2 (multiple_replace_returns
                  [0x3002; 0x3001]%N [(0x3002, 0xFE12); (0x3001, 0xFE11)]%N
                  [0x3002; 0x41; 0x3001]%N)).
  - discriminate.
  - intros c [<-|[<-|[<-|[]]]]; simpl; discriminate.
Defined.

Lemma multiple_replace_raises_witness :
  multiple_replace [0x3002; 0x3001]%N [(0x3002, 0xFE12)]%N
                   ([0x3002; 0x41]%N ++ 0x3001%N :: [0x42]%N)
  = Raise (KeyError [0x3001]%N).
Proof.
  apply (proj1 (multiple_replace_raises [0x3002; 0x3001]%N
                  [(0x3002, 0xFE12)]%N [0x3002; 0x41]%N [0x42]%N 0x3001%N)).
  - discriminate.
  - intros c' [<-|[<-|[]]]; simpl; discriminate.
  - reflexivity.
  - reflexivity.
Defined.

(** *** Quotes *)

Lemma replace_quotations_western (self : t) (data : pystr) :
  QUOTATION_TYPE (criteria self) = 1 ->
  replace_quotations self data
  = Ok (List.map (translate trad_to_simp_re trad_to_simp_quotes) data).
Proof.
  intros H; unfold replace_quotations; rewrite H; cbn [Z.eqb].
  change (re_sub trad_to_simp_re) with (sub_chars trad_to_simp_re).
  apply sub_chars_fits; intros c _ Hc Hd.
  apply existsb_eqb_In in Hc.
  destruct (GuiFacts.dict_get_keys trad_to_simp_quotes c Hc); congruence.
Qed.

Lemma replace_quotations_east_asian (self : t) (data : pystr) :
  QUOTATION_TYPE (criteria self) = 2 ->
  replace_quotations self data
  = Ok (List.map (translate simp_to_trad_re simp_to_trad_quotes) data).
Proof.
  intros H; unfold replace_quotations; rewrite H; cbn [Z.eqb].
  change (re_sub simp_to_trad_re) with (sub_chars simp_to_trad_re).
  apply sub_chars_fits; intros c _ Hc Hd.
  apply existsb_eqb_In in Hc.
  destruct (GuiFacts.dict_get_keys simp_to_trad_quotes c Hc); congruence.
Qed.

Lemma western_then_east_asian (c : char) :
  matches simp_to_trad_re c = false ->
  translate simp_to_trad_re simp_to_trad_quotes
            (translate trad_to_simp_re trad_to_simp_quotes c) = c.
Proof.
  intros Hc; unfold translate at 2.
  destruct (matches trad_to_simp_re c) eqn:Hm.
  - apply existsb_eqb_In in Hm; simpl in Hm.
    destruct Hm as [<-|[<-|[<-|[<-|[]]]]]; reflexivity.
  - unfold translate; rewrite Hc; reflexivity.
Qed.

Lemma east_asian_then_western (c : char) :
  matches trad_to_simp_re c = false ->
  translate trad_to_simp_re trad_to_simp_quotes
            (translate simp_to_trad_re simp_to_trad_quotes c) = c.
Proof.
  intros Hc; unfold translate at 2.
  destruct (matches simp_to_trad_re c) eqn:Hm.
  - apply existsb_eqb_In in Hm; simpl in Hm.
    destruct Hm as [<-|[<-|[<-|[<-|[]]]]]; reflexivity.
  - unfold translate; rewrite Hc; reflexivity.
Qed.

(** The two quote tables undo each other.  A text without Western
    quotation marks that is remapped to Western and then to East Asian
    quotes is the text again, and a text without corner brackets that is
    remapped to East Asian and then to Western quotes is the text
    again. *)
Theorem quote_remapping_round_trip (western east_asian : t) (text : pystr) :
  QUOTATION_TYPE (criteria western) = 1 ->
  QUOTATION_TYPE (criteria east_asian) = 2 ->
  ((forall c, In c text -> matches simp_to_trad_re c = false) ->
   (remapped <- replace_quotations western text ;;
    replace_quotations east_asian remapped) = Ok text)
  /\ ((forall c, In c text -> matches trad_to_simp_re c = false) ->
      (remapped <- replace_quotations east_asian text ;;
       replace_quotations western remapped) = Ok text).
Proof.
  intros Hw He; split; intros Hfree.
  - rewrite (replace_quotations_western western text Hw); simpl.
    rewrite (replace_quotations_east_asian east_asian _ He).
    f_equal; rewrite map_map; rewrite <- (map_id text) at 2.
    apply map_ext_in; intros c Hc; apply western_then_east_asian, Hfree, Hc.
  - rewrite (replace_quotations_east_asian east_asian text He); simpl.
    rewrite (replace_quotations_western western _ Hw).
    f_equal; rewrite map_map; rewrite <- (map_id text) at 2.
    apply map_ext_in; intros c Hc; apply east_asian_then_western, Hfree, Hc.
Qed.

Lemma quote_remapping_round_trip_witness :
  (remapped <- replace_quotations
                 (new Sample.quotes_only_criteria) [0x300C; 0x41; 0x300D]%N ;;
   replace_quotations
     (new (mkCriteria 0 0 0 0 true 2 0 false [] None)) remapped)
  = Ok [0x300C; 0x41; 0x300D]%N.
Proof.
  apply (proj1 (quote_remapping_round_trip
                  (new Sample.quotes_only_criteria)
                  (new (mkCriteria 0 0 0 0 true 2 0 false [] None))
                  [0x300C; 0x41; 0x300D]%N eq_refl eq_refl)).
  intros c [<-|[<-|[<-|[]]]]; reflexivity.
Defined.

(** Remapping to Western quotes leaves no corner bracket behind, and
    remapping again changes nothing more. *)
Theorem western_remap_complete (self : t) (text : pystr) :
  QUOTATION_TYPE (criteria self) = 1 ->
  exists remapped,
    replace_quotations self text = Ok remapped
    /\ List.length remapped = List.length text
    /\ (forall c, In c remapped -> matches trad_to_simp_re c = false)
    /\ replace_quotations self remapped = Ok remapped.
Proof.
  intros H; rewrite (replace_quotations_western self text H).
  eexists; split; [reflexivity|].
  assert (Hfree : forall c, In c (List.map (translate trad_to_simp_re
                                               trad_to_simp_quotes) text) ->
                            matches trad_to_simp_re c = false).
  { intros c Hc; apply in_map_iff in Hc; destruct Hc as (x & <- & _).
    unfold translate; destruct (matches trad_to_simp_re x) eqn:Hm;
      [|exact Hm].
    apply existsb_eqb_In in Hm; simpl in Hm.
    destruct Hm as [<-|[<-|[<-|[<-|[]]]]]; reflexivity. }
  split; [apply length_map|]; split; [exact Hfree|].
  rewrite (replace_quotations_western self _ H); f_equal.
  rewrite <- (map_id (List.map _ text)) at 2.
  apply map_ext_in; intros c Hc; unfold translate.
  rewrite (Hfree c Hc); reflexivity.
Qed.

Lemma western_remap_complete_witness :
  exists remapped,
    replace_quotations (new Sample.quotes_only_criteria) [0x300E; 0x300F]%N
    = Ok remapped
    /\ List.length remapped = 2%nat
    /\ (forall c, In c remapped -> matches trad_to_simp_re c = false)
    /\ replace_quotations (new Sample.quotes_only_criteria) remapped
       = Ok remapped.
Proof.
  apply (western_remap_complete (new Sample.quotes_only_criteria)
                                [0x300E; 0x300F]%N eq_refl).
Defined.

End TableMore.

(* ================================================================== *)
(** ** The punctuation tables *)

Module PunctuationMore.
Import Tables Translation Gui GuiFacts Closed HTML_TextProcessor TableMore.

Lemma dict_set_fresh (d : dict) (k v : char) :
  ~ In k (keys d) -> dict_set d k v = d ++ [(k, v)].
Proof.
  induction d as [|[k' v'] d IH]; simpl; intros Hk; [reflexivity|].
  destruct (N.eqb_spec k' k) as [->|Hne]; [tauto|].
  rewrite IH; [reflexivity | tauto].
Qed.

Lemma dict_get_In (d : dict) (k v : char) :
  NoDup (keys d) -> In (k, v) d -> dict_get d k = Some v.
Proof.
  induction d as [|[k' v'] d IH]; simpl; intros Hnd Hin; [tauto|].
  inversion Hnd as [|? ? Hk' Hd]; subst.
  destruct Hin as [Heq|Hin].
  - injection Heq as -> ->; rewrite N.eqb_refl; reflexivity.
  - destruct (N.eqb_spec k' k) as [->|Hne]; [|auto].
    exfalso; apply Hk'; apply (in_map fst _ _ Hin).
Qed.

Lemma dict_get_not_key (d : dict) (k : char) :
  ~ In k (keys d) -> dict_get d k = None.
Proof.
  induction d as [|[k' v'] d IH]; simpl; intros Hk; [reflexivity|].
  destruct (N.eqb_spec k' k) as [->|Hne]; [tauto | apply IH; tauto].
Qed.

Lemma master_values_NoDup : NoDup (values _h2v_master_dict).
Proof. apply distinct_NoDup; vm_compute; reflexivity. Qed.

(** The loop of [build_h2v] over the keys of a part of the master table. *)
Lemma h2v_loop_filter (omit_set : list char) (part acc : dict) :
  (forall k v, In (k, v) part -> dict_get _h2v_master_dict k = Some v) ->
  NoDup (keys part) ->
  (forall k, In k (keys part) -> ~ In k (keys acc)) ->
  fold_left (h2v_step omit_set) (keys part) acc
  = acc ++ List.filter (fun kv => negb (in_set omit_set (fst kv))) part.
Proof.
  revert acc; induction part as [|[k v] part IH]; intros acc Hget Hnd Hfresh;
    simpl; [symmetry; apply app_nil_r|].
  inversion Hnd as [|? ? Hk Hpart]; subst.
  unfold h2v_step at 2.
  rewrite (Hget k v (or_introl eq_refl)).
  destruct (negb (in_set omit_set k)) eqn:Hom; simpl.
  - rewrite dict_set_fresh by (apply Hfresh; left; reflexivity).
    rewrite IH; [rewrite <- app_assoc; reflexivity| | |].
    + intros k' v' Hin; apply Hget; right; exact Hin.
    + exact Hpart.
    + intros k' Hin Hacc; unfold keys in Hacc; rewrite map_app in Hacc.
      apply in_app_or in Hacc; destruct Hacc as [Hacc|[<-|[]]].
      * apply (Hfresh k'); [right; exact Hin | exact Hacc].
      * apply Hk, Hin.
  - apply IH.
    + intros k' v' Hin; apply Hget; right; exact Hin.
    + exact Hpart.
    + intros k' Hin; apply Hfresh; right; exact Hin.
Qed.

Lemma invert_loop_mirror (d acc : dict) :
  NoDup (values d) ->
  (forall v, In v (values d) -> ~ In v (keys acc)) ->
  fold_left (fun v2h kv => dict_set v2h (snd kv) (fst kv)) d acc
  = acc ++ mirror d.
Proof.
  revert acc; induction d as [|[k v] d IH]; intros acc Hnd Hfresh; simpl;
    [symmetry; apply app_nil_r|].
  inversion Hnd as [|? ? Hv Hd]; subst.
  rewrite dict_set_fresh by (apply Hfresh; left; reflexivity).
  rewrite IH; [rewrite <- app_assoc; reflexivity | exact Hd |].
  intros v' Hin Hacc; unfold keys in Hacc; rewrite map_app in Hacc.
  apply in_app_or in Hacc; destruct Hacc as [Hacc|[<-|[]]].
  - apply (Hfresh v'); [right; exact Hin | exact Hacc].
  - apply Hv, Hin.
Qed.

Lemma kept_values_NoDup (omit_set : list char) : NoDup (values (kept omit_set)).
Proof.
  unfold kept, values.
  assert (H : forall d : dict, NoDup (List.map snd d) ->
              NoDup (List.map snd
                       (List.filter
                          (fun kv => negb (in_set omit_set (fst kv))) d))).
  { induction d as [|[k v] d IH]; simpl; intros Hnd; [constructor|].
    inversion Hnd as [|? ? Hv Hd]; subst.
    destruct (negb (in_set omit_set k)); simpl; [|auto].
    constructor; [|auto].
    intros Hin; apply Hv.
    apply in_map_iff in Hin; destruct Hin as (x & Hx & Hin).
    apply filter_In in Hin; destruct Hin as [Hin _].
    apply in_map_iff; exists x; auto. }
  apply H, master_values_NoDup.
Qed.

Lemma tables_in_closed_form_spec (omit_set : list char) :
  build_h2v omit_set = kept omit_set
  /\ invert (build_h2v omit_set) = mirror (kept omit_set).
Proof.
  assert (H1 : build_h2v omit_set = kept omit_set).
  { unfold build_h2v, kept.
    rewrite (h2v_loop_filter omit_set _h2v_master_dict []); [reflexivity| | |].
    - intros k v Hin; apply dict_get_In; [apply master_keys_NoDup | exact Hin].
    - apply master_keys_NoDup.
    - intros k _ []. }
  split; [exact H1|].
  rewrite H1; unfold invert.
  rewrite invert_loop_mirror; [reflexivity | apply kept_values_NoDup |].
  intros v _ [].
Qed.

(** The two loops of [getCriteria] in closed form: the table for
    vertical text is the master table without the omitted marks, in the
    order of the master table, and the table for horizontal text is that
    table read from right to left. *)
Theorem tables_in_closed_form (omit_set : list char) :
  build_h2v omit_set = kept omit_set
  /\ invert (build_h2v omit_set) = mirror (kept omit_set).
Proof. exact (tables_in_closed_form_spec omit_set). Qed.

Lemma kept_get (omit_set : list char) (c : char) :
  dict_get (kept omit_set) c
  = if in_set omit_set c then None else dict_get _h2v_master_dict c.
Proof.
  unfold kept.
  induction _h2v_master_dict as [|[k v] d IH]; cbn [filter dict_get fst].
  - destruct (in_set omit_set c); reflexivity.
  - destruct (N.eqb_spec k c) as [->|Hne].
    + destruct (in_set omit_set c) eqn:Hom; cbn [negb dict_get].
      * exact IH.
      * rewrite N.eqb_refl; reflexivity.
    + destruct (negb (in_set omit_set k)); cbn [dict_get]; [|exact IH].
      destruct (N.eqb_spec k c); [congruence | exact IH].
Qed.

Lemma matches_keys (d : dict) (c : char) :
  matches (keys d) c = true <-> dict_get d c <> None.
Proof.
  unfold matches; rewrite existsb_eqb_In; split.
  - intros Hin; destruct (dict_get_keys d c Hin) as [v ->]; discriminate.
  - intros Hget; destruct (in_dec N.eq_dec c (keys d)) as [Hin|Hout];
      [exact Hin|].
    exfalso; apply Hget, dict_get_not_key, Hout.
Qed.

Lemma translate_keys (d : dict) (c : char) :
  translate (keys d) d c
  = match dict_get d c with Some v => v | None => c end.
Proof.
  unfold translate; destruct (matches (keys d) c) eqn:Hm; [reflexivity|].
  destruct (dict_get d c) eqn:Hg; [|reflexivity].
  assert (Ht : matches (keys d) c = true)
    by (apply matches_keys; congruence).
  congruence.
Qed.

Lemma multiple_replace_own_keys (d : dict) (text : pystr) :
  d <> [] ->
  multiple_replace (compile_group d) d text
  = Ok (List.map
          (fun c => match dict_get d c with Some v => v | None => c end) text).
Proof.
  intros Hd.
  rewrite (proj2 (multiple_replace_returns_spec (compile_group d) d text)).
  - f_equal; apply map_ext; intros c; apply translate_keys.
  - destruct d; [congruence | discriminate].
  - intros c _ Hm; apply matches_keys, Hm.
Qed.

(** The criteria of a vertical run from preferences the dialogs save. *)
Lemma vertical_criteria (prefs : Prefs) :
  update_punctuation prefs = true ->
  output_orientation prefs = 2 ->
  List.length (punc_omits prefs) <> List.length (keys _h2v_master_dict) ->
  PUNC_DICT (getCriteria prefs) = kept (punc_omits prefs)
  /\ PUNC_REGEX (getCriteria prefs)
     = Some (compile_group (kept (punc_omits prefs))).
Proof.
  intros Hup Ho Hlen; unfold getCriteria; cbv zeta.
  rewrite Hup, Ho.
  destruct (Z.eqb_spec (Z.of_nat (Datatypes.length (punc_omits prefs)))
                       (Z.of_nat (Datatypes.length (keys _h2v_master_dict))))
    as [E|E]; [lia|].
  cbn [andb negb Z.eqb PUNC_DICT PUNC_REGEX].
  rewrite (proj1 (tables_in_closed_form_spec _)); split; reflexivity.
Qed.

Lemma horizontal_criteria (prefs : Prefs) :
  update_punctuation prefs = true ->
  output_orientation prefs = 1 ->
  List.length (punc_omits prefs) <> List.length (keys _h2v_master_dict) ->
  PUNC_DICT (getCriteria prefs) = mirror (kept (punc_omits prefs))
  /\ PUNC_REGEX (getCriteria prefs)
     = Some (compile_group (mirror (kept (punc_omits prefs)))).
Proof.
  intros Hup Ho Hlen; unfold getCriteria; cbv zeta.
  rewrite Hup, Ho.
  destruct (Z.eqb_spec (Z.of_nat (Datatypes.length (punc_omits prefs)))
                       (Z.of_nat (Datatypes.length (keys _h2v_master_dict))))
    as [E|E]; [lia|].
  cbn [andb negb Z.eqb PUNC_DICT PUNC_REGEX].
  rewrite (proj2 (tables_in_closed_form_spec _)); split; reflexivity.
Qed.

Section WithCollaborators.
Context {TC : TextConverter} {UD : UnicodeData}.

Lemma vertical_punctuation_spec (self : t) (prefs : Prefs) (text : pystr) :
  criteria self = getCriteria prefs ->
  update_punctuation prefs = true ->
  output_orientation prefs = 2 ->
  saved_by_dialog (punc_omits prefs) = true ->
  List.length (punc_omits prefs) <> List.length (keys _h2v_master_dict) ->
  punctuation_step self text
  = Ok (List.map (to_vertical (punc_omits prefs)) text).
Proof.
  intros Hk Hup Ho Hwf Hlen; unfold punctuation_step; rewrite Hk.
  destruct (vertical_criteria prefs Hup Ho Hlen) as [-> ->].
  rewrite multiple_replace_own_keys.
  - f_equal; apply map_ext; intros c; unfold to_vertical.
    rewrite kept_get; destruct (in_set (punc_omits prefs) c); reflexivity.
  - rewrite <- (proj1 (tables_in_closed_form_spec _)).
    apply build_h2v_nonempty; assumption.
Qed.

(** For vertical text the punctuation step replaces every mark of the
    master table that is not omitted by its vertical form and leaves
    every other character, the omitted marks among them, as it is. *)
Theorem vertical_punctuation (self : t) (prefs : Prefs) (text : pystr) :
  criteria self = getCriteria prefs ->
  update_punctuation prefs = true ->
  output_orientation prefs = 2 ->
  saved_by_dialog (punc_omits prefs) = true ->
  List.length (punc_omits prefs) <> List.length (keys _h2v_master_dict) ->
  punctuation_step self text
  = Ok (List.map (to_vertical (punc_omits prefs)) text).
Proof. exact (vertical_punctuation_spec self prefs text). Qed.

End WithCollaborators.

Lemma vertical_punctuation_witness :
  punctuation_step Sample.vertical_parser [0x3002; 0x300C; 0x41]%N
  = Ok (List.map (to_vertical PUNC_OMITS) [0x3002; 0x300C; 0x41]%N).
Proof.
  apply (vertical_punctuation
           Sample.vertical_parser (mkPrefs 0 1 0 0 true 2 2 true PUNC_OMITS));
    try reflexivity.
  vm_compute; discriminate.
Defined.

End PunctuationMore.

(* ================================================================== *)
(** ** Vertical and horizontal punctuation, one after the other *)

Module PunctuationRoundTrip.
Import Tables Translation Gui GuiFacts Closed HTML_TextProcessor TableMore
       PunctuationMore HandlerFacts.

Lemma kept_In (omit_set : list char) (k v : char) :
  In (k, v) (kept omit_set) <->
  in_set omit_set k = false /\ dict_get _h2v_master_dict k = Some v.
Proof.
  unfold kept; rewrite filter_In; cbn [fst]; rewrite negb_true_iff; split.
  - intros [Hin Hom]; split; [exact Hom|].
    apply dict_get_In; [apply master_keys_NoDup | exact Hin].
  - intros [Hom Hget]; split; [|exact Hom].
    clear Hom; induction _h2v_master_dict as [|[k' v'] d IH];
      simpl in *; [discriminate|].
    destruct (N.eqb_spec k' k) as [->|Hne]; [left; congruence | right; auto].
Qed.

Lemma values_In (d : dict) (c : char) :
  In c (values d) -> exists k, In (k, c) d.
Proof.
  unfold values; intros H; apply in_map_iff in H.
  destruct H as ([k v] & Hv & Hkv); cbn [snd] in Hv; subst v.
  exists k; exact Hkv.
Qed.

Lemma mirror_keys (d : dict) : keys (mirror d) = values d.
Proof. unfold keys, mirror, values; rewrite map_map; reflexivity. Qed.

Lemma mirror_get (omit_set : list char) (k v : char) :
  In (k, v) (kept omit_set) -> dict_get (mirror (kept omit_set)) v = Some k.
Proof.
  intros Hin; apply dict_get_In.
  - rewrite mirror_keys; apply kept_values_NoDup.
  - unfold mirror; apply in_map_iff; exists (k, v); split; [reflexivity|exact Hin].
Qed.

Lemma mirror_get_None (omit_set : list char) (c : char) :
  ~ In c (values (kept omit_set)) -> dict_get (mirror (kept omit_set)) c = None.
Proof. intros H; apply dict_get_not_key; rewrite mirror_keys; exact H. Qed.

Lemma filter_values (f : char * char -> bool) (d : dict) (c : char) :
  In c (values (List.filter f d)) -> In c (values d).
Proof.
  intros H; destruct (values_In _ _ H) as [k Hk].
  apply filter_In in Hk; destruct Hk as [Hk _].
  unfold values; apply in_map_iff; exists (k, c); split; [reflexivity|exact Hk].
Qed.

Lemma kept_values_master (omit_set : list char) (c : char) :
  In c (values (kept omit_set)) -> In c (values _h2v_master_dict).
Proof. apply filter_values. Qed.

(** What horizontal punctuation does to one character. *)
Lemma horizontal_step (omit_set : list char) (text : pystr) :
  kept omit_set <> [] ->
  multiple_replace (compile_group (mirror (kept omit_set)))
                   (mirror (kept omit_set)) text
  = Ok (List.map
          (fun c => match dict_get (mirror (kept omit_set)) c with
                    | Some k => k
                    | None => c
                    end) text).
Proof.
  intros Hne; apply multiple_replace_own_keys.
  destruct (kept omit_set); [congruence | discriminate].
Qed.

Lemma no_table (prefs : Prefs) :
  update_punctuation prefs = true ->
  List.length (punc_omits prefs) = List.length (keys _h2v_master_dict) ->
  PUNC_REGEX (getCriteria prefs) = None.
Proof.
  intros Hup Hlen.
  unfold getCriteria; cbv zeta; rewrite Hup, Hlen, Z.eqb_refl; reflexivity.
Qed.

(** One character through the vertical and then the horizontal table. *)
Lemma down_and_back (omit_set : list char) (c : char) :
  ~ In c (values _h2v_master_dict) ->
  match dict_get (mirror (kept omit_set)) (to_vertical omit_set c) with
  | Some k => k
  | None => to_vertical omit_set c
  end = c.
Proof.
  intros Hfree; unfold to_vertical.
  destruct (in_set omit_set c) eqn:Hin.
  - rewrite mirror_get_None; [reflexivity|].
    intros H; apply Hfree, (kept_values_master _ _ H).
  - destruct (dict_get _h2v_master_dict c) as [v|] eqn:Hget.
    + rewrite (mirror_get _ c v); [reflexivity|].
      apply kept_In; split; assumption.
    + rewrite mirror_get_None; [reflexivity|].
      intros H; apply Hfree, (kept_values_master _ _ H).
Qed.

(** One character through the horizontal and then the vertical table. *)
Lemma back_and_down (omit_set : list char) (c : char) :
  (In c (keys _h2v_master_dict) -> in_set omit_set c = true) ->
  to_vertical omit_set
    (match dict_get (mirror (kept omit_set)) c with
     | Some k => k
     | None => c
     end) = c.
Proof.
  intros Hfree.
  destruct (in_dec N.eq_dec c (values (kept omit_set))) as [Hval|Hval].
  - destruct (values_In _ _ Hval) as [k Hkv].
    rewrite (mirror_get _ k c Hkv).
    apply kept_In in Hkv; destruct Hkv as [Hom Hget].
    unfold to_vertical; rewrite Hom, Hget; reflexivity.
  - rewrite (mirror_get_None _ _ Hval); unfold to_vertical.
    destruct (in_set omit_set c) eqn:Hin; [reflexivity|].
    destruct (dict_get _h2v_master_dict c) as [v|] eqn:Hget; [|reflexivity].
    assert (Hkey : In c (keys _h2v_master_dict)).
    { destruct (in_dec N.eq_dec c (keys _h2v_master_dict)) as [H|H];
        [exact H|].
      rewrite (dict_get_not_key _ _ H) in Hget; discriminate. }
    specialize (Hfree Hkey); congruence.
Qed.

Section WithCollaborators.
Context {TC : TextConverter} {UD : UnicodeData}.

Lemma horizontal_punctuation (self : t) (prefs : Prefs) (text : pystr) :
  criteria self = getCriteria prefs ->
  update_punctuation prefs = true ->
  output_orientation prefs = 1 ->
  saved_by_dialog (punc_omits prefs) = true ->
  List.length (punc_omits prefs) <> List.length (keys _h2v_master_dict) ->
  punctuation_step self text
  = Ok (List.map
          (fun c => match dict_get (mirror (kept (punc_omits prefs))) c with
                    | Some k => k
                    | None => c
                    end) text).
Proof.
  intros Hk Hup Ho Hwf Hlen; unfold punctuation_step; rewrite Hk.
  destruct (horizontal_criteria prefs Hup Ho Hlen) as [-> ->].
  apply horizontal_step.
  rewrite <- (proj1 (tables_in_closed_form_spec _)).
  apply build_h2v_nonempty; assumption.
Qed.

(** The tables built for vertical and for horizontal text from the same
    omission string undo each other.  A text without vertical
    presentation forms that goes through the vertical and then the
    horizontal punctuation step is the text again; a text whose marks of
    the master table are all omitted ones comes back from the horizontal
    and then the vertical step. *)
Theorem punctuation_round_trip (vertical horizontal : t)
        (prefs_v prefs_h : Prefs) (text : pystr) :
  criteria vertical = getCriteria prefs_v ->
  criteria horizontal = getCriteria prefs_h ->
  punc_omits prefs_h = punc_omits prefs_v ->
  update_punctuation prefs_v = true -> update_punctuation prefs_h = true ->
  output_orientation prefs_v = 2 -> output_orientation prefs_h = 1 ->
  saved_by_dialog (punc_omits prefs_v) = true ->
  ((forall c, In c text -> ~ In c (values _h2v_master_dict)) ->
   (marked <- punctuation_step vertical text ;;
    punctuation_step horizontal marked) = Ok text)
  /\ ((forall c, In c text -> In c (keys _h2v_master_dict) ->
                 in_set (punc_omits prefs_v) c = true) ->
      (marked <- punctuation_step horizontal text ;;
       punctuation_step vertical marked) = Ok text).
Proof.
  intros Hkv Hkh Hom Hupv Huph Hov Hoh Hwf.
  destruct (Nat.eq_dec (List.length (punc_omits prefs_v))
                       (List.length (keys _h2v_master_dict))) as [Hlen|Hlen].
  { (* no table at all *)
    pose proof (no_table prefs_v Hupv Hlen) as Hv.
    assert (Hh : PUNC_REGEX (getCriteria prefs_h) = None)
      by (apply (no_table prefs_h Huph); rewrite Hom; exact Hlen).
    unfold punctuation_step; rewrite Hkv, Hkh, Hv, Hh; split; reflexivity. }
  assert (Hwf' : saved_by_dialog (punc_omits prefs_h) = true)
    by (rewrite Hom; exact Hwf).
  assert (Hlen' : List.length (punc_omits prefs_h)
                  <> List.length (keys _h2v_master_dict))
    by (rewrite Hom; exact Hlen).
  split; intros Hfree.
  - rewrite (vertical_punctuation_spec vertical prefs_v text Hkv Hupv Hov Hwf Hlen).
    rewrite bind_Ok.
    rewrite (horizontal_punctuation horizontal prefs_h _ Hkh Huph Hoh Hwf' Hlen').
    rewrite Hom, map_map; f_equal.
    rewrite <- (map_id text) at 2.
    apply map_ext_in; intros c Hc; apply down_and_back, Hfree, Hc.
  - rewrite (horizontal_punctuation horizontal prefs_h text Hkh Huph Hoh Hwf' Hlen').
    rewrite bind_Ok.
    rewrite (vertical_punctuation_spec vertical prefs_v _ Hkv Hupv Hov Hwf Hlen).
    rewrite Hom, map_map; f_equal.
    rewrite <- (map_id text) at 2.
    apply map_ext_in; intros c Hc; apply back_and_down, Hfree, Hc.
Qed.

(** An omission string that names every mark of the master table and is
    not as long as the table (one the dialogs cannot save) gives, for a
    vertical or horizontal run with punctuation updates, a matcher
    without alternatives and an empty table: every text run in scope
    that is not whitespace ends the walk in a [KeyError] for the empty
    string. *)
Theorem all_marks_omitted_by_hand (self : t) (prefs : Prefs) (text : pystr) :
  criteria self = getCriteria prefs ->
  update_punctuation prefs = true ->
  output_orientation prefs = 1 \/ output_orientation prefs = 2 ->
  (forall k, In k (keys _h2v_master_dict) -> In k (punc_omits prefs)) ->
  List.length (punc_omits prefs) <> List.length (keys _h2v_master_dict) ->
  converting self = true -> isspace text = false ->
  handle_data self text = Raise (KeyError []).
Proof.
  intros Hk Hup Ho Hall Hlen Hc Hs.
  assert (Hempty : build_h2v (punc_omits prefs) = [])
    by (apply (proj2 (build_h2v_empty_iff _)), Hall).
  assert (Hre : PUNC_REGEX (getCriteria prefs) = Some []
                /\ OUTPUT_ORIENTATION (getCriteria prefs)
                   = output_orientation prefs).
  { unfold getCriteria; cbv zeta; rewrite Hup, Hempty.
    destruct (Z.eqb_spec (Z.of_nat (Datatypes.length (punc_omits prefs)))
                         (Z.of_nat (Datatypes.length (keys _h2v_master_dict))))
      as [E|E]; [lia|].
    destruct Ho as [-> | ->]; split; reflexivity. }
  destruct Hre as [Hre Hor].
  assert (Hp : forall t0, punctuation_step self t0 = Raise (KeyError [])).
  { intros t0; unfold punctuation_step; rewrite Hk, Hre.
    apply (proj2 (multiple_replace_raises_spec [] _ t0 [] 0%N)). }
  rewrite (handle_data_in_scope self text Hs Hc); unfold rewrite_run; cbv zeta.
  rewrite Hk, Hor.
  destruct Ho as [-> | ->]; cbn [Z.eqb orb].
  - rewrite Hp; reflexivity.
  - destruct (quote_step_total self text) as [t1 ->]; simpl.
    rewrite Hp; reflexivity.
Qed.

End WithCollaborators.

Lemma punctuation_round_trip_witness :
  (marked <- punctuation_step Sample.vertical_parser [0x300C; 0x3002; 0x41]%N ;;
   punctuation_step Sample.horizontal_parser marked)
  = Ok [0x300C; 0x3002; 0x41]%N.
Proof.
  apply (proj1 (punctuation_round_trip
                  Sample.vertical_parser Sample.horizontal_parser
                  (mkPrefs 0 1 0 0 true 2 2 true PUNC_OMITS)
                  (mkPrefs 0 1 0 0 true 1 1 true PUNC_OMITS)
                  [0x300C; 0x3002; 0x41]%N
                  eq_refl eq_refl eq_refl eq_refl eq_refl eq_refl eq_refl
                  eq_refl)).
  intros c [<-|[<-|[<-|[]]]]; vm_compute; intuition discriminate.
Defined.

Lemma all_marks_omitted_by_hand_witness :
  handle_data
    (TC := Stub.bracing_converter)
    (new (getCriteria
            (mkPrefs 0 1 0 0 true 0 2 true (keys _h2v_master_dict ++ [0x41]%N))))
    (lit "a")
  = Raise (KeyError []).
Proof.
  apply (all_marks_omitted_by_hand
           (TC := Stub.bracing_converter)
           (new (getCriteria
                   (mkPrefs 0 1 0 0 true 0 2 true
                            (keys _h2v_master_dict ++ [0x41]%N))))
           (mkPrefs 0 1 0 0 true 0 2 true (keys _h2v_master_dict ++ [0x41]%N))).
  - reflexivity.
  - reflexivity.
  - right; reflexivity.
  - intros k Hk; apply in_or_app; left; exact Hk.
  - vm_compute; discriminate.
  - reflexivity.
  - reflexivity.
Defined.

End PunctuationRoundTrip.

(* ================================================================== *)
(** ** The output, fragment by fragment *)

Module OutputMore.
Import Tables Translation HTML_TextProcessor HandlerFacts WalkFacts Fragments
       TableMore IdentityFacts.

Lemma lstrip_whitespace (padding rest : pystr) :
  forallb is_whitespace padding = true ->
  lstrip (padding ++ rest) = lstrip rest.
Proof.
  induction padding as [|c padding IH]; simpl; [reflexivity|].
  intros H; apply andb_true_iff in H; destruct H as [-> H]; auto.
Qed.

Lemma lstrip_solid (c : char) (rest : pystr) :
  is_whitespace c = false -> lstrip (c :: rest) = c :: rest.
Proof. intros H; simpl; rewrite H; reflexivity. Qed.

Lemma forallb_rev {A : Type} (f : A -> bool) (l : list A) :
  forallb f (rev l) = forallb f l.
Proof.
  induction l as [|x l IH]; [reflexivity|].
  simpl; rewrite forallb_app, IH; simpl.
  rewrite andb_true_r; apply andb_comm.
Qed.

(** [strip] takes whitespace off both ends of a word that starts and
    ends with other characters: a sentinel comment may be padded. *)
Lemma strip_padded (before after middle : pystr) (first last : char) :
  forallb is_whitespace before = true ->
  forallb is_whitespace after = true ->
  is_whitespace first = false -> is_whitespace last = false ->
  strip (before ++ (first :: middle ++ [last]) ++ after)
  = first :: middle ++ [last].
Proof.
  intros Hb Ha Hf Hl; unfold strip.
  rewrite (lstrip_whitespace before _ Hb).
  set (word := first :: middle ++ [last]).
  assert (H1 : lstrip (word ++ after) = word ++ after)
    by (subst word; cbn [app lstrip]; rewrite Hf; reflexivity).
  rewrite H1, rev_app_distr.
  rewrite lstrip_whitespace by (rewrite forallb_rev; exact Ha).
  assert (H2 : lstrip (rev word) = rev word).
  { subst word; cbn [rev]; rewrite rev_app_distr; cbn [rev app lstrip].
    rewrite Hl; reflexivity. }
  rewrite H2; apply rev_involutive.
Qed.

Section WithCollaborators.
Context {TC : TextConverter} {UD : UnicodeData}.

(** A start or end sentinel is recognised with any whitespace around its
    name, and then sets the scope flag whatever it was before. *)
Theorem padded_sentinels (self : t) (before after : pystr) :
  INPUT_SOURCE (criteria self) = 2 ->
  forallb is_whitespace before = true ->
  forallb is_whitespace after = true ->
  converting (handle_comment self (before ++ seltext_start_tag ++ after))
  = true
  /\ converting (handle_comment self (before ++ seltext_end_tag ++ after))
     = false.
Proof.
  intros Hsrc Hb Ha; unfold handle_comment; rewrite Hsrc.
  assert (Hs : strip (before ++ seltext_start_tag ++ after) = seltext_start_tag).
  { apply (strip_padded before after (lit "I_SELTEXT_STAR") 80%N 84%N);
      auto. }
  assert (He : strip (before ++ seltext_end_tag ++ after) = seltext_end_tag).
  { apply (strip_padded before after (lit "I_SELTEXT_EN") 80%N 68%N);
      auto. }
  rewrite Hs, He; split; reflexivity.
Qed.

Lemma re_sub_length (re : alt_regex) (d : dict) (a b : pystr) :
  re_sub re (getitem d) a = Ok b -> List.length b = List.length a.
Proof.
  intros H; apply (proj1 (multiple_replace_returns_spec re d a) b H).
Qed.

(** Without script conversion a text run keeps its length: quote and
    punctuation rewriting replace characters one for one. *)
Theorem rewrite_keeps_length (self : t) (text rewritten : pystr) :
  CONVERSION_TYPE (criteria self) = 0 ->
  rewrite_run self text = Ok rewritten ->
  List.length rewritten = List.length text.
Proof.
  intros Hmode.
  assert (Hq : forall a b, quote_step self a = Ok b ->
                           List.length b = List.length a).
  { intros a b; unfold quote_step.
    destruct (negb (QUOTATION_TYPE (criteria self) =? 0));
      [|intros H; injection H as <-; reflexivity].
    unfold replace_quotations.
    destruct (QUOTATION_TYPE (criteria self) =? 1);
      [apply re_sub_length|].
    destruct (QUOTATION_TYPE (criteria self) =? 2);
      [apply re_sub_length|].
    intros H; injection H as <-; reflexivity. }
  assert (Hp : forall a b, punctuation_step self a = Ok b ->
                           List.length b = List.length a).
  { intros a b; unfold punctuation_step.
    destruct (PUNC_REGEX (criteria self)); [apply re_sub_length|].
    intros H; injection H as <-; reflexivity. }
  unfold rewrite_run, script_step; cbv zeta; rewrite Hmode; cbn [Z.eqb negb].
  destruct (OUTPUT_ORIENTATION (criteria self) =? 1).
  - destruct (punctuation_step self text) as [t1|e] eqn:H1; simpl;
      [|discriminate].
    destruct (quote_step self t1) as [t2|e] eqn:H2; simpl; [|discriminate].
    intros H; injection H as <-.
    rewrite (Hq _ _ H2), (Hp _ _ H1); reflexivity.
  - destruct (_ || _).
    + destruct (quote_step self text) as [t1|e] eqn:H1; simpl;
        [|discriminate].
      destruct (punctuation_step self t1) as [t2|e] eqn:H2; simpl;
        [|discriminate].
      intros H; injection H as <-.
      rewrite (Hp _ _ H2), (Hq _ _ H1); reflexivity.
    + destruct (punctuation_step self text) as [t1|e] eqn:H1; simpl;
        [|discriminate].
      intros H; injection H as <-; apply (Hp _ _ H1).
Qed.

Lemma dispatch_appends (self self' : t) (ev : event) :
  dispatch self ev = Ok self' ->
  exists fragments,
    result self' = result self ++ fragments
    /\ (1 <= List.length fragments <= 2)%nat
    /\ (force_stylesheet self = false -> List.length fragments = 1%nat).
Proof.
  destruct ev; simpl; intros H.
  all: try (injection H as <-; eexists; split; [reflexivity|];
            simpl; split; [lia|reflexivity]).
  - (* self-closing tag *)
    injection H as <-; unfold handle_startendtag.
    destruct (_ && _); [destruct (language self)|];
      eexists; (split; [reflexivity|]); simpl; split; try lia; reflexivity.
  - (* end tag *)
    injection H as <-; unfold handle_endtag.
    destruct (str_eqb tag (lit "head") && force_stylesheet self) eqn:E;
      cbv beta iota zeta.
    + exists [stylesheet_link; lit "</" ++ tag ++ lit ">"].
      split; [cbn [result append]; rewrite <- app_assoc; reflexivity|].
      split; [simpl; lia|].
      intros Hf; rewrite Hf, andb_false_r in E; discriminate.
    + eexists; split; [reflexivity|]; simpl; split; [lia|reflexivity].
  - (* text *)
    unfold handle_data in H; destruct (isspace text).
    + injection H as <-; eexists; split; [reflexivity|].
      simpl; split; [lia|reflexivity].
    + match type of H with
      | (x <- ?c ;; _) = _ => destruct c as [t1|e]; simpl in H; [|discriminate]
      end.
      destruct (_ && _) in H; injection H as <-;
        eexists; (split; [reflexivity|]); simpl; split; try lia; reflexivity.
  - (* comment *)
    injection H as <-; unfold handle_comment.
    destruct (_ && str_eqb (strip data) seltext_start_tag);
      [eexists; split; [reflexivity|]; simpl; split; [lia|reflexivity]|].
    destruct (_ && str_eqb (strip data) seltext_end_tag);
      eexists; (split; [reflexivity|]); simpl; split; try lia; reflexivity.
Qed.

(** The walk only appends: what has been written is never touched
    again, and every event adds one fragment to the output, or two for
    an end tag when the stylesheet flag is set. *)
Theorem feed_only_appends (self self' : t) (doc : list event) :
  feed self doc = Ok self' ->
  exists fragments,
    result self' = result self ++ fragments
    /\ (List.length doc <= List.length fragments <= 2 * List.length doc)%nat
    /\ (force_stylesheet self = false ->
        List.length fragments = List.length doc).
Proof.
  revert self; induction doc as [|ev doc IH]; intros self; simpl.
  - intros H; injection H as <-; exists []; rewrite app_nil_r.
    repeat split; simpl; lia.
  - destruct (dispatch self ev) as [s1|e] eqn:H1; simpl; [|discriminate].
    intros H2.
    destruct (dispatch_appends _ _ _ H1) as (f1 & Hr1 & Hn1 & Hf1).
    destruct (dispatch_same_setup _ _ _ H1) as (_ & _ & Hforce).
    destruct (IH s1 H2) as (f2 & Hr2 & Hn2 & Hf2).
    exists (f1 ++ f2); rewrite Hr2, Hr1, <- app_assoc.
    split; [reflexivity|]; rewrite length_app; split; [lia|].
    intros Hf; rewrite (Hf1 Hf), Hf2; [reflexivity | congruence].
Qed.

Lemma join_append (self : t) (text : pystr) :
  join (result (append self text)) = join (result self) ++ text.
Proof.
  unfold join; cbn [result append].
  rewrite concat_app; simpl; rewrite app_nil_r; reflexivity.
Qed.

(** With the stylesheet flag set and nothing to rewrite, the output is
    the text of the document with the stylesheet link put right before
    every end tag of the head, and nowhere else. *)
Theorem stylesheet_link_before_head_end (self : t) (doc : list event)
        (criteria : Criteria) :
  CONVERSION_TYPE criteria = 0 ->
  QUOTATION_TYPE criteria = 0 ->
  PUNC_REGEX criteria = None ->
  force_stylesheet self = true ->
  forallb plain doc = true ->
  processText self doc criteria = Ok (join (List.map linked_literal doc)).
Proof.
  intros Hmode Hquote Hpunc Hforce Hplain; unfold processText.
  assert (Hgen : forall (s : t) (d : list event),
             HTML_TextProcessor.criteria s = criteria ->
             force_stylesheet s = true -> forallb plain d = true ->
             exists s', feed s d = Ok s'
                        /\ join (result s')
                           = join (result s) ++ join (List.map linked_literal d)).
  { intros s d; revert s; induction d as [|ev d IH]; intros s Hk Hf Hp; simpl.
    - exists s; split; [reflexivity | symmetry; apply app_nil_r].
    - simpl in Hp; apply andb_true_iff in Hp; destruct Hp as [Hev Hp].
      assert (H1 : exists s1, dispatch s ev = Ok s1
                              /\ join (result s1)
                                 = join (result s) ++ linked_literal ev).
      { assert (Hm : CONVERSION_TYPE (HTML_TextProcessor.criteria s) = 0)
          by (rewrite Hk; exact Hmode).
        assert (Hq : QUOTATION_TYPE (HTML_TextProcessor.criteria s) = 0)
          by (rewrite Hk; exact Hquote).
        assert (Hpu : PUNC_REGEX (HTML_TextProcessor.criteria s) = None)
          by (rewrite Hk; exact Hpunc).
        destruct ev; simpl in Hev; try discriminate; simpl dispatch.
        - rewrite (handle_starttag_plain _ _ _ _ Hm Hev).
          eexists; split; [reflexivity | apply join_append].
        - rewrite (handle_startendtag_plain _ _ _ _ Hm).
          eexists; split; [reflexivity | apply join_append].
        - apply str_eqb_eq in Hev; subst endtag_text.
          eexists; split; [reflexivity|].
          unfold handle_endtag, linked_literal; rewrite Hf, andb_true_r.
          destruct (str_eqb tag (lit "head")); cbv beta iota zeta.
          + rewrite !join_append, <- app_assoc; reflexivity.
          + apply join_append.
        - rewrite (handle_data_plain _ _ Hm Hq Hpu).
          eexists; split; [reflexivity | apply join_append].
        - eexists; split; [reflexivity|].
          unfold handle_comment.
          destruct (_ && str_eqb (strip data) seltext_start_tag);
            [|destruct (_ && str_eqb (strip data) seltext_end_tag)];
            cbv beta iota zeta; rewrite join_append; reflexivity.
        - eexists; split; [reflexivity | apply join_append].
        - eexists; split; [reflexivity | apply join_append].
        - eexists; split; [reflexivity | apply join_append].
        - eexists; split; [reflexivity | apply join_append]. }
      destruct H1 as (s1 & H1 & Hr1); rewrite H1; simpl.
      destruct (dispatch_same_setup _ _ _ H1) as (Hk1 & _ & Hf1).
      destruct (IH s1) as (s2 & H2 & Hr2); try congruence.
      exists s2; split; [exact H2|].
      rewrite Hr2, Hr1, <- app_assoc; reflexivity. }
  destruct (Hgen (start self criteria) doc) as (s & Hfeed & Hres);
    try assumption; try reflexivity.
  rewrite Hfeed; simpl; rewrite Hres; reflexivity.
Qed.

End WithCollaborators.

Lemma strip_padded_witness :
  strip ([0x20; 0x0A]%N ++ (80%N :: lit "I" ++ [69%N]) ++ [0x09]%N)
  = 80%N :: lit "I" ++ [69%N].
Proof. apply strip_padded; reflexivity. Defined.

Lemma padded_sentinels_witness :
  converting
    (handle_comment (start (new Sample.region_criteria) Sample.region_criteria)
                    ([0x20; 0x0A]%N ++ seltext_start_tag ++ [0x3000]%N))
  = true
  /\ converting
       (handle_comment (new Sample.region_criteria)
                       ([0x20; 0x0A]%N ++ seltext_end_tag ++ [0x3000]%N))
     = false.
Proof.
  split.
  - apply (padded_sentinels
             (start (new Sample.region_criteria) Sample.region_criteria)
             [0x20; 0x0A]%N [0x3000]%N); reflexivity.
  - apply (padded_sentinels (new Sample.region_criteria)
                            [0x20; 0x0A]%N [0x3000]%N); reflexivity.
Defined.

Lemma rewrite_keeps_length_witness :
  List.length [0x201C; 0x41]%N = List.length [0x300C; 0x41]%N.
Proof.
  apply (rewrite_keeps_length
           (TC := Stub.bracing_converter)
           (new Sample.quotes_only_criteria) [0x300C; 0x41]%N [0x201C; 0x41]%N);
    reflexivity.
Defined.

Lemma feed_only_appends_witness :
  exists fragments,
    result (append (append (append (start (new Sample.quotes_only_criteria)
                                          Sample.quotes_only_criteria)
                                   (lit "a")) (lit "<?x>")) (lit "</p>"))
    = result (start (new Sample.quotes_only_criteria)
                    Sample.quotes_only_criteria) ++ fragments
    /\ (3 <= List.length fragments <= 2 * 3)%nat
    /\ (force_stylesheet (start (new Sample.quotes_only_criteria)
                                Sample.quotes_only_criteria) = false ->
        List.length fragments = 3%nat).
Proof.
  apply (feed_only_appends
           (TC := Stub.bracing_converter) (UD := Stub.ascii_data)
           (start (new Sample.quotes_only_criteria) Sample.quotes_only_criteria)
           _ [Data (lit "a"); Pi (lit "x"); EndTag (lit "p") (lit "</p>")]).
  reflexivity.
Defined.

Lemma stylesheet_link_before_head_end_witness :
  processText (TC := Stub.bracing_converter) (UD := Stub.ascii_data)
              (mk [] (mkCriteria 0 0 0 0 true 0 2 false [] None) true None true)
              [EndTag (lit "head") (lit "</head>");
               EndTag (lit "p") (lit "</p>")]
              (mkCriteria 0 0 0 0 true 0 2 false [] None)
  = Ok (join (List.map linked_literal
                       [EndTag (lit "head") (lit "</head>");
                        EndTag (lit "p") (lit "</p>")])).
Proof.
  apply (stylesheet_link_before_head_end
           (TC := Stub.bracing_converter) (UD := Stub.ascii_data));
    reflexivity.
Defined.

End OutputMore.

(* ================================================================== *)
(** ** Flow direction properties of one rule *)

Module CssFacts.
Import Css CssSpec.

Lemma str_eqb_neq (a b : pystr) : str_eqb a b = false <-> a <> b.
Proof.
  split.
  - intros H E; apply str_eqb_eq in E; congruence.
  - intros H; destruct (str_eqb a b) eqn:E; [|reflexivity].
    apply str_eqb_eq in E; contradiction.
Qed.

Lemma str_eqb_sym (a b : pystr) : str_eqb a b = str_eqb b a.
Proof.
  destruct (str_eqb a b) eqn:E.
  - apply str_eqb_eq in E; subst; symmetry; apply str_eqb_refl.
  - symmetry; apply str_eqb_neq; apply str_eqb_neq in E; congruence.
Qed.

(** Reading back what was set. *)
Lemma get_set_same (s : declaration) (name value : pystr) :
  getPropertyValue (setProperty s name value) name = value.
Proof.
  induction s as [|[n v] s IH]; simpl.
  - rewrite str_eqb_refl; reflexivity.
  - destruct (str_eqb n name) eqn:E; simpl; rewrite E; [reflexivity | exact IH].
Qed.

Lemma get_set_other (s : declaration) (name value other : pystr) :
  str_eqb name other = false ->
  getPropertyValue (setProperty s name value) other = getPropertyValue s other.
Proof.
  intros Hne; induction s as [|[n v] s IH]; simpl.
  - rewrite Hne; reflexivity.
  - destruct (str_eqb n name) eqn:E; simpl.
    + apply str_eqb_eq in E; subst n; rewrite Hne; reflexivity.
    + rewrite IH; reflexivity.
Qed.

Lemma update_updated (name value : pystr) (r : rule) (c : bool) :
  update name value (r, c)
  = (updated name value r,
     c || negb (str_eqb (getPropertyValue (style r) name) value)).
Proof.
  unfold update, updated.
  destruct (str_eqb (getPropertyValue (style r) name) value); simpl;
    [rewrite orb_false_r | rewrite orb_true_r]; reflexivity.
Qed.

Lemma updated_same (name value : pystr) (r : rule) :
  getPropertyValue (style (updated name value r)) name = value.
Proof.
  unfold updated.
  destruct (str_eqb (getPropertyValue (style r) name) value) eqn:E.
  - apply str_eqb_eq, E.
  - apply get_set_same.
Qed.

Lemma updated_other (name value other : pystr) (r : rule) :
  str_eqb name other = false ->
  getPropertyValue (style (updated name value r)) other
  = getPropertyValue (style r) other.
Proof.
  intros Hne; unfold updated.
  destruct (str_eqb (getPropertyValue (style r) name) value);
    [reflexivity | apply get_set_other, Hne].
Qed.

Lemma updated_frame (name value : pystr) (r : rule) :
  selectorList (updated name value r) = selectorList r
  /\ style_rule (updated name value r) = style_rule r.
Proof.
  unfold updated.
  destruct (str_eqb (getPropertyValue (style r) name) value); split;
    reflexivity.
Qed.

Lemma updated_at_target (name value : pystr) (r : rule) :
  str_eqb (getPropertyValue (style r) name) value = true ->
  updated name value r = r.
Proof. intros H; unfold updated; rewrite H; reflexivity. Qed.

(** The rule and the flag [add_flow_direction_properties] returns. *)
Lemma add_flow_unfold (r : rule) (o b : pystr) :
  add_flow_direction_properties r o b
  = (updated (lit "-webkit-line-break") b
       (updated (lit "line-break") b
          (updated (lit "-webkit-writing-mode") o
             (updated (lit "-epub-writing-mode") o
                (updated (lit "writing-mode") o r)))),
     negb (settled o b r)).
Proof.
  unfold add_flow_direction_properties; cbv zeta.
  rewrite !update_updated; f_equal.
  unfold settled.
  rewrite !updated_other by reflexivity.
  cbn [orb]; rewrite !negb_andb; reflexivity.
Qed.

Lemma add_flow_settled (r : rule) (o b : pystr) :
  settled o b r = true -> add_flow_direction_properties r o b = (r, false).
Proof.
  intros H; rewrite add_flow_unfold, H; cbn [negb]; f_equal.
  unfold settled in H; rewrite !andb_true_iff in H.
  destruct H as ((((H1 & H2) & H3) & H4) & H5).
  rewrite (updated_at_target _ _ _ H1), (updated_at_target _ _ _ H2),
    (updated_at_target _ _ _ H3), (updated_at_target _ _ _ H4),
    (updated_at_target _ _ _ H5); reflexivity.
Qed.

Lemma add_flow_settles (r : rule) (o b : pystr) :
  settled o b (fst (add_flow_direction_properties r o b)) = true.
Proof.
  rewrite add_flow_unfold; cbn [fst]; unfold settled.
  rewrite (updated_same (lit "-webkit-line-break") b).
  rewrite !(updated_other (lit "-webkit-line-break") b) by reflexivity.
  rewrite (updated_same (lit "line-break") b).
  rewrite !(updated_other (lit "line-break") b) by reflexivity.
  rewrite (updated_same (lit "-webkit-writing-mode") o).
  rewrite !(updated_other (lit "-webkit-writing-mode") o) by reflexivity.
  rewrite (updated_same (lit "-epub-writing-mode") o).
  rewrite !(updated_other (lit "-epub-writing-mode") o) by reflexivity.
  rewrite (updated_same (lit "writing-mode") o).
  rewrite !str_eqb_refl; reflexivity.
Qed.

Lemma add_flow_frame (r : rule) (o b : pystr) :
  selectorList (fst (add_flow_direction_properties r o b)) = selectorList r
  /\ style_rule (fst (add_flow_direction_properties r o b)) = style_rule r.
Proof.
  rewrite add_flow_unfold; cbn [fst].
  repeat match goal with
         | |- context [updated ?n ?v ?x] =>
             destruct (updated_frame n v x) as [-> ->]
         end.
  split; reflexivity.
Qed.

Lemma add_flow_direction_properties_sets_spec (r : rule) (o b : pystr) :
  let r' := fst (add_flow_direction_properties r o b) in
  settled o b r' = true
  /\ (forall name, flow_property name = false ->
                   getPropertyValue (style r') name
                   = getPropertyValue (style r) name)
  /\ selectorList r' = selectorList r
  /\ style_rule r' = style_rule r
  /\ snd (add_flow_direction_properties r o b) = negb (settled o b r)
  /\ (settled o b r = true -> r' = r).
Proof.
  cbv zeta; split; [apply add_flow_settles|].
  split.
  { intros name Hname; rewrite add_flow_unfold; cbn [fst].
    unfold flow_property in Hname; rewrite !orb_false_iff in Hname.
    destruct Hname as ((((H1 & H2) & H3) & H4) & H5).
    rewrite str_eqb_sym in H1, H2, H3, H4, H5.
    rewrite (updated_other _ _ _ _ H5), (updated_other _ _ _ _ H4),
      (updated_other _ _ _ _ H3), (updated_other _ _ _ _ H2),
      (updated_other _ _ _ _ H1); reflexivity. }
  split; [apply add_flow_frame|].
  split; [apply add_flow_frame|].
  split; [rewrite add_flow_unfold; reflexivity|].
  intros H; rewrite (add_flow_settled r o b H); reflexivity.
Qed.

(** After [add_flow_direction_properties] the five flow properties of
    the rule read the target values, every other property reads what it
    read before and the selectors are the same; the value returned is
    false exactly when the five properties had the target values
    already, and then the rule is returned as it was. *)
Theorem add_flow_direction_properties_sets (r : rule) (o b : pystr) :
  let r' := fst (add_flow_direction_properties r o b) in
  settled o b r' = true
  /\ (forall name, flow_property name = false ->
                   getPropertyValue (style r') name
                   = getPropertyValue (style r) name)
  /\ selectorList r' = selectorList r
  /\ style_rule r' = style_rule r
  /\ snd (add_flow_direction_properties r o b) = negb (settled o b r)
  /\ (settled o b r = true -> r' = r).
Proof. exact (add_flow_direction_properties_sets_spec r o b). Qed.

Lemma add_flow_direction_properties_sets_witness :
  fst (add_flow_direction_properties
         (mkRule true [lit "body"]
                 [(lit "writing-mode", lit "vertical-rl");
                  (lit "-epub-writing-mode", lit "vertical-rl");
                  (lit "-webkit-writing-mode", lit "vertical-rl");
                  (lit "line-break", lit "normal");
                  (lit "-webkit-line-break", lit "normal")])
         (lit "vertical-rl") (lit "normal"))
  = mkRule true [lit "body"]
           [(lit "writing-mode", lit "vertical-rl");
            (lit "-epub-writing-mode", lit "vertical-rl");
            (lit "-webkit-writing-mode", lit "vertical-rl");
            (lit "line-break", lit "normal");
            (lit "-webkit-line-break", lit "normal")].
Proof.
  apply (add_flow_direction_properties_sets
           (mkRule true [lit "body"]
                   [(lit "writing-mode", lit "vertical-rl");
                    (lit "-epub-writing-mode", lit "vertical-rl");
                    (lit "-webkit-writing-mode", lit "vertical-rl");
                    (lit "line-break", lit "normal");
                    (lit "-webkit-line-break", lit "normal")])
           (lit "vertical-rl") (lit "normal")).
  reflexivity.
Defined.

(** A second call finds nothing to change: it returns the rule of the
    first call and false. *)
Lemma add_flow_direction_properties_idempotent (r : rule) (o b : pystr) :
  add_flow_direction_properties
    (fst (add_flow_direction_properties r o b)) o b
  = (fst (add_flow_direction_properties r o b), false).
Proof. apply add_flow_settled, add_flow_settles. Qed.

End CssFacts.

(* ================================================================== *)
(** ** The flow direction of a book *)

Module FlowFacts.
Import Css CssSpec CssFacts.

Lemma eta_progress (f : progress) :
  mkFlow (changed_files f) (fileChanged f) (addedCSSRules f) = f.
Proof. destruct f; reflexivity. Qed.

Lemma eta_css (file : css_file) :
  mkCss (ident file) (href file) (content file) = file.
Proof. destruct file; reflexivity. Qed.

Lemma touch_spec (o b href : pystr) (before : list rule) (r : rule)
      (rest disk : list rule) (f : progress) :
  touch (Some (o, b)) href before r rest disk f
  = if settled o b r
    then Some (r, disk, mkFlow (changed_files f) (fileChanged f) true)
    else Some (fst (add_flow_direction_properties r o b),
               before ++ fst (add_flow_direction_properties r o b) :: rest,
               mkFlow (changed_files f ++ [href]) true true).
Proof.
  unfold touch.
  destruct (settled o b r) eqn:Hs.
  - rewrite (add_flow_settled r o b Hs); reflexivity.
  - rewrite (surjective_pairing (add_flow_direction_properties r o b)).
    rewrite (proj1 (proj2 (proj2 (proj2 (proj2
              (add_flow_direction_properties_sets_spec r o b)))))).
    rewrite Hs; reflexivity.
Qed.

Section OneSearch.
Variables (o b selector : pystr).
Variable visit : pystr -> list rule -> rule -> list rule -> list rule ->
                 progress -> option (rule * list rule * progress).

Let pick (r : rule) : rule :=
  if hit selector r then fst (add_flow_direction_properties r o b) else r.

(** What a search does with a rule when memory and file agree. *)
Hypothesis visit_run :
  forall href before r rest f,
    exists f',
      visit href before r rest (before ++ r :: rest) f
      = Some (pick r, before ++ pick r :: rest, f')
      /\ addedCSSRules f' = addedCSSRules f || hit selector r
      /\ fileChanged f'
         = fileChanged f || (hit selector r && negb (settled o b r)).

(** What it does with a rule that needs no change. *)
Hypothesis visit_settled :
  forall href before r rest disk f,
    (hit selector r = true -> settled o b r = true) ->
    visit href before r rest disk f
    = Some (r, disk,
            mkFlow (changed_files f) (fileChanged f)
                   (addedCSSRules f || hit selector r)).

Let settle_rule (r : rule) : rule :=
  if names selector r then fst (add_flow_direction_properties r o b) else r.

Lemma visit_rules_run (href : pystr) (before rest : list rule) (f : progress) :
  exists f',
    visit_rules (visit href) before rest (before ++ rest) f
    = Some (before ++ List.map settle_rule rest, f')
    /\ addedCSSRules f' = addedCSSRules f || existsb (names selector) rest
    /\ fileChanged f'
       = fileChanged f
         || existsb (fun r => names selector r && negb (settled o b r)) rest.
Proof.
  revert before f; induction rest as [|r rest IH]; intros before f.
  - exists f; simpl; rewrite !orb_false_r; repeat split.
  - cbn [visit_rules List.map existsb].
    destruct (style_rule r) eqn:Hst.
    + assert (Hn : names selector r = hit selector r)
        by (unfold names, hit; rewrite Hst; reflexivity).
      assert (Hp : settle_rule r = pick r)
        by (unfold settle_rule, pick; rewrite Hn; reflexivity).
      rewrite Hn, Hp.
      destruct (visit_run href before r rest f) as (f1 & H1 & Ha1 & Hc1).
      rewrite H1.
      replace (before ++ pick r :: rest) with ((before ++ [pick r]) ++ rest)
        by (rewrite <- app_assoc; reflexivity).
      destruct (IH (before ++ [pick r]) f1) as (f2 & H2 & Ha2 & Hc2).
      exists f2; rewrite H2, <- app_assoc.
      split; [reflexivity|].
      rewrite Ha2, Ha1, Hc2, Hc1, !orb_assoc; split; reflexivity.
    + assert (Hn : names selector r = false)
        by (unfold names; rewrite Hst; reflexivity).
      assert (Hp : settle_rule r = r)
        by (unfold settle_rule; rewrite Hn; reflexivity).
      rewrite Hn, Hp; cbn [andb orb].
      replace (before ++ r :: rest) with ((before ++ [r]) ++ rest)
        by (rewrite <- app_assoc; reflexivity).
      destruct (IH (before ++ [r]) f) as (f2 & H2 & Ha2 & Hc2).
      exists f2; rewrite H2, <- app_assoc.
      split; [reflexivity | split; assumption].
Qed.

Lemma visit_rules_settled (href : pystr) (before rest disk : list rule)
      (f : progress) :
  (forall r, In r rest -> names selector r = true -> settled o b r = true) ->
  visit_rules (visit href) before rest disk f
  = Some (disk,
          mkFlow (changed_files f) (fileChanged f)
                 (addedCSSRules f || existsb (names selector) rest)).
Proof.
  revert before f; induction rest as [|r rest IH]; intros before f Hall.
  - simpl; rewrite orb_false_r, eta_progress; reflexivity.
  - cbn [visit_rules existsb].
    destruct (style_rule r) eqn:Hst.
    + assert (Hn : names selector r = hit selector r)
        by (unfold names, hit; rewrite Hst; reflexivity).
      rewrite Hn, visit_settled.
      * rewrite IH by (intros r' Hin; apply Hall; right; exact Hin).
        cbn [changed_files fileChanged addedCSSRules].
        rewrite orb_assoc; reflexivity.
      * intros Hh; apply (Hall r (or_introl eq_refl)).
        rewrite Hn; exact Hh.
    + assert (Hn : names selector r = false)
        by (unfold names; rewrite Hst; reflexivity).
      rewrite Hn, IH by (intros r' Hin; apply Hall; right; exact Hin).
      reflexivity.
Qed.

Lemma visit_files_run (files : list css_file) (f : progress) :
  exists f',
    visit_files visit files f = Some (settle (names selector) o b files, f')
    /\ addedCSSRules f'
       = addedCSSRules f || any_rule (names selector) files
    /\ fileChanged f'
       = fileChanged f
         || any_rule (fun r => names selector r && negb (settled o b r)) files.
Proof.
  revert f; induction files as [|file files IH]; intros f.
  - exists f; simpl; rewrite !orb_false_r; repeat split.
  - cbn [visit_files settle List.map any_rule existsb].
    destruct (visit_rules_run (href file) [] (content file) f)
      as (f1 & H1 & Ha1 & Hc1).
    cbn [app] in H1; rewrite H1.
    destruct (IH f1) as (f2 & H2 & Ha2 & Hc2).
    rewrite H2; exists f2; split; [reflexivity|].
    unfold any_rule in Ha2, Hc2.
    rewrite Ha2, Ha1, Hc2, Hc1, !orb_assoc; split; reflexivity.
Qed.

Lemma visit_files_settled (files : list css_file) (f : progress) :
  (forall file r, In file files -> In r (content file) ->
                  names selector r = true -> settled o b r = true) ->
  visit_files visit files f
  = Some (files,
          mkFlow (changed_files f) (fileChanged f)
                 (addedCSSRules f || any_rule (names selector) files)).
Proof.
  revert f; induction files as [|file files IH]; intros f Hall.
  - simpl; rewrite orb_false_r, eta_progress; reflexivity.
  - cbn [visit_files any_rule existsb].
    rewrite visit_rules_settled
      by (intros r Hin; apply (Hall file r (or_introl eq_refl) Hin)).
    rewrite IH by (intros file' r Hf; apply Hall; right; exact Hf).
    cbn [changed_files fileChanged addedCSSRules].
    rewrite eta_css, orb_assoc; reflexivity.
Qed.

End OneSearch.

(** The first search meets the two descriptions. *)
Lemma calibre_run (o b href : pystr) (before : list rule) (r : rule)
      (rest : list rule) (f : progress) :
  exists f',
    calibre_rule (Some (o, b)) href before r rest (before ++ r :: rest) f
    = Some ((if hit (lit ".calibre") r
             then fst (add_flow_direction_properties r o b) else r),
            before ++ (if hit (lit ".calibre") r
                       then fst (add_flow_direction_properties r o b) else r)
                   :: rest, f')
    /\ addedCSSRules f' = addedCSSRules f || hit (lit ".calibre") r
    /\ fileChanged f'
       = fileChanged f || (hit (lit ".calibre") r && negb (settled o b r)).
Proof.
  unfold calibre_rule; fold (hit (lit ".calibre") r).
  destruct (hit (lit ".calibre") r).
  - rewrite touch_spec; destruct (settled o b r) eqn:Hs.
    + rewrite (add_flow_settled r o b Hs); cbn [fst].
      eexists; split; [reflexivity|]; cbn.
      rewrite !orb_true_r, orb_false_r; split; reflexivity.
    + eexists; split; [reflexivity|]; cbn.
      rewrite !orb_true_r; split; reflexivity.
  - exists f; rewrite !orb_false_r; repeat split.
Qed.

Lemma calibre_settled (o b href : pystr) (before : list rule) (r : rule)
      (rest disk : list rule) (f : progress) :
  (hit (lit ".calibre") r = true -> settled o b r = true) ->
  calibre_rule (Some (o, b)) href before r rest disk f
  = Some (r, disk,
          mkFlow (changed_files f) (fileChanged f)
                 (addedCSSRules f || hit (lit ".calibre") r)).
Proof.
  intros Hs; unfold calibre_rule; fold (hit (lit ".calibre") r).
  destruct (hit (lit ".calibre") r).
  - rewrite touch_spec, (Hs eq_refl), orb_true_r; reflexivity.
  - rewrite orb_false_r, eta_progress; reflexivity.
Qed.

(** So does the second. *)
Lemma body_settled_loop (o b href : pystr) (before : list rule)
      (selectors : list pystr) (r : rule) (rest disk : list rule)
      (f : progress) :
  (existsb (fun s => str_eqb s (lit "body")) selectors = true ->
   settled o b r = true) ->
  body_rule (Some (o, b)) href before selectors r rest disk f
  = Some (r, disk,
          mkFlow (changed_files f) (fileChanged f)
                 (addedCSSRules f
                  || existsb (fun s => str_eqb s (lit "body")) selectors)).
Proof.
  revert f; induction selectors as [|s selectors IH]; intros f Hs.
  - simpl; rewrite orb_false_r, eta_progress; reflexivity.
  - cbn [body_rule existsb].
    destruct (str_eqb s (lit "body")) eqn:E; cbn [orb].
    + assert (Hset : settled o b r = true)
        by (apply Hs; cbn [existsb]; rewrite E; reflexivity).
      rewrite touch_spec, Hset.
      rewrite IH by (intros _; exact Hset).
      cbn [changed_files fileChanged addedCSSRules].
      rewrite orb_true_r; reflexivity.
    + apply IH; intros H; apply Hs; cbn [existsb]; rewrite E; exact H.
Qed.

Lemma body_run_loop (o b href : pystr) (before : list rule)
      (selectors : list pystr) (r : rule) (rest : list rule) (f : progress) :
  exists f',
    body_rule (Some (o, b)) href before selectors r rest
              (before ++ r :: rest) f
    = Some ((if existsb (fun s => str_eqb s (lit "body")) selectors
             then fst (add_flow_direction_properties r o b) else r),
            before ++ (if existsb (fun s => str_eqb s (lit "body")) selectors
                       then fst (add_flow_direction_properties r o b) else r)
                   :: rest, f')
    /\ addedCSSRules f'
       = addedCSSRules f
         || existsb (fun s => str_eqb s (lit "body")) selectors
    /\ fileChanged f'
       = fileChanged f
         || (existsb (fun s => str_eqb s (lit "body")) selectors
             && negb (settled o b r)).
Proof.
  induction selectors as [|s selectors IH].
  - exists f; simpl; rewrite !orb_false_r; repeat split.
  - cbn [body_rule existsb].
    destruct (str_eqb s (lit "body")); cbn [orb]; [|exact IH].
    rewrite touch_spec; destruct (settled o b r) eqn:Hs.
    + rewrite body_settled_loop by (intros _; exact Hs).
      rewrite (add_flow_settled r o b Hs); cbn [fst].
      eexists; split; [reflexivity|]; cbn.
      rewrite !orb_true_r, orb_false_r; split; reflexivity.
    + rewrite body_settled_loop by (intros _; apply add_flow_settles).
      eexists; split; [reflexivity|]; cbn.
      rewrite !orb_true_r; split; reflexivity.
Qed.

(** *** What the searches leave behind *)

Lemma settle_names (p : rule -> bool) (selector o b : pystr)
      (files : list css_file) :
  any_rule (names selector) (settle p o b files)
  = any_rule (names selector) files.
Proof.
  unfold any_rule, settle; induction files as [|file files IH];
    [reflexivity|].
  cbn [List.map existsb content]; rewrite IH; f_equal.
  induction (content file) as [|r rules IHr]; [reflexivity|].
  cbn [List.map existsb]; rewrite IHr; f_equal.
  destruct (p r); [|reflexivity].
  unfold names; destruct (add_flow_frame r o b) as [-> ->]; reflexivity.
Qed.

Lemma settle_settled (selector o b : pystr) (files : list css_file) :
  forall file r,
    In file (settle (names selector) o b files) -> In r (content file) ->
    names selector r = true -> settled o b r = true.
Proof.
  intros file r Hfile Hr Hn.
  unfold settle in Hfile; apply in_map_iff in Hfile.
  destruct Hfile as (file0 & <- & _); cbn [content] in Hr.
  apply in_map_iff in Hr; destruct Hr as (r0 & <- & _).
  destruct (names selector r0) eqn:Hn0; [apply add_flow_settles|].
  congruence.
Qed.

Lemma settle_nothing (p : rule -> bool) (o b : pystr) (files : list css_file) :
  any_rule p files = false -> settle p o b files = files.
Proof.
  unfold any_rule, settle; induction files as [|file files IH];
    [reflexivity|].
  cbn [List.map existsb]; intros H; apply orb_false_iff in H.
  destruct H as [Hfile Hfiles]; rewrite (IH Hfiles); f_equal.
  destruct file as [i h rules]; cbn [ident href content] in *; f_equal.
  clear IH Hfiles; induction rules as [|r rules IHr]; [reflexivity|].
  cbn [List.map existsb] in *; apply orb_false_iff in Hfile.
  destruct Hfile as [-> Hrules]; rewrite (IHr Hrules); reflexivity.
Qed.

Lemma none_settled (p : rule -> bool) (o b : pystr) (files : list css_file) :
  any_rule p files = false ->
  forall file r, In file files -> In r (content file) -> p r = true ->
                 settled o b r = true.
Proof.
  intros Hnone file r Hfile Hr Hp; exfalso.
  unfold any_rule in Hnone.
  assert (H : existsb (fun file => existsb p (content file)) files = true).
  { apply existsb_exists; exists file; split; [exact Hfile|].
    apply existsb_exists; exists r; split; assumption. }
  congruence.
Qed.

Lemma create_rules_spec (o b : pystr) (files : list css_file) (f : progress) :
  create_rules (Some (o, b)) files f
  = Some (extend o b files,
          mkFlow (changed_files f ++ List.map href files)
                 (fileChanged f
                  || match files with [] => false | _ :: _ => true end)
                 (addedCSSRules f)).
Proof.
  revert f; induction files as [|file files IH]; intros f.
  - simpl; rewrite app_nil_r, orb_false_r, eta_progress; reflexivity.
  - cbn [create_rules]; cbv zeta; rewrite IH.
    cbn [changed_files fileChanged addedCSSRules extend List.map].
    rewrite <- app_assoc, orb_true_r; reflexivity.
Qed.

Lemma new_body_rule_settled (o b : pystr) :
  settled o b (new_body_rule o b) = true.
Proof.
  unfold settled, new_body_rule; cbv zeta; cbn [style].
  repeat (first [rewrite get_set_same
                | rewrite get_set_other by reflexivity]).
  rewrite !str_eqb_refl; reflexivity.
Qed.

Lemma extend_names_calibre (o b : pystr) (files : list css_file) :
  any_rule (names (lit ".calibre")) (extend o b files)
  = any_rule (names (lit ".calibre")) files.
Proof.
  unfold any_rule, extend; induction files as [|file files IH];
    [reflexivity|].
  cbn [List.map existsb content]; rewrite IH; f_equal.
  rewrite existsb_app; cbn [existsb].
  change (names (lit ".calibre") (new_body_rule o b)) with false.
  rewrite !orb_false_r; reflexivity.
Qed.

Lemma extend_names_body (o b : pystr) (files : list css_file) :
  any_rule (names (lit "body")) (extend o b files)
  = match files with [] => false | _ :: _ => true end.
Proof.
  destruct files as [|file files]; [reflexivity|].
  unfold any_rule, extend; cbn [List.map existsb content].
  rewrite existsb_app; cbn [existsb].
  change (names (lit "body") (new_body_rule o b)) with true.
  cbn [orb]; rewrite orb_true_r; reflexivity.
Qed.

Lemma extend_settled (o b : pystr) (files : list css_file) :
  any_rule (names (lit "body")) files = false ->
  forall file r,
    In file (extend o b files) -> In r (content file) ->
    names (lit "body") r = true -> settled o b r = true.
Proof.
  intros Hnone file r Hfile Hr Hn.
  unfold extend in Hfile; apply in_map_iff in Hfile.
  destruct Hfile as (file0 & <- & Hfile0); cbn [content] in Hr.
  apply in_app_or in Hr; destruct Hr as [Hr|[<-|[]]].
  - apply (none_settled _ o b files Hnone file0 r Hfile0 Hr Hn).
  - apply new_body_rule_settled.
Qed.

End FlowFacts.

(* ================================================================== *)
(** ** The three searches of [set_flow_direction] *)

Module FlowSearch.
Import Css CssSpec CssFacts FlowFacts.

Lemma unfold_set_flow_direction (bk : book) (criteria : Criteria)
      (changed : list pystr) :
  set_flow_direction bk criteria changed
  = match visit_files (calibre_rule (targets_of criteria)) (css bk)
            (mkFlow changed
                    match spine_ppd bk with
                    | Some old => negb (str_eqb old (flow_of criteria))
                    | None => true
                    end false)
    with
    | None => None
    | Some (files, f) =>
        match
          (if negb (addedCSSRules f)
           then visit_files (body_visit (targets_of criteria)) files f
           else Some (files, f))
        with
        | None => None
        | Some (files, f) =>
            match
              (if negb (addedCSSRules f)
               then create_rules (targets_of criteria) files f
               else Some (files, f))
            with
            | None => None
            | Some (files, f) =>
                Some (mkBook (Some (flow_of criteria)) files,
                      changed_files f, fileChanged f)
            end
        end
    end.
Proof. reflexivity. Qed.

Lemma first_search_run (o b : pystr) (files : list css_file) (f : progress) :
  exists f',
    visit_files (calibre_rule (Some (o, b))) files f
    = Some (settle (names (lit ".calibre")) o b files, f')
    /\ addedCSSRules f'
       = addedCSSRules f || any_rule (names (lit ".calibre")) files
    /\ fileChanged f'
       = fileChanged f
         || any_rule (fun r => names (lit ".calibre") r
                               && negb (settled o b r)) files.
Proof.
  apply (visit_files_run o b (lit ".calibre") (calibre_rule (Some (o, b)))).
  intros href before r rest f0; apply calibre_run.
Qed.

Lemma first_search_settled (o b : pystr) (files : list css_file)
      (f : progress) :
  (forall file r, In file files -> In r (content file) ->
                  names (lit ".calibre") r = true -> settled o b r = true) ->
  visit_files (calibre_rule (Some (o, b))) files f
  = Some (files,
          mkFlow (changed_files f) (fileChanged f)
                 (addedCSSRules f || any_rule (names (lit ".calibre")) files)).
Proof.
  apply (visit_files_settled o b (lit ".calibre")
                             (calibre_rule (Some (o, b)))).
  intros href before r rest disk f0; apply calibre_settled.
Qed.

Lemma second_search_run (o b : pystr) (files : list css_file) (f : progress) :
  exists f',
    visit_files (body_visit (Some (o, b))) files f
    = Some (settle (names (lit "body")) o b files, f')
    /\ addedCSSRules f'
       = addedCSSRules f || any_rule (names (lit "body")) files
    /\ fileChanged f'
       = fileChanged f
         || any_rule (fun r => names (lit "body") r
                               && negb (settled o b r)) files.
Proof.
  apply (visit_files_run o b (lit "body") (body_visit (Some (o, b)))).
  intros href before r rest f0; apply body_run_loop.
Qed.

Lemma second_search_settled (o b : pystr) (files : list css_file)
      (f : progress) :
  (forall file r, In file files -> In r (content file) ->
                  names (lit "body") r = true -> settled o b r = true) ->
  visit_files (body_visit (Some (o, b))) files f
  = Some (files,
          mkFlow (changed_files f) (fileChanged f)
                 (addedCSSRules f || any_rule (names (lit "body")) files)).
Proof.
  apply (visit_files_settled o b (lit "body") (body_visit (Some (o, b)))).
  intros href before r rest disk f0; apply body_settled_loop.
Qed.

Lemma set_flow_direction_searches_spec (bk : book) (criteria : Criteria)
        (changed : list pystr) (o b : pystr) :
  targets_of criteria = Some (o, b) ->
  exists changed',
    set_flow_direction bk criteria changed
    = Some
        (mkBook (Some (flow_of criteria))
           (if any_rule (names (lit ".calibre")) (css bk)
            then settle (names (lit ".calibre")) o b (css bk)
            else if any_rule (names (lit "body")) (css bk)
            then settle (names (lit "body")) o b (css bk)
            else extend o b (css bk)),
         changed',
         match spine_ppd bk with
         | Some old => negb (str_eqb old (flow_of criteria))
         | None => true
         end
         || (if any_rule (names (lit ".calibre")) (css bk)
             then any_rule (fun r => names (lit ".calibre") r
                                     && negb (settled o b r)) (css bk)
             else if any_rule (names (lit "body")) (css bk)
             then any_rule (fun r => names (lit "body") r
                                     && negb (settled o b r)) (css bk)
             else match css bk with [] => false | _ :: _ => true end))
    /\ (any_rule (names (lit ".calibre")) (css bk) = false ->
        any_rule (names (lit "body")) (css bk) = false ->
        changed' = changed ++ List.map href (css bk)).
Proof.
  intros Ht; rewrite unfold_set_flow_direction, Ht.
  set (differs := match spine_ppd bk with
                  | Some old => negb (str_eqb old (flow_of criteria))
                  | None => true
                  end).
  destruct (any_rule (names (lit ".calibre")) (css bk)) eqn:Hcal.
  - destruct (first_search_run o b (css bk) (mkFlow changed differs false))
      as (f1 & H1 & Ha1 & Hc1).
    cbn [addedCSSRules fileChanged orb] in Ha1, Hc1; rewrite Hcal in Ha1.
    rewrite H1; cbv beta iota; rewrite Ha1; cbn [negb]; cbv beta iota.
    rewrite Ha1; cbn [negb]; cbv beta iota.
    exists (changed_files f1); rewrite Hc1; split; [reflexivity|].
    intros Hfalse; discriminate.
  - rewrite first_search_settled by (apply none_settled, Hcal).
    rewrite Hcal; cbn [addedCSSRules changed_files fileChanged orb negb].
    destruct (any_rule (names (lit "body")) (css bk)) eqn:Hbody.
    + destruct (second_search_run o b (css bk) (mkFlow changed differs false))
        as (f2 & H2 & Ha2 & Hc2).
      cbn [addedCSSRules fileChanged orb] in Ha2, Hc2; rewrite Hbody in Ha2.
      rewrite H2; cbv beta iota; rewrite Ha2; cbn [negb]; cbv beta iota.
      exists (changed_files f2); rewrite Hc2; split; [reflexivity|].
      intros _ Hfalse; discriminate.
    + rewrite second_search_settled by (apply none_settled, Hbody).
      rewrite Hbody; cbn [addedCSSRules changed_files fileChanged orb negb].
      rewrite create_rules_spec.
      cbn [addedCSSRules changed_files fileChanged].
      eexists; split; [reflexivity|]; intros _ _; reflexivity.
Qed.

(** [set_flow_direction] sets the page progression direction and then
    makes up to three searches.  If a style rule of some sheet selects
    [.calibre], the rules that do get the flow properties and no other
    rule is touched; otherwise, if a style rule selects [body], the
    rules that do get them; otherwise every sheet gets one new [body]
    rule at its end, and every sheet is listed as changed.  The value
    returned is true exactly when the direction differed or one of the
    rules picked did not have the properties yet (or a rule was
    created). *)
Theorem set_flow_direction_searches (bk : book) (criteria : Criteria)
        (changed : list pystr) (o b : pystr) :
  targets_of criteria = Some (o, b) ->
  exists changed',
    set_flow_direction bk criteria changed
    = Some
        (mkBook (Some (flow_of criteria))
           (if any_rule (names (lit ".calibre")) (css bk)
            then settle (names (lit ".calibre")) o b (css bk)
            else if any_rule (names (lit "body")) (css bk)
            then settle (names (lit "body")) o b (css bk)
            else extend o b (css bk)),
         changed',
         match spine_ppd bk with
         | Some old => negb (str_eqb old (flow_of criteria))
         | None => true
         end
         || (if any_rule (names (lit ".calibre")) (css bk)
             then any_rule (fun r => names (lit ".calibre") r
                                     && negb (settled o b r)) (css bk)
             else if any_rule (names (lit "body")) (css bk)
             then any_rule (fun r => names (lit "body") r
                                     && negb (settled o b r)) (css bk)
             else match css bk with [] => false | _ :: _ => true end))
    /\ (any_rule (names (lit ".calibre")) (css bk) = false ->
        any_rule (names (lit "body")) (css bk) = false ->
        changed' = changed ++ List.map href (css bk)).
Proof. exact (set_flow_direction_searches_spec bk criteria changed o b). Qed.

(** A book whose direction and rules are as a run leaves them. *)
Lemma set_flow_direction_settled (bk : book) (criteria : Criteria)
      (changed : list pystr) (o b : pystr) :
  targets_of criteria = Some (o, b) ->
  spine_ppd bk = Some (flow_of criteria) ->
  (forall file r, In file (css bk) -> In r (content file) ->
                  names (lit ".calibre") r = true -> settled o b r = true) ->
  (any_rule (names (lit ".calibre")) (css bk) = false ->
   (forall file r, In file (css bk) -> In r (content file) ->
                   names (lit "body") r = true -> settled o b r = true)
   /\ (any_rule (names (lit "body")) (css bk) = false -> css bk = [])) ->
  set_flow_direction bk criteria changed = Some (bk, changed, false).
Proof.
  intros Ht Hppd Hcal Hbody; rewrite unfold_set_flow_direction, Ht, Hppd.
  rewrite str_eqb_refl; cbn [negb].
  rewrite (first_search_settled o b (css bk) _ Hcal).
  cbn [addedCSSRules changed_files fileChanged orb].
  destruct (any_rule (names (lit ".calibre")) (css bk)) eqn:Ha; cbn [negb].
  - destruct bk as [ppd files]; cbn [spine_ppd css] in *; subst ppd;
      reflexivity.
  - destruct (Hbody eq_refl) as [Hb Hnone].
    rewrite (second_search_settled o b (css bk) _ Hb).
    cbn [addedCSSRules changed_files fileChanged orb].
    destruct (any_rule (names (lit "body")) (css bk)) eqn:Hb'; cbn [negb].
    + destruct bk as [ppd files]; cbn [spine_ppd css] in *; subst ppd;
        reflexivity.
    + rewrite (Hnone eq_refl); cbn [create_rules].
      destruct bk as [ppd files]; cbn [spine_ppd css] in *; subst ppd.
      rewrite (Hnone eq_refl); reflexivity.
Qed.

(** A second run finds nothing to do: once [set_flow_direction] has run,
    running it again with the same orientation leaves the book and the
    list of changed files as they are and returns false. *)
Theorem set_flow_direction_idempotent (bk : book) (criteria : Criteria)
        (changed : list pystr) :
  OUTPUT_ORIENTATION criteria = 1 \/ OUTPUT_ORIENTATION criteria = 2 ->
  exists bk' changed' flag,
    set_flow_direction bk criteria changed = Some (bk', changed', flag)
    /\ set_flow_direction bk' criteria changed' = Some (bk', changed', false).
Proof.
  intros Ho.
  assert (Ht : exists o b, targets_of criteria = Some (o, b)).
  { unfold targets_of; destruct Ho as [H | H]; rewrite H; simpl; eauto. }
  destruct Ht as (o & b & Ht).
  destruct (set_flow_direction_searches_spec bk criteria changed o b Ht)
    as (changed' & Hrun & _).
  eexists; exists changed'; eexists; split; [exact Hrun|].
  apply (set_flow_direction_settled _ criteria changed' o b Ht);
    cbn [spine_ppd css]; [reflexivity| |].
  - destruct (any_rule (names (lit ".calibre")) (css bk)) eqn:Hcal.
    + apply settle_settled.
    + apply none_settled.
      destruct (any_rule (names (lit "body")) (css bk)) eqn:Hbody.
      * rewrite settle_names; exact Hcal.
      * rewrite extend_names_calibre; exact Hcal.
  - destruct (any_rule (names (lit ".calibre")) (css bk)) eqn:Hcal.
    + rewrite settle_names, Hcal; discriminate.
    + destruct (any_rule (names (lit "body")) (css bk)) eqn:Hbody.
      * intros _; split; [apply settle_settled|].
        rewrite settle_names, Hbody; discriminate.
      * intros _; split; [apply extend_settled, Hbody|].
        rewrite extend_names_body.
        destruct (css bk); [reflexivity | discriminate].
Qed.

Lemma set_flow_direction_searches_witness :
  exists changed',
    set_flow_direction SampleBook.calibre_book SampleBook.vertical_book
                       [lit "x"]
    = Some
        (mkBook (Some (lit "rtl"))
                (settle (names (lit ".calibre")) (lit "vertical-rl")
                        (lit "normal") (css SampleBook.calibre_book)),
         changed', true)
    /\ (any_rule (names (lit ".calibre")) (css SampleBook.calibre_book)
        = false ->
        any_rule (names (lit "body")) (css SampleBook.calibre_book) = false ->
        changed' = [lit "x"] ++ List.map href (css SampleBook.calibre_book)).
Proof.
  apply (set_flow_direction_searches
           SampleBook.calibre_book SampleBook.vertical_book [lit "x"]
           (lit "vertical-rl") (lit "normal")).
  reflexivity.
Defined.

Lemma set_flow_direction_idempotent_witness :
  exists bk' changed' flag,
    set_flow_direction SampleBook.bare_book SampleBook.vertical_book []
    = Some (bk', changed', flag)
    /\ set_flow_direction bk' SampleBook.vertical_book changed'
       = Some (bk', changed', false).
Proof.
  apply (set_flow_direction_idempotent
           SampleBook.bare_book SampleBook.vertical_book []).
  right; reflexivity.
Defined.

(** The three searches on the sample books. *)
Example body_book_run :
  set_flow_direction SampleBook.body_book SampleBook.vertical_book []
  = Some
      (mkBook (Some (lit "rtl"))
         [mkCss (lit "s1") (lit "Styles/a.css")
            [mkRule true [lit "p"] [(lit "color", lit "red")];
             mkRule true [lit "body"; lit "html"]
                    [(lit "writing-mode", lit "vertical-rl");
                     (lit "-epub-writing-mode", lit "vertical-rl");
                     (lit "-webkit-writing-mode", lit "vertical-rl");
                     (lit "line-break", lit "normal");
                     (lit "-webkit-line-break", lit "normal")]]],
       [lit "Styles/a.css"], true).
Proof. reflexivity. Qed.

Example bare_book_run :
  set_flow_direction SampleBook.bare_book SampleBook.vertical_book []
  = Some
      (mkBook (Some (lit "rtl"))
         [mkCss (lit "s1") (lit "Styles/a.css")
            [mkRule true [lit "p"] [(lit "color", lit "red")];
             mkRule true [lit "body"]
                    [(lit "writing-mode", lit "vertical-rl");
                     (lit "-epub-writing-mode", lit "vertical-rl");
                     (lit "-webkit-writing-mode", lit "vertical-rl");
                     (lit "line-break", lit "normal");
                     (lit "-webkit-line-break", lit "normal")]]],
       [lit "Styles/a.css"], true).
Proof. reflexivity. Qed.

End FlowSearch.

(* ================================================================== *)
(** ** The metadata loop and the selected files *)

Module DialogFacts.
Import Dialog.

Lemma text_differs_refl (a : option pystr) : text_differs a a = false.
Proof.
  destruct a as [x|]; [|reflexivity].
  unfold text_differs; rewrite str_eqb_refl; reflexivity.
Qed.

Lemma text_differs_neq (a b : option pystr) :
  text_differs a b = true -> a <> b.
Proof.
  intros H E; subst b; rewrite text_differs_refl in H; discriminate.
Qed.

Lemma tag_is_eq (name : option pystr) (s : pystr) :
  tag_is name s = true -> name = Some s.
Proof.
  destruct name as [t|]; simpl; [|discriminate].
  intros H; apply str_eqb_eq in H; congruence.
Qed.

Section WithCollaborators.
Context {TC : TextConverter} {UD : UnicodeData}.

Lemma convert_text_spec (item : element) (f : bool) :
  tag (fst (convert_text item f)) = tag item
  /\ attrib (fst (convert_text item f)) = attrib item
  /\ snd (convert_text item f)
     = text_differs (text (fst (convert_text item f))) (text item) || f.
Proof.
  unfold convert_text; cbv zeta.
  destruct (text item) as [t|] eqn:Ht; cbn [fst snd tag attrib text].
  - repeat split; destruct (text_differs _ _); reflexivity.
  - rewrite Ht; repeat split.
Qed.

(** One pass of the loop body: it fails on a [language] element without
    text only, keeps the tag, and raises the flag exactly when the text
    of the element differs afterwards. *)
Lemma visit_spec (language : pystr) (item : element) (f : bool) :
  if empty_language item
  then visit language item f = Failed TypeError
  else exists item',
      visit language item f
      = Done (item', text_differs (text item') (text item) || f)
      /\ tag item' = tag item.
Proof.
  unfold empty_language, visit; cbv zeta.
  destruct (tag_is (local_name (tag item)) (lit "language")) eqn:Hl;
    cbn [andb].
  - destruct (text item) as [t|] eqn:Ht; [|reflexivity].
    destruct (search_zh t).
    + exists (mkElement (tag item) (Some language) (attrib item)).
      split; [|reflexivity].
      cbn [text]; destruct (text_differs _ _); reflexivity.
    + apply tag_is_eq in Hl; rewrite Hl.
      exists item; split; [|reflexivity].
      rewrite Ht, text_differs_refl; reflexivity.
  - destruct (tag_is (local_name (tag item)) (lit "creator")).
    + destruct (convert_text_spec item f) as (Ht & Ha & Hf).
      destruct (convert_text item f) as [item1 f1]; cbn [fst snd] in *.
      exists (convert_attrib item1); split; [|exact Ht].
      rewrite Hf; reflexivity.
    + destruct (tag_in (local_name (tag item)) dc_list).
      * destruct (convert_text_spec item f) as (Ht & Ha & Hf).
        destruct (convert_text item f) as [item1 f1]; cbn [fst snd] in *.
        exists item1; split; [|exact Ht]; rewrite Hf; reflexivity.
      * exists item; split; [|reflexivity].
        rewrite text_differs_refl; reflexivity.
Qed.

Lemma metadata_loop_fails (language : pystr) (items : list element)
      (f : bool) :
  existsb empty_language items = true ->
  metadata_loop language items f = Failed TypeError.
Proof.
  revert f; induction items as [|item items IH]; intros f H; simpl in H;
    [discriminate|].
  cbn [metadata_loop].
  pose proof (visit_spec language item f) as Hv.
  destruct (empty_language item).
  - rewrite Hv; reflexivity.
  - destruct Hv as (item' & Hv & _); rewrite Hv.
    cbn [orb] in H; rewrite (IH _ H); reflexivity.
Qed.

(** The loop on elements that all have the text the search needs. *)
Lemma metadata_loop_runs (language : pystr) (items : list element)
      (f : bool) :
  existsb empty_language items = false ->
  exists items' f',
    metadata_loop language items f = Done (items', f')
    /\ List.length items' = List.length items
    /\ (forall i item,
           nth_error items i = Some item ->
           exists item' g,
             nth_error items' i = Some item'
             /\ visit language item g
                = Done (item', text_differs (text item') (text item) || g)
             /\ (text_differs (text item') (text item) = true -> f' = true))
    /\ (f = true -> f' = true)
    /\ (f' = true -> f = true \/ items' <> items).
Proof.
  revert f; induction items as [|item items IH]; intros f H.
  - exists [], f; repeat split; auto.
    intros [|i] item Hi; discriminate.
  - simpl in H; apply orb_false_iff in H; destruct H as [Hitem Hitems].
    cbn [metadata_loop].
    pose proof (visit_spec language item f) as Hv; rewrite Hitem in Hv.
    destruct Hv as (item' & Hv & Htag); rewrite Hv.
    destruct (IH (text_differs (text item') (text item) || f) Hitems)
      as (items' & f' & Hloop & Hlen & Hnth & Hup & Hdown).
    rewrite Hloop; exists (item' :: items'), f'.
    split; [reflexivity|]; split; [simpl; congruence|].
    split; [|split].
    + intros [|i] it Hi; simpl in Hi.
      * injection Hi as <-; exists item', f; split; [reflexivity|].
        split; [exact Hv|].
        intros Hd; apply Hup; rewrite Hd; reflexivity.
      * destruct (Hnth i it Hi) as (it' & g & Hi' & Hv' & Hf').
        exists it', g; repeat split; assumption.
    + intros Hf; apply Hup; rewrite Hf; apply orb_true_r.
    + intros Hf'; destruct (Hdown Hf') as [Hor | Hne].
      * apply orb_true_iff in Hor; destruct Hor as [Hd | Hf];
          [|left; exact Hf].
        right; intros E; injection E as E1 E2.
        apply text_differs_neq in Hd; congruence.
      * right; intros E; injection E as E1 E2; contradiction.
Qed.

Lemma metadata_loop_Done (language : pystr) (items items' : list element)
      (f f' : bool) :
  metadata_loop language items f = Done (items', f') ->
  existsb empty_language items = false.
Proof.
  intros H; destruct (existsb empty_language items) eqn:E; [|reflexivity].
  rewrite (metadata_loop_fails language items f E) in H; discriminate.
Qed.

Lemma set_metadata_toc_Done
      (parser : HTML_TextProcessor.t) (language : pystr)
      (criteria : Criteria) (items : list element) (toc_href : pystr)
      (toc : list event) (changed_files : list pystr) (r : report) :
  set_metadata_toc parser language criteria items toc_href toc changed_files
  = Done r ->
  exists items' f' htmlstr,
    metadata_loop language items false = Done (items', f')
    /\ HTML_TextProcessor.processText parser toc criteria = Ok htmlstr
    /\ metadataxml r = (if f' then items' else items)
    /\ returned r = f'
    /\ toc_written r
       = (if negb (str_eqb htmlstr (source_text toc)) then Some htmlstr
          else None)
    /\ changed r
       = (if negb (str_eqb htmlstr (source_text toc))
          then changed_files ++ [toc_href] else changed_files)
    /\ self_tocChanged r = negb (str_eqb htmlstr (source_text toc)).
Proof.
  unfold set_metadata_toc; cbv zeta.
  destruct (metadata_loop language items false) as [[items' f']|e];
    [|discriminate].
  destruct (HTML_TextProcessor.processText parser toc criteria)
    as [htmlstr|e]; [|discriminate].
  intros H; injection H as <-.
  exists items', f', htmlstr; cbn [metadataxml returned toc_written changed
                                    self_tocChanged orb].
  repeat split.
Qed.

(** A [language] element without text, as an empty element is read,
    ends [set_metadata_toc] in a [TypeError]: the search is given [None].
    It is the only way the run ends in this error. *)
Theorem empty_language_element_type_error
        (parser : HTML_TextProcessor.t) (language : pystr)
        (criteria : Criteria) (items : list element) (toc_href : pystr)
        (toc : list event) (changed_files : list pystr) :
  set_metadata_toc parser language criteria items toc_href toc changed_files
  = Failed TypeError
  <-> existsb empty_language items = true.
Proof.
  unfold set_metadata_toc; cbv zeta; split.
  - intros H; destruct (existsb empty_language items) eqn:E; [reflexivity|].
    destruct (metadata_loop_runs language items false E)
      as (items' & f' & Hloop & _).
    rewrite Hloop in H.
    destruct (HTML_TextProcessor.processText parser toc criteria);
      discriminate.
  - intros E; rewrite (metadata_loop_fails language items false E).
    reflexivity.
Qed.

(** The elements [subject] and [contributor] are never converted:
    whatever the converter and the criteria, the metadata the run leaves
    holds them as they were. *)
Theorem subject_and_contributor_left_alone
        (parser : HTML_TextProcessor.t) (language : pystr)
        (criteria : Criteria) (items : list element) (toc_href : pystr)
        (toc : list event) (changed_files : list pystr) (r : report)
        (i : nat) (item : element) :
  set_metadata_toc parser language criteria items toc_href toc changed_files
  = Done r ->
  nth_error items i = Some item ->
  tag_is (local_name (tag item)) (lit "subject") = true
  \/ tag_is (local_name (tag item)) (lit "contributor") = true ->
  nth_error (metadataxml r) i = Some item.
Proof.
  intros Hrun Hi Hname.
  destruct (set_metadata_toc_Done _ _ _ _ _ _ _ _ Hrun)
    as (items' & f' & htmlstr & Hloop & _ & Hmeta & _).
  rewrite Hmeta; destruct f'; [|exact Hi].
  destruct (metadata_loop_runs language items false
              (metadata_loop_Done _ _ _ _ _ Hloop))
    as (items2 & f2 & Hloop2 & _ & Hnth & _).
  rewrite Hloop in Hloop2; injection Hloop2 as <- <-.
  destruct (Hnth i item Hi) as (item' & g & Hi' & Hv & _).
  rewrite Hi'; f_equal.
  assert (Hsame : visit language item g = Done (item, g)).
  { unfold visit; cbv zeta.
    destruct Hname as [Hn | Hn]; apply tag_is_eq in Hn; rewrite Hn;
      reflexivity. }
  rewrite Hsame in Hv; congruence.
Qed.

(** A [language] element whose text holds [zh] gets the language of the
    dialog as its text, also when that is the string [None] the resolver
    answers for a conversion that is to change no language. *)
Theorem language_element_takes_language
        (parser : HTML_TextProcessor.t) (language : pystr)
        (criteria : Criteria) (items : list element) (toc_href : pystr)
        (toc : list event) (changed_files : list pystr) (r : report)
        (i : nat) (item : element) (t : pystr) :
  set_metadata_toc parser language criteria items toc_href toc changed_files
  = Done r ->
  nth_error items i = Some item ->
  tag_is (local_name (tag item)) (lit "language") = true ->
  text item = Some t ->
  search_zh t = true ->
  nth_error (metadataxml r) i
  = Some (mkElement (tag item) (Some language) (attrib item)).
Proof.
  intros Hrun Hi Hname Ht Hzh.
  destruct (set_metadata_toc_Done _ _ _ _ _ _ _ _ Hrun)
    as (items' & f' & htmlstr & Hloop & _ & Hmeta & _).
  destruct (metadata_loop_runs language items false
              (metadata_loop_Done _ _ _ _ _ Hloop))
    as (items2 & f2 & Hloop2 & _ & Hnth & _).
  rewrite Hloop in Hloop2; injection Hloop2 as <- <-.
  destruct (Hnth i item Hi) as (item' & g & Hi' & Hv & Hflag).
  assert (Hitem' : item' = mkElement (tag item) (Some language) (attrib item)).
  { unfold visit in Hv; cbv zeta in Hv; rewrite Hname, Ht, Hzh in Hv.
    congruence. }
  rewrite Hmeta; destruct f'; [rewrite Hi', Hitem'; reflexivity|].
  destruct (text_differs (text item') (text item)) eqn:Hd;
    [specialize (Hflag eq_refl); discriminate|].
  rewrite Hitem', Ht in Hd; cbn [text text_differs] in Hd.
  apply negb_false_iff, str_eqb_eq in Hd; subst t.
  rewrite Hi; destruct item as [tg tx at']; cbn [tag text attrib] in *.
  subst tx; reflexivity.
Qed.

(** The value [set_metadata_toc] returns tells whether the metadata of
    the book changed, and nothing else: it is false exactly when the
    metadata is left as it was, whether or not the table of contents was
    written; and the table of contents is written, and listed as changed,
    exactly when the parser's output differs from its text. *)
Theorem set_metadata_toc_reports_metadata
        (parser : HTML_TextProcessor.t) (language : pystr)
        (criteria : Criteria) (items : list element) (toc_href : pystr)
        (toc : list event) (changed_files : list pystr) (r : report) :
  set_metadata_toc parser language criteria items toc_href toc changed_files
  = Done r ->
  (returned r = false <-> metadataxml r = items)
  /\ (toc_written r = None
      <-> HTML_TextProcessor.processText parser toc criteria
          = Ok (source_text toc))
  /\ (toc_written r = None -> changed r = changed_files)
  /\ (toc_written r <> None -> changed r = changed_files ++ [toc_href]).
Proof.
  intros Hrun.
  destruct (set_metadata_toc_Done _ _ _ _ _ _ _ _ Hrun)
    as (items' & f' & htmlstr & Hloop & Hparse & Hmeta & Hret & Htoc
        & Hchanged & _).
  destruct (metadata_loop_runs language items false
              (metadata_loop_Done _ _ _ _ _ Hloop))
    as (items2 & f2 & Hloop2 & _ & _ & _ & Hdown).
  rewrite Hloop in Hloop2; injection Hloop2 as <- <-.
  rewrite Hmeta, Hret, Htoc, Hchanged, Hparse.
  split; [|split; [|split]].
  - destruct f'; split; try reflexivity; try discriminate.
    intros E; destruct (Hdown eq_refl) as [H | H];
      [discriminate | contradiction].
  - destruct (str_eqb htmlstr (source_text toc)) eqn:E; cbn [negb]; split;
      try reflexivity; try discriminate.
    + intros _; apply str_eqb_eq in E; congruence.
    + intros H; injection H as ->; rewrite str_eqb_refl in E; discriminate.
  - destruct (negb _); [discriminate | reflexivity].
  - destruct (negb _); [reflexivity | congruence].
Qed.

End WithCollaborators.

End DialogFacts.

(* ================================================================== *)
(** ** The dialog on sample books *)

Module DialogRuns.
Import Dialog SampleDialog.

Lemma subject_and_contributor_left_alone_witness :
  exists r,
    set_metadata_toc (TC := Stub.bracing_converter) (UD := Stub.ascii_data)
                     book_parser (lit "zh-CN") book_criteria opf_items
                     (lit "toc.ncx") ncx []
    = Done r
    /\ nth_error (metadataxml r) 4
       = Some (mkElement (dc "subject") (Some (lit "S")) []).
Proof.
  eexists; split; [reflexivity|].
  apply (DialogFacts.subject_and_contributor_left_alone
           (TC := Stub.bracing_converter) (UD := Stub.ascii_data)
           book_parser (lit "zh-CN") book_criteria opf_items
           (lit "toc.ncx") ncx []);
    [reflexivity | reflexivity | left; reflexivity].
Defined.

Lemma language_element_takes_language_witness :
  exists r,
    set_metadata_toc (TC := Stub.bracing_converter) (UD := Stub.ascii_data)
                     Sample.japan_parser
                     (Resolver.get_language_code Sample.japan_criteria)
                     Sample.japan_criteria opf_items (lit "toc.ncx") ncx []
    = Done r
    /\ nth_error (metadataxml r) 2
       = Some (mkElement (dc "language") (Some (lit "None")) []).
Proof.
  eexists; split; [reflexivity|].
  apply (DialogFacts.language_element_takes_language
           (TC := Stub.bracing_converter) (UD := Stub.ascii_data)
           Sample.japan_parser
           (Resolver.get_language_code Sample.japan_criteria)
           Sample.japan_criteria opf_items (lit "toc.ncx") ncx [] _ 2%nat
           (mkElement (dc "language") (Some (lit "zh-TW")) [])
           (lit "zh-TW"));
    reflexivity.
Defined.

Lemma set_metadata_toc_reports_metadata_witness :
  exists r,
    set_metadata_toc (TC := Stub.bracing_converter) (UD := Stub.ascii_data)
                     book_parser (lit "zh-CN") book_criteria quiet_items
                     (lit "toc.ncx") ncx []
    = Done r
    /\ (returned r = false <-> metadataxml r = quiet_items)
    /\ (toc_written r = None
        <-> HTML_TextProcessor.processText
              (TC := Stub.bracing_converter) (UD := Stub.ascii_data)
              book_parser ncx book_criteria
            = Ok (source_text ncx))
    /\ (toc_written r = None -> changed r = [])
    /\ (toc_written r <> None -> changed r = [] ++ [lit "toc.ncx"]).
Proof.
  eexists; split; [reflexivity|].
  apply (DialogFacts.set_metadata_toc_reports_metadata
           (TC := Stub.bracing_converter) (UD := Stub.ascii_data)
           book_parser (lit "zh-CN") book_criteria quiet_items
           (lit "toc.ncx") ncx []).
  reflexivity.
Defined.

(** The metadata of the sample book after a run to simplified Chinese:
    title and creator converted, the language replaced, subject and
    contributor as they were. *)
Example opf_items_run :
  set_metadata_toc (TC := Stub.bracing_converter) (UD := Stub.ascii_data)
                   book_parser (lit "zh-CN") book_criteria opf_items
                   (lit "toc.ncx") ncx []
  = Done
      (mkReport
         [mkElement (lit "{http://www.idpf.org/2007/opf}metadata") None [];
          mkElement (dc "title") (Some (lit "{T}")) [];
          mkElement (dc "language") (Some (lit "zh-CN")) [];
          mkElement (dc "creator") (Some (lit "{C}"))
                    [(lit "{http://www.idpf.org/2007/opf}file-as",
                      lit "{F}")];
          mkElement (dc "subject") (Some (lit "S")) [];
          mkElement (dc "contributor") (Some (lit "B")) [];
          mkElement (lit "meta") None [(lit "name", lit "cover")]]
         (Some (lit "<text>{One}</text>"))
         [lit "toc.ncx"] true true).
Proof. reflexivity. Qed.

(** The table of contents is written and the value returned is false;
    the converted attribute of the creator is not stored. *)
Example quiet_items_run :
  set_metadata_toc (TC := Stub.bracing_converter) (UD := Stub.ascii_data)
                   book_parser (lit "zh-CN") book_criteria quiet_items
                   (lit "toc.ncx") ncx []
  = Done (mkReport quiet_items (Some (lit "<text>{One}</text>"))
                   [lit "toc.ncx"] true false).
Proof. reflexivity. Qed.

Example empty_language_items_run :
  set_metadata_toc (TC := Stub.bracing_converter) (UD := Stub.ascii_data)
                   book_parser (lit "zh-CN") book_criteria
                   empty_language_items (lit "toc.ncx") ncx []
  = Failed TypeError.
Proof. reflexivity. Qed.

End DialogRuns.

(* ================================================================== *)
(** ** Documents as text *)

Module SourceFacts.
Import Tables HTML_TextProcessor HandlerFacts WalkFacts Source.

Lemma plain_split (ev : event) :
  plain ev = faithful ev && negb (bare_root ev).
Proof.
  destruct ev; simpl; try reflexivity.
  - destruct (str_eqb tag (lit "html")), (has_xml_lang attrs); reflexivity.
  - rewrite andb_true_r; reflexivity.
Qed.








Section WithCollaborators.
Context {TC : TextConverter} {UD : UnicodeData}.

Lemma feed_same_setup (self self' : t) (doc : list event) :
  feed self doc = Ok self' -> same_setup self self'.
Proof.
  revert self; induction doc as [|ev doc IH]; intros self; simpl.
  - intros H; injection H as <-; repeat split.
  - destruct (dispatch self ev) as [s1|e] eqn:H1; simpl; [|discriminate].
    intros H.
    destruct (dispatch_same_setup _ _ _ H1) as (Hk & Hl & Hf).
    destruct (IH s1 H) as (Hk2 & Hl2 & Hf2).
    repeat split; congruence.
Qed.

Lemma feed_extends (self self' : t) (doc : list event) :
  feed self doc = Ok self' ->
  exists more, result self' = result self ++ more.
Proof.
  revert self; induction doc as [|ev doc IH]; intros self; simpl.
  - intros H; injection H as <-; exists []; symmetry; apply app_nil_r.
  - destruct (dispatch self ev) as [s1|e] eqn:H1; simpl; [|discriminate].
    intros H.
    destruct (OutputMore.dispatch_appends _ _ _ H1) as (f1 & Hr1 & _).
    destruct (IH s1 H) as (more & Hr).
    exists (f1 ++ more); rewrite Hr, Hr1, app_assoc; reflexivity.
Qed.




Lemma join_app (a b : list pystr) : join (a ++ b) = join a ++ join b.
Proof. apply concat_app. Qed.



(** C9.  A comment (a sentinel among them, whatever the scope state),
    an entity reference, a numeric character reference, a processing
    instruction and a declaration, each in its usual spelling, are
    written back as their text, in every parser state and so for every
    criteria tuple.  A marked section is not: [unknown_decl] writes what
    it is given between the delimiters of a declaration, and the brackets
    of the section are lost. *)
Theorem C9_marked_section_loses_brackets (self : t) (payload : pystr) :
  (exists s, dispatch self (parsed (comment payload)) = Ok s
             /\ result s = result self ++ [raw (comment payload)])
  /\ (exists s, dispatch self (parsed (entityref payload)) = Ok s
                /\ result s = result self ++ [raw (entityref payload)])
  /\ (exists s, dispatch self (parsed (charref payload)) = Ok s
                /\ result s = result self ++ [raw (charref payload)])
  /\ (exists s, dispatch self (parsed (pi payload)) = Ok s
                /\ result s = result self ++ [raw (pi payload)])
  /\ (exists s, dispatch self (parsed (doctype payload)) = Ok s
                /\ result s = result self ++ [raw (doctype payload)])
  /\ (exists s, dispatch self (parsed (marked_section payload)) = Ok s
                /\ result s = result self ++ [lit "<!" ++ payload ++ lit ">"]
                /\ lit "<!" ++ payload ++ lit ">"
                   <> raw (marked_section payload)).
Proof.
  repeat split; try (eexists; split; reflexivity).
  - eexists; split; [reflexivity|].
    cbn [parsed comment raw]; unfold handle_comment.
    destruct (_ && str_eqb (strip payload) seltext_start_tag); [reflexivity|].
    destruct (_ && str_eqb (strip payload) seltext_end_tag); reflexivity.
  - eexists; split; [reflexivity|]; split; [reflexivity|].
    cbn [marked_section raw]; intros E.
    apply (f_equal (@List.length char)) in E.
    rewrite !length_app in E; simpl in E; lia.
Qed.

End WithCollaborators.
End SourceFacts.

(* ================================================================== *)
(** ** The selected text region in the output *)

Module RegionFacts.
Import Tables HTML_TextProcessor HandlerFacts WalkFacts Source SourceFacts.

Section WithCollaborators.
Context {TC : TextConverter} {UD : UnicodeData}.

Lemma rewrite_run_criteria (s s' : t) (text : pystr) :
  criteria s = criteria s' -> rewrite_run s text = rewrite_run s' text.
Proof.
  intros E; unfold rewrite_run, quote_step, punctuation_step, script_step,
              replace_quotations.
  rewrite E; reflexivity.
Qed.

(** The output for a document that ends in a text run. *)
Lemma processText_snoc (self s : t) (criteria : Criteria)
      (prefix : list event) (text : pystr) :
  feed (start self criteria) prefix = Ok s ->
  processText self (prefix ++ [Data text]) criteria
  = (s' <- handle_data s text ;; Ok (join (result s'))).
Proof.
  intros Hfeed; unfold processText.
  rewrite feed_app, Hfeed; cbn [bind feed dispatch].
  destruct (handle_data s text); reflexivity.
Qed.

(** The output for a document with a text run in it, when there is
    one. *)
Lemma processText_around (self : t) (criteria : Criteria)
      (prefix after : list event) (text out : pystr) :
  processText self (prefix ++ Data text :: after) criteria = Ok out ->
  exists s s' rest,
    feed (start self criteria) prefix = Ok s
    /\ handle_data s text = Ok s'
    /\ out = join (result s') ++ rest.
Proof.
  unfold processText; rewrite feed_app.
  destruct (feed (start self criteria) prefix) as [s|e] eqn:H0;
    [|discriminate].
  cbn [bind feed dispatch].
  destruct (handle_data s text) as [s'|e] eqn:H1; [|discriminate].
  cbn [bind].
  destruct (feed s' after) as [s2|e] eqn:H2; [|discriminate].
  cbn [bind]; intros H; injection H as <-.
  destruct (feed_extends _ _ _ H2) as (more & Hr).
  exists s, s', (join more); split; [reflexivity|split; [exact H1|]].
  rewrite Hr; apply join_app.
Qed.

(** The state at the end of an open region. *)
Lemma region_state (self s : t) (criteria : Criteria)
      (before inside : list event) (data : pystr) :
  INPUT_SOURCE criteria = 2 ->
  strip data = seltext_start_tag ->
  existsb is_end_sentinel inside = false ->
  feed (start self criteria) (before ++ Comment data :: inside) = Ok s ->
  converting s = true /\ HTML_TextProcessor.criteria s = criteria.
Proof.
  intros Hsrc Hstart Hno Hfeed.
  destruct (feed_same_setup _ _ _ Hfeed) as (Hk & _).
  split; [|exact Hk].
  rewrite feed_app in Hfeed.
  destruct (feed (start self criteria) before) as [s1|e] eqn:H1;
    [|discriminate].
  destruct (feed_same_setup _ _ _ H1) as (Hk1 & _).
  cbn [bind feed dispatch] in Hfeed.
  apply (feed_stays_in (handle_comment s1 data) s inside);
    [|exact Hno|exact Hfeed].
  unfold handle_comment; rewrite Hk1; cbn [start HTML_TextProcessor.criteria].
  rewrite Hsrc, Hstart, str_eqb_refl; reflexivity.
Qed.

(** C2.  With the selected text region as input source the scope flag
    starts false.  A text run of the document that comes before the
    first start sentinel is in the output as it is: the walk reaches it,
    and the output is the output for what comes before, the run itself,
    and the rest.  A text run that is not whitespace and comes after a
    start sentinel with no end sentinel in between is in the output as
    [rewrite_run] gives it, whenever there is an output; the walk ends in
    an exception there exactly when what comes before or the rewrite
    does.  Nothing but an end sentinel closes the region, so this holds
    up to the end of the document. *)
Theorem C2_selected_region_scope (self : t) (criteria : Criteria) :
  INPUT_SOURCE criteria = 2 ->
  converting (start self criteria) = false
  /\ (forall before text,
         existsb is_start_sentinel before = false ->
         exists head,
           processText self before criteria = Ok head
           /\ processText self (before ++ [Data text]) criteria
              = Ok (head ++ text)
           /\ forall after out,
                processText self (before ++ Data text :: after) criteria
                = Ok out ->
                exists rest, out = head ++ text ++ rest)
  /\ (forall before data inside text,
         strip data = seltext_start_tag ->
         existsb is_end_sentinel inside = false ->
         isspace text = false ->
         processText self ((before ++ Comment data :: inside) ++ [Data text])
                     criteria
         = (head <- processText self (before ++ Comment data :: inside)
                                criteria ;;
            rewritten <- rewrite_run (start self criteria) text ;;
            Ok (head ++ rewritten))
         /\ forall after out,
              processText self
                          ((before ++ Comment data :: inside)
                           ++ Data text :: after) criteria
              = Ok out ->
              exists head rewritten rest,
                processText self (before ++ Comment data :: inside) criteria
                = Ok head
                /\ rewrite_run (start self criteria) text = Ok rewritten
                /\ out = head ++ rewritten ++ rest).
Proof.
  intros Hsrc.
  assert (H0 : converting (start self criteria) = false)
    by (unfold start; simpl; rewrite Hsrc; reflexivity).
  split; [exact H0|split].
  - intros before text Hno.
    destruct (feed_stays_out (start self criteria) before H0 Hno)
      as (s & Hfeed & Hc & _).
    exists (join (result s)); split; [|split].
    + unfold processText; rewrite Hfeed; reflexivity.
    + rewrite (processText_snoc self s criteria before text Hfeed).
      rewrite (handle_data_out_of_scope s text Hc); cbn [bind].
      rewrite OutputMore.join_append; reflexivity.
    + intros after out Hout.
      destruct (processText_around _ _ _ _ _ _ Hout)
        as (s1 & s' & rest & Hfeed1 & Hdata & ->).
      rewrite Hfeed in Hfeed1; injection Hfeed1 as <-.
      rewrite (handle_data_out_of_scope s text Hc) in Hdata.
      injection Hdata as <-.
      exists rest; rewrite OutputMore.join_append, <- app_assoc; reflexivity.
  - intros before data inside text Hstart Hno Hs.
    set (region := before ++ Comment data :: inside).
    split.
    + destruct (feed (start self criteria) region) as [s|e] eqn:Hfeed.
      * destruct (region_state self s criteria before inside data
                               Hsrc Hstart Hno Hfeed) as [Hc Hk].
        rewrite (processText_snoc self s criteria region text Hfeed).
        rewrite (handle_data_in_scope s text Hs Hc).
        rewrite (rewrite_run_criteria s (start self criteria) text)
          by (rewrite Hk; reflexivity).
        unfold processText at 1; rewrite Hfeed; cbn [bind].
        destruct (rewrite_run (start self criteria) text) as [rewritten|e];
          cbn [bind]; [|reflexivity].
        rewrite OutputMore.join_append; reflexivity.
      * unfold processText; rewrite feed_app, Hfeed; reflexivity.
    + intros after out Hout.
      destruct (processText_around _ _ _ _ _ _ Hout)
        as (s & s' & rest & Hfeed & Hdata & ->).
      destruct (region_state self s criteria before inside data
                             Hsrc Hstart Hno Hfeed) as [Hc Hk].
      rewrite (handle_data_in_scope s text Hs Hc) in Hdata.
      rewrite (rewrite_run_criteria s (start self criteria) text) in Hdata
        by (rewrite Hk; reflexivity).
      destruct (rewrite_run (start self criteria) text) as [rewritten|e];
        cbn [bind] in Hdata; [|discriminate].
      injection Hdata as <-.
      exists (join (result s)), rewritten, rest; split; [|split].
      * unfold processText; fold region; rewrite Hfeed; reflexivity.
      * reflexivity.
      * rewrite OutputMore.join_append, <- app_assoc; reflexivity.
Qed.

End WithCollaborators.

(** In [a<!--PI_SELTEXT_START-->b<!-- PI_SELTEXT_END -->c] the run [b]
    is in the output as the converter gives it. *)
Lemma C2_selected_region_scope_witness :
  exists head rewritten rest,
    processText (TC := Stub.bracing_converter) (UD := Stub.ascii_data)
                (new Sample.region_criteria)
                ([Data (lit "a")] ++ Comment (lit "PI_SELTEXT_START") :: [])
                Sample.region_criteria
    = Ok head
    /\ rewrite_run (TC := Stub.bracing_converter)
                   (start (new Sample.region_criteria) Sample.region_criteria)
                   (lit "b")
       = Ok rewritten
    /\ lit "a<!--PI_SELTEXT_START-->{b}<!-- PI_SELTEXT_END -->c"
       = head ++ rewritten ++ rest.
Proof.
  apply (proj2 (proj2 (proj2 (C2_selected_region_scope
                                (TC := Stub.bracing_converter)
                                (UD := Stub.ascii_data)
                                (new Sample.region_criteria)
                                Sample.region_criteria eq_refl))
                      [Data (lit "a")] (lit "PI_SELTEXT_START") []
                      (lit "b") eq_refl eq_refl eq_refl)
               [Comment (lit " PI_SELTEXT_END "); Data (lit "c")]
               (lit "a<!--PI_SELTEXT_START-->{b}<!-- PI_SELTEXT_END -->c")).
  reflexivity.
Defined.

End RegionFacts.

(* ================================================================== *)
(** ** An omission string no dialog saves *)

Module OmissionFacts.
Import Tables.

(** C10 fails for an omission string no dialog saves: with every mark of
    the master table and one more character in it, every mark is omitted
    and the table is empty, and yet a matcher is built. *)
Lemma C10_counterexample :
  (forall k, In k (keys _h2v_master_dict) ->
             In k (Gui.punc_omits SampleSource.overfull_prefs))
  /\ UPDATE_PUNCTUATION (Gui.getCriteria SampleSource.overfull_prefs) = true
  /\ PUNC_DICT (Gui.getCriteria SampleSource.overfull_prefs) = []
  /\ PUNC_REGEX (Gui.getCriteria SampleSource.overfull_prefs) = Some []
  /\ PUNC_REGEX (Gui.getCriteria SampleSource.overfull_prefs) <> None.
Proof.
  split; [|repeat split; try reflexivity; discriminate].
  intros k Hk; apply in_or_app; left; exact Hk.
Qed.

End OmissionFacts.

(* ================================================================== *)
(** ** Sample documents, read and written *)

Module SourceRuns.
Import HTML_TextProcessor Source SourceFacts.



(** The page with a language on its root tag comes back as it is; the
    page without gets the attribute, also in a run on selected text in
    which nothing is selected. *)
Example page_unchanged :
  processText (TC := Stub.bracing_converter) (UD := Stub.ascii_data)
              (new SampleSource.idle_criteria)
              (events SampleSource.page) SampleSource.idle_criteria
  = Ok (text_of SampleSource.page).
Proof. reflexivity. Qed.

Example bare_page_rooted :
  text_of SampleSource.bare_page = lit "<html><body>One</body></html>"
  /\ processText (TC := Stub.bracing_converter) (UD := Stub.ascii_data)
                 (new Sample.region_criteria)
                 (events SampleSource.bare_page) Sample.region_criteria
     = Ok (lit "<html xml:None><body>One</body></html>").
Proof. split; reflexivity. Qed.

(** The marked section of [<p><![CDATA[x]]></p>] loses its brackets. *)
Example cdata_page_output :
  text_of SampleSource.cdata_page = lit "<p><![CDATA[x]]></p>"
  /\ processText (TC := Stub.bracing_converter) (UD := Stub.ascii_data)
                 (new SampleSource.idle_criteria)
                 (events SampleSource.cdata_page) SampleSource.idle_criteria
     = Ok (lit "<p><!CDATA[x></p>").
Proof. split; reflexivity. Qed.

(** Constructs in another spelling come back in the usual one. *)
Example loose_page_output :
  text_of SampleSource.loose_page = lit "&amp x<!--z-- ><!ELEMENT y></P >"
  /\ processText (TC := Stub.bracing_converter) (UD := Stub.ascii_data)
                 (new SampleSource.idle_criteria)
                 (events SampleSource.loose_page) SampleSource.idle_criteria
     = Ok (lit "&amp; x<!--z--><!--ELEMENT y--></p>").
Proof. split; reflexivity. Qed.

End SourceRuns.

(* ================================================================== *)
(** ** The selected files *)

Module SelectionFacts.
Import Source SourceFacts Dialog.

Section WithCollaborators.
Context {TC : TextConverter} {UD : UnicodeData}.



End WithCollaborators.


(** A file without sentinel and without [xml:lang] on its root tag is
    written. *)
Example bare_root_file_run :
  process_files (TC := Stub.bracing_converter) (UD := Stub.ascii_data)
                (HTML_TextProcessor.new Sample.region_criteria)
                Sample.region_criteria
                (SampleDialog.bare_root_file :: SampleDialog.selection)
                (fun self => Ok self) SampleDialog.idle
  = Ok (mkGui true [lit "Text/c.xhtml"]
              [(lit "c", lit "<html xml:None>One</html>")]).
Proof. reflexivity. Qed.

(** With a region marked in one file, that file is the one written. *)
Example marked_selection_run :
  process_files (TC := Stub.bracing_converter) (UD := Stub.ascii_data)
                (HTML_TextProcessor.new Sample.region_criteria)
                Sample.region_criteria SampleDialog.marked_selection
                (fun self => Ok self) SampleDialog.idle
  = Ok (mkGui true [lit "Text/b.xhtml"]
              [(lit "b",
                lit "a<!--PI_SELTEXT_START-->{b}<!-- PI_SELTEXT_END -->c")]).
Proof. reflexivity. Qed.

End SelectionFacts.
